(** * odbc_wrapper: RAII handles, fallible operations, typed column access
      and the thread-local connection pool

    A shallow embedding of [odbc_wrapper.h] and [connection_pool.h].

    The native driver manager is an opaque, fallible service.  It is modelled
    as a deterministic machine over a hidden state [D] (class [Driver]); every
    theorem below is stated for an arbitrary driver.  One [World] is one
    thread's view: the driver, the trace of native calls made so far, the
    lines written to [std::cerr], the live handle objects (address |-> value
    of [m_handle]) and the thread's [thread_local] pool.

    C++ control flow is kept as it is written: a computation returns
    normally, throws, or leaves defined behaviour ([Undef]: a read past the
    end of a buffer, the use of an object that is not alive).  Memory is
    unbounded: allocation never fails ([std::bad_alloc] is not thrown), and
    a count that exceeds what a buffer holds is always a read past its end;
    a vector cannot be resized beyond its [max_size()], where [resize]
    throws [std::length_error].  The target is a 64-bit one: [SQLLEN],
    [size_t] and [ptrdiff_t] have 64 bits, [long] and [double] 8 bytes. *)

From Stdlib Require Import ZArith Ascii String.
From stdpp Require Import gmap strings list fin_maps pretty.

Open Scope Z_scope.

(** ** Constants of the ODBC headers ([sql.h], [sqlext.h])

    The wrapper includes the platform's ODBC headers; the values below are
    the ones the ODBC specification fixes for these names. *)

Module ODBC.

Definition SQL_SUCCESS : Z := 0.
Definition SQL_SUCCESS_WITH_INFO : Z := 1.
Definition SQL_NO_DATA : Z := 100.
Definition SQL_ERROR : Z := -1.
Definition SQL_INVALID_HANDLE : Z := -2.

(** [#define SQL_SUCCEEDED(rc) (((rc)&(~1))==0)] *)
Definition SQL_SUCCEEDED (rc : Z) : bool := Z.land rc (Z.lnot 1) =? 0.

Definition SQL_NULL_DATA : Z := -1.
Definition SQL_NTS : Z := -3.

Definition SQL_NULL_HANDLE : Z := 0.
Definition SQL_HANDLE_ENV : Z := 1.
Definition SQL_HANDLE_DBC : Z := 2.
Definition SQL_HANDLE_STMT : Z := 3.

Definition SQL_ATTR_ODBC_VERSION : Z := 200.
Definition SQL_OV_ODBC3 : Z := 3.
Definition SQL_DRIVER_NOPROMPT : Z := 0.
Definition SQL_MAX_MESSAGE_LENGTH : Z := 512.

Definition SQL_C_CHAR : Z := 1.
Definition SQL_C_SLONG : Z := -16.
Definition SQL_C_DOUBLE : Z := 8.

End ODBC.
Export ODBC.

(** [nullptr] as the value of a handle member. *)
Definition nullptr : Z := 0.

(** ** Raw memory: byte buffers *)

Definition NUL : ascii := Ascii.zero.

(** [std::vector<char> v(n)]: [n] value-initialised bytes. *)
Definition vector_of_size (n : nat) : list ascii := replicate n NUL.

(** [std::vector<char>::max_size()] on a 64-bit target: [PTRDIFF_MAX]. *)
Definition vector_max_size : Z := 2 ^ 63 - 1.

(** The elements of [v] after a [v.resize(n)] that returns: its first [n]
    elements, padded with zero bytes. *)
Definition resized (n : nat) (v : list ascii) : list ascii :=
  take n v ++ replicate (n - length v)%nat NUL.

(** [v.resize(n)]: [None] when [n] exceeds [max_size()]; [resize] then
    throws [std::length_error] and leaves [v] as it is. *)
Definition vector_resize (n : nat) (v : list ascii) : option (list ascii) :=
  if Z.of_nat n <=? vector_max_size then Some (resized n v) else None.

(** What a callee leaves in a caller's buffer when it stores the bytes
    [written] at its start; the size of the buffer does not change. *)
Definition store_bytes (buffer written : list ascii) : list ascii :=
  take (length buffer) (written ++ drop (length written) buffer).

(** An output parameter passed by address: [None] is "left untouched". *)
Definition store_out (old : Z) (written : option Z) : Z := default old written.

(** The value a signed [bits]-bit variable holds after [z] is stored in it. *)
Definition signed (bits : Z) (z : Z) : Z :=
  (z + 2 ^ (bits - 1)) mod 2 ^ bits - 2 ^ (bits - 1).

(** [SQLLEN] (64-bit targets) and [SQLSMALLINT] output parameters. *)
Definition store_SQLLEN (old : Z) (written : option Z) : Z :=
  default old (signed 64 <$> written).
Definition store_SQLSMALLINT (old : Z) (written : option Z) : Z :=
  default old (signed 16 <$> written).

(** The bytes of a NUL-terminated string found at the start of [buffer];
    [None] when the buffer holds no terminator (the read runs off its end). *)
Fixpoint c_str (buffer : list ascii) : option (list ascii) :=
  match buffer with
  | [] => None
  | c :: rest =>
      if Ascii.eqb c NUL then Some []
      else match c_str rest with
           | Some s => Some (c :: s)
           | None => None
           end
  end.

(** [static_cast<size_t>(n)] on a 64-bit target. *)
Definition to_size_t (n : Z) : Z := n mod 2 ^ 64.

(** [std::string(p, count)] / [s.assign(p, count)] where [p] is the start of
    [buffer]: the first [count] bytes, or [None] when [count] exceeds what
    the buffer holds. *)
Definition bytes_at (buffer : list ascii) (count : Z) : option string :=
  if count <=? Z.of_nat (length buffer)
  then Some (string_of_list_ascii (take (Z.to_nat count) buffer))
  else None.

#[global] Arguments vector_of_size : simpl never.
#[global] Arguments resized : simpl never.
#[global] Arguments vector_resize : simpl never.
#[global] Arguments store_bytes : simpl never.
#[global] Arguments to_size_t : simpl never.
#[global] Arguments signed : simpl never.
#[global] Arguments bytes_at : simpl never.

(** ** Outcomes of a C++ computation *)

(** The exceptions that leave the functions of the two headers: the two
    exception classes they define, and the [std::length_error] of
    [std::vector::resize]. *)
Inductive Exn : Type :=
  | OdbcSetupError (message : string)
  | ConnectionPoolError (message : string)
  | std_length_error.

Inductive Res (A : Type) : Type :=
  | Ret (a : A)
  | Throw (e : Exn)
  | Undef.
Arguments Ret {A} a.
Arguments Throw {A} e.
Arguments Undef {A}.

(** [std::expected<T, E>] *)
Inductive expected (T E : Type) : Type :=
  | Expected (t : T)
  | Unexpected (e : E).
Arguments Expected {T E} t.
Arguments Unexpected {T E} e.

(** [struct OdbcError] *)
Record OdbcError : Type := mkOdbcError {
  sql_state : string;
  native_error : Z;
  message : string
}.

(** [OdbcError::to_string] *)
Definition to_string (e : OdbcError) : string :=
  "ODBC Error: SQLSTATE=" +:+ sql_state e +:+ ", NativeError="
    +:+ pretty (native_error e) +:+ ", Message='" +:+ message e +:+ "'".

(** [std::optional<OdbcError>::value_or] *)
Definition value_or {A : Type} (o : option A) (fallback : A) : A :=
  default fallback o.

(** ** The native call contract *)

(** One entry per native function, with the arguments the wrapper passes. *)
Inductive Call : Type :=
  | CallAllocHandle (handle_type input_handle : Z)
  | CallSetEnvAttr (henv attribute value string_length : Z)
  | CallFreeHandle (handle_type handle : Z)
  | CallDriverConnect (hdbc : Z) (in_connection_string : list ascii)
                      (string_length1 driver_completion : Z)
  | CallDisconnect (hdbc : Z)
  | CallExecDirect (hstmt : Z) (statement_text : list ascii) (text_length : Z)
  | CallFetch (hstmt : Z)
  | CallRowCount (hstmt : Z)
  | CallGetDiagRec (handle_type handle rec_number buffer_length : Z)
  | CallGetData (hstmt column target_type buffer_length : Z).

(** What [SQLGetDiagRec] leaves in its output parameters. *)
Record DiagOut : Type := mkDiagOut {
  diag_ret : Z;
  diag_sql_state : list ascii;
  diag_native_error : option Z;
  diag_message_text : list ascii;
  diag_text_length : option Z
}.

(** What [SQLGetData] leaves in its output parameters. *)
Record DataOut : Type := mkDataOut {
  data_ret : Z;
  data_target : list ascii;
  data_indicator : option Z
}.

(** A driver manager with hidden state [D]. *)
Class Driver (D : Type) : Type := {
  drv_AllocHandle : Z -> Z -> D -> (Z * option Z) * D;
  drv_SetEnvAttr : Z -> Z -> Z -> Z -> D -> Z * D;
  drv_FreeHandle : Z -> Z -> D -> Z * D;
  drv_DriverConnect : Z -> list ascii -> Z -> Z -> D -> Z * D;
  drv_Disconnect : Z -> D -> Z * D;
  drv_ExecDirect : Z -> list ascii -> Z -> D -> Z * D;
  drv_Fetch : Z -> D -> Z * D;
  drv_RowCount : Z -> D -> (Z * option Z) * D;
  drv_GetDiagRec : Z -> Z -> Z -> Z -> D -> DiagOut * D;
  drv_GetData : Z -> Z -> Z -> Z -> D -> DataOut * D
}.

(** Lines written to [std::cerr]; the thread identifier that prefixes each
    line is left out. *)
Inductive LogLine : Type :=
  | LogCreatingNew (alias : string)
  | LogEstablished
  | LogExplicitDisconnect
  | LogClosingViaDestructor.

(** [class ThreadLocalConnectionPool]: the members are the address of the
    [Environment] object and the map from alias to the address of the
    [Connection] object held in the map node. *)
Record ThreadLocalConnectionPool : Type := mkPool {
  env_ : nat;
  connections_ : gmap string nat
}.

Record World (D : Type) : Type := mkWorld {
  driver : D;
  calls : list Call;
  cerr : list LogLine;
  objects : gmap nat Z;
  pool : option ThreadLocalConnectionPool
}.
Arguments mkWorld {D}.
Arguments driver {D}.
Arguments calls {D}.
Arguments cerr {D}.
Arguments objects {D}.
Arguments pool {D}.

(** ** The monad of computations over a world *)

Definition M (D A : Type) : Type := World D -> Res A * World D.

Definition ret_M {D A} (a : A) : M D A := fun w => (Ret a, w).

Definition bind_M {D A B} (m : M D A) (k : A -> M D B) : M D B :=
  fun w =>
    match m w with
    | (Ret a, w') => k a w'
    | (Throw e, w') => (Throw e, w')
    | (Undef, w') => (Undef, w')
    end.

#[global] Instance M_ret D : MRet (M D) := fun A => @ret_M D A.
#[global] Instance M_bind D : MBind (M D) := fun A B k m => @bind_M D A B m k.

Definition throw {D A} (e : Exn) : M D A := fun w => (Throw e, w).
Definition undefined {D A} : M D A := fun w => (Undef, w).

(** Scope exit: [cleanup] (the destructors of the locals) runs whether
    [body] returns or throws; a destructor that throws while an exception
    unwinds the stack ends the program. *)
Definition finally {D A} (body : M D A) (cleanup : M D unit) : M D A :=
  fun w =>
    match body w with
    | (Ret a, w1) =>
        match cleanup w1 with
        | (Ret _, w2) => (Ret a, w2)
        | (Throw e, w2) => (Throw e, w2)
        | (Undef, w2) => (Undef, w2)
        end
    | (Throw e, w1) =>
        match cleanup w1 with
        | (Ret _, w2) => (Throw e, w2)
        | (_, w2) => (Undef, w2)
        end
    | (Undef, w1) => (Undef, w1)
    end.

(** The types [T] at which [Statement::get_data<T>] is used. *)
Inductive ColumnType : Type := T_string | T_long | T_double.

(** [sizeof(long)] and [sizeof(double)] on an LP64 target. *)
Definition sizeof_long : nat := 8.
Definition sizeof_double : nat := 8.

(** A [std::string] is kept as a string; a [long] or a [double] as the bytes
    of its object representation, which is what the driver fills in. *)
Definition carrier (T : ColumnType) : Type :=
  match T with
  | T_string => string
  | T_long => list ascii
  | T_double => list ascii
  end.

Section Wrapper.

Context {D : Type} `{!Driver D}.

Local Abbreviation M := (M D).

(** *** World updates *)

Definition native {R : Type} (c : Call) (f : D -> R * D) : M R :=
  fun w =>
    let '(r, d) := f (driver w) in
    (Ret r, mkWorld d (calls w ++ [c]) (cerr w) (objects w) (pool w)).

Definition log (l : LogLine) : M unit :=
  fun w =>
    (Ret tt,
     mkWorld (driver w) (calls w) (cerr w ++ [l]) (objects w) (pool w)).

(** An address at which no object lives. *)
Definition fresh_address (w : World D) : nat := fresh (dom (objects w)).

(** A new handle object whose [m_handle] is [h]. *)
Definition new_object (h : Z) : M nat :=
  fun w =>
    (Ret (fresh_address w),
     mkWorld (driver w) (calls w) (cerr w)
             (<[fresh_address w := h]> (objects w)) (pool w)).

(** End of an object's storage. *)
Definition delete_object (this : nat) : M unit :=
  fun w =>
    (Ret tt, mkWorld (driver w) (calls w) (cerr w)
                     (delete this (objects w)) (pool w)).

(** [this->m_handle] *)
Definition get_handle (this : nat) : M Z :=
  fun w =>
    match objects w !! this with
    | Some h => (Ret h, w)
    | None => (Undef, w)
    end.

(** [this->m_handle = h] *)
Definition set_handle (this : nat) (h : Z) : M unit :=
  fun w =>
    match objects w !! this with
    | Some _ =>
        (Ret tt, mkWorld (driver w) (calls w) (cerr w)
                         (<[this := h]> (objects w)) (pool w))
    | None => (Undef, w)
    end.

(** [std::exchange(other.m_handle, nullptr)] *)
Definition exchange_handle (other : nat) (new_value : Z) : M Z :=
  old ← get_handle other;
  _ ← set_handle other new_value;
  mret old.

(** *** Native functions *)

Definition SQLAllocHandle (handle_type input_handle : Z) : M (Z * option Z) :=
  native (CallAllocHandle handle_type input_handle)
         (drv_AllocHandle handle_type input_handle).

Definition SQLSetEnvAttr (henv attribute value string_length : Z) : M Z :=
  native (CallSetEnvAttr henv attribute value string_length)
         (drv_SetEnvAttr henv attribute value string_length).

Definition SQLFreeHandle (handle_type handle : Z) : M Z :=
  native (CallFreeHandle handle_type handle)
         (drv_FreeHandle handle_type handle).

Definition SQLDriverConnect (hdbc : Z) (in_connection_string : list ascii)
    (string_length1 driver_completion : Z) : M Z :=
  native (CallDriverConnect hdbc in_connection_string string_length1
                            driver_completion)
         (drv_DriverConnect hdbc in_connection_string string_length1
                            driver_completion).

Definition SQLDisconnect (hdbc : Z) : M Z :=
  native (CallDisconnect hdbc) (drv_Disconnect hdbc).

Definition SQLExecDirect (hstmt : Z) (statement_text : list ascii)
    (text_length : Z) : M Z :=
  native (CallExecDirect hstmt statement_text text_length)
         (drv_ExecDirect hstmt statement_text text_length).

Definition SQLFetch (hstmt : Z) : M Z :=
  native (CallFetch hstmt) (drv_Fetch hstmt).

Definition SQLRowCount (hstmt : Z) : M (Z * option Z) :=
  native (CallRowCount hstmt) (drv_RowCount hstmt).

Definition SQLGetDiagRec (handle_type handle rec_number buffer_length : Z)
    : M DiagOut :=
  native (CallGetDiagRec handle_type handle rec_number buffer_length)
         (drv_GetDiagRec handle_type handle rec_number buffer_length).

Definition SQLGetData (hstmt column target_type buffer_length : Z)
    : M DataOut :=
  native (CallGetData hstmt column target_type buffer_length)
         (drv_GetData hstmt column target_type buffer_length).


(** *** [get_diagnostic_record] *)

Definition get_diagnostic_record (handle handle_type : Z)
    : M (option OdbcError) :=
  let sql_state_buffer := vector_of_size 6 in
  let native_error := 0 in
  let message_text_buffer :=
    vector_of_size (Z.to_nat SQL_MAX_MESSAGE_LENGTH) in
  let text_length := 0 in
  out ← SQLGetDiagRec handle_type handle 1
          (Z.of_nat (length message_text_buffer));
  let sql_state_buffer := store_bytes sql_state_buffer (diag_sql_state out) in
  let native_error := store_out native_error (diag_native_error out) in
  let message_text_buffer :=
    store_bytes message_text_buffer (diag_message_text out) in
  let text_length := store_SQLSMALLINT text_length (diag_text_length out) in
  if SQL_SUCCEEDED (diag_ret out) then
    match c_str sql_state_buffer,
          bytes_at message_text_buffer (to_size_t text_length) with
    | Some state, Some text =>
        mret (Some (mkOdbcError (string_of_list_ascii state)
                                native_error text))
    | _, _ => undefined
    end
  else mret None.

(** The error branch shared by the fallible operations:
    [std::unexpected(get_diagnostic_record(h, t).value_or(OdbcError{..}))]. *)
Definition unexpected_from {T : Type} (handle handle_type : Z)
    (fallback : OdbcError) : M (expected T OdbcError) :=
  record ← get_diagnostic_record handle handle_type;
  mret (Unexpected (value_or record fallback)).

(** *** [class Environment]

    An object is the address of its [m_handle]; a constructor yields the
    address of the object it made, and a constructor that throws leaves no
    object behind. *)

(** [Environment::Environment()] *)
Definition Environment_ctor : M nat :=
  this ← new_object nullptr;
  '(ret, out) ← SQLAllocHandle SQL_HANDLE_ENV SQL_NULL_HANDLE;
  _ ← set_handle this (store_out nullptr out);
  if negb (SQL_SUCCEEDED ret) then
    _ ← delete_object this;
    throw (OdbcSetupError "ODBC: Failed to allocate environment handle.")
  else
    m_handle ← get_handle this;
    ret ← SQLSetEnvAttr m_handle SQL_ATTR_ODBC_VERSION SQL_OV_ODBC3 0;
    if negb (SQL_SUCCEEDED ret) then
      _ ← SQLFreeHandle SQL_HANDLE_ENV m_handle;
      _ ← set_handle this nullptr;
      _ ← delete_object this;
      throw (OdbcSetupError
               "ODBC: Failed to set environment attribute to ODBC 3.0.")
    else mret this.

(** [Environment::~Environment()] *)
Definition Environment_dtor (this : nat) : M unit :=
  m_handle ← get_handle this;
  _ ← (if negb (m_handle =? nullptr)
       then _ ← SQLFreeHandle SQL_HANDLE_ENV m_handle; mret tt
       else mret tt);
  delete_object this.

(** [Environment::Environment(Environment&&)] *)
Definition Environment_move_ctor (other : nat) : M nat :=
  h ← exchange_handle other nullptr;
  new_object h.

(** [Environment::operator=(Environment&&)] *)
Definition Environment_move_assign (this other : nat) : M nat :=
  if negb (this =? other)%nat then
    m_handle ← get_handle this;
    _ ← (if negb (m_handle =? nullptr)
         then _ ← SQLFreeHandle SQL_HANDLE_ENV m_handle; mret tt
         else mret tt);
    h ← exchange_handle other nullptr;
    _ ← set_handle this h;
    mret this
  else mret this.

Definition Environment_get (this : nat) : M Z := get_handle this.

(** *** [class Connection] *)

(** [Connection::Connection(const Environment&)]; the parent must be alive
    when the constructor is entered. *)
Definition Connection_ctor (env : nat) : M nat :=
  input ← Environment_get env;
  this ← new_object nullptr;
  '(ret, out) ← SQLAllocHandle SQL_HANDLE_DBC input;
  _ ← set_handle this (store_out nullptr out);
  if negb (SQL_SUCCEEDED ret) then
    _ ← delete_object this;
    throw (OdbcSetupError "ODBC: Failed to allocate connection handle.")
  else mret this.

(** [Connection::~Connection()] *)
Definition Connection_dtor (this : nat) : M unit :=
  m_handle ← get_handle this;
  _ ← (if negb (m_handle =? nullptr)
       then
         _ ← log LogClosingViaDestructor;
         _ ← SQLDisconnect m_handle;
         _ ← SQLFreeHandle SQL_HANDLE_DBC m_handle;
         mret tt
       else mret tt);
  delete_object this.

(** [Connection::Connection(Connection&&)] *)
Definition Connection_move_ctor (other : nat) : M nat :=
  h ← exchange_handle other nullptr;
  new_object h.

(** [Connection::operator=(Connection&&)] *)
Definition Connection_move_assign (this other : nat) : M nat :=
  if negb (this =? other)%nat then
    m_handle ← get_handle this;
    _ ← (if negb (m_handle =? nullptr)
         then
           _ ← SQLDisconnect m_handle;
           _ ← SQLFreeHandle SQL_HANDLE_DBC m_handle;
           mret tt
         else mret tt);
    h ← exchange_handle other nullptr;
    _ ← set_handle this h;
    mret this
  else mret this.

Definition Connection_get (this : nat) : M Z := get_handle this.

(** [Connection::driver_connect] *)
Definition driver_connect (this : nat) (connection_string : string)
    : M (expected unit OdbcError) :=
  m_handle ← get_handle this;
  let conn_str_buffer := list_ascii_of_string connection_string ++ [NUL] in
  ret ← SQLDriverConnect m_handle conn_str_buffer SQL_NTS
          SQL_DRIVER_NOPROMPT;
  if negb (SQL_SUCCEEDED ret) then
    unexpected_from m_handle SQL_HANDLE_DBC
      (mkOdbcError "HY000" 0 "Unknown connection error via DriverConnect")
  else
    _ ← log LogEstablished;
    mret (Expected tt).

(** [Connection::disconnect] *)
Definition disconnect (this : nat) : M (expected unit OdbcError) :=
  m_handle ← get_handle this;
  _ ← log LogExplicitDisconnect;
  ret ← SQLDisconnect m_handle;
  if negb (SQL_SUCCEEDED ret) then
    unexpected_from m_handle SQL_HANDLE_DBC
      (mkOdbcError "HY000" 0 "Unknown disconnection error")
  else mret (Expected tt).

(** *** [class Statement] *)

(** [Statement::Statement(const Connection&)] *)
Definition Statement_ctor (conn : nat) : M nat :=
  input ← Connection_get conn;
  this ← new_object nullptr;
  '(ret, out) ← SQLAllocHandle SQL_HANDLE_STMT input;
  _ ← set_handle this (store_out nullptr out);
  if negb (SQL_SUCCEEDED ret) then
    _ ← delete_object this;
    throw (OdbcSetupError "ODBC: Failed to allocate statement handle.")
  else mret this.

(** [Statement::~Statement()] *)
Definition Statement_dtor (this : nat) : M unit :=
  m_handle ← get_handle this;
  _ ← (if negb (m_handle =? nullptr)
       then _ ← SQLFreeHandle SQL_HANDLE_STMT m_handle; mret tt
       else mret tt);
  delete_object this.

(** [Statement::Statement(Statement&&)] *)
Definition Statement_move_ctor (other : nat) : M nat :=
  h ← exchange_handle other nullptr;
  new_object h.

(** [Statement::operator=(Statement&&)] *)
Definition Statement_move_assign (this other : nat) : M nat :=
  if negb (this =? other)%nat then
    m_handle ← get_handle this;
    _ ← (if negb (m_handle =? nullptr)
         then _ ← SQLFreeHandle SQL_HANDLE_STMT m_handle; mret tt
         else mret tt);
    h ← exchange_handle other nullptr;
    _ ← set_handle this h;
    mret this
  else mret this.

Definition Statement_get (this : nat) : M Z := get_handle this.

(** [Statement::execute_direct] *)
Definition execute_direct (this : nat) (query : string)
    : M (expected unit OdbcError) :=
  m_handle ← get_handle this;
  let query_buffer := list_ascii_of_string query in
  ret ← SQLExecDirect m_handle query_buffer
          (Z.of_nat (length query_buffer));
  if negb (SQL_SUCCEEDED ret) then
    unexpected_from m_handle SQL_HANDLE_STMT
      (mkOdbcError "HY000" 0 "Unknown execution error")
  else mret (Expected tt).

(** [Statement::row_count] *)
Definition row_count (this : nat) : M (expected Z OdbcError) :=
  m_handle ← get_handle this;
  let count := 0 in
  '(ret, out) ← SQLRowCount m_handle;
  let count := store_out count out in
  if negb (SQL_SUCCEEDED ret) then
    unexpected_from m_handle SQL_HANDLE_STMT
      (mkOdbcError "HY000" 0 "Unknown error getting row count")
  else mret (Expected count).

(** [Statement::fetch] *)
Definition fetch (this : nat) : M (expected bool OdbcError) :=
  m_handle ← get_handle this;
  ret ← SQLFetch m_handle;
  if SQL_SUCCEEDED ret then mret (Expected true)
  else if ret =? SQL_NO_DATA then mret (Expected false)
  else
    unexpected_from m_handle SQL_HANDLE_STMT
      (mkOdbcError "HY000" 0 "Unknown fetch error").


(** *** Typed column access *)

(** [detail::get_string_data] *)
Definition get_string_data (hstmt column_index : Z)
    : M (expected (option string) OdbcError) :=
  let buffer := vector_of_size 1024 in
  let indicator := 0 in
  out ← SQLGetData hstmt column_index SQL_C_CHAR (Z.of_nat (length buffer));
  let ret := data_ret out in
  let buffer := store_bytes buffer (data_target out) in
  let indicator := store_SQLLEN indicator (data_indicator out) in
  '(ret, buffer, indicator) ←
    (if (ret =? SQL_SUCCESS_WITH_INFO)
        && (indicator >? Z.of_nat (length buffer) - 1)
     then
       match vector_resize (Z.to_nat (to_size_t indicator + 1)) buffer with
       | None => throw std_length_error
       | Some buffer =>
           out ← SQLGetData hstmt column_index SQL_C_CHAR
                   (Z.of_nat (length buffer));
           mret (data_ret out,
                 store_bytes buffer (data_target out),
                 store_SQLLEN indicator (data_indicator out))
       end
     else mret (ret, buffer, indicator));
  if negb (SQL_SUCCEEDED ret) then
    if indicator =? SQL_NULL_DATA then mret (Expected None)
    else
      unexpected_from hstmt SQL_HANDLE_STMT
        (mkOdbcError "HY000" 0 "Unknown GetData<string> error")
  else if indicator =? SQL_NULL_DATA then mret (Expected None)
  else if indicator >? 0 then
    match bytes_at buffer (to_size_t indicator) with
    | Some str_value => mret (Expected (Some str_value))
    | None => undefined
    end
  else mret (Expected (Some EmptyString)).

(** [Statement::get_data<T>] *)
Definition get_data (T : ColumnType) (this : nat) (column_index : Z)
    : M (expected (option (carrier T)) OdbcError) :=
  match T with
  | T_string =>
      m_handle ← get_handle this;
      get_string_data m_handle column_index
  | T_long =>
      m_handle ← get_handle this;
      let value := vector_of_size sizeof_long in
      let indicator := 0 in
      out ← SQLGetData m_handle column_index SQL_C_SLONG
              (Z.of_nat sizeof_long);
      let value := store_bytes value (data_target out) in
      let indicator := store_SQLLEN indicator (data_indicator out) in
      if negb (SQL_SUCCEEDED (data_ret out)) then
        unexpected_from m_handle SQL_HANDLE_STMT
          (mkOdbcError "HY000" 0 "Unknown GetData<long> error")
      else if indicator =? SQL_NULL_DATA then mret (Expected None)
      else mret (Expected (Some value))
  | T_double =>
      m_handle ← get_handle this;
      let value := vector_of_size sizeof_double in
      let indicator := 0 in
      out ← SQLGetData m_handle column_index SQL_C_DOUBLE
              (Z.of_nat sizeof_double);
      let value := store_bytes value (data_target out) in
      let indicator := store_SQLLEN indicator (data_indicator out) in
      if negb (SQL_SUCCEEDED (data_ret out)) then
        unexpected_from m_handle SQL_HANDLE_STMT
          (mkOdbcError "HY000" 0 "Unknown GetData<double> error")
      else if indicator =? SQL_NULL_DATA then mret (Expected None)
      else mret (Expected (Some value))
  end.

(** *** [class ThreadLocalConnectionPool] *)

(** The pool object of the calling thread. *)
Definition this_pool : M ThreadLocalConnectionPool :=
  fun w =>
    match pool w with
    | Some p => (Ret p, w)
    | None => (Undef, w)
    end.

Definition set_pool (p : ThreadLocalConnectionPool) : M unit :=
  fun w =>
    (Ret tt, mkWorld (driver w) (calls w) (cerr w) (objects w) (Some p)).

(** [connections_.emplace(std::string(alias), std::move(new_conn))]: the
    node is built first, by move construction; it is kept when the key is
    new and destroyed when the key is already present. *)
Definition emplace (alias : string) (new_conn : nat) : M (nat * bool) :=
  node ← Connection_move_ctor new_conn;
  p ← this_pool;
  match connections_ p !! alias with
  | None =>
      _ ← set_pool (mkPool (env_ p) (<[alias := node]> (connections_ p)));
      mret (node, true)
  | Some existing =>
      _ ← Connection_dtor node;
      mret (existing, false)
  end.

Definition pool_error_message (alias : string) (e : OdbcError) : string :=
  "Failed to establish connection for alias '" +:+ alias +:+ "': "
    +:+ to_string e.

(** [ThreadLocalConnectionPool::getConnection]; the result is the address
    of the [Connection] object the returned reference denotes. *)
Definition getConnection (alias connection_string : string) : M nat :=
  p ← this_pool;
  match connections_ p !! alias with
  | None =>
      _ ← log (LogCreatingNew alias);
      new_conn ← Connection_ctor (env_ p);
      finally
        (connect_res ← driver_connect new_conn connection_string;
         match connect_res with
         | Unexpected e =>
             throw (ConnectionPoolError (pool_error_message alias e))
         | Expected _ =>
             '(inserted_it, success) ← emplace alias new_conn;
             mret inserted_it
         end)
        (Connection_dtor new_conn)
  | Some it => mret it
  end.

(** [getThreadLocalConnection]: the [thread_local] pool is constructed the
    first time control passes through its declaration; when its
    construction throws it stays unconstructed. *)
Definition getThreadLocalConnection (alias connection_string : string)
    : M nat :=
  _ ← (fun w =>
         match pool w with
         | Some _ => (Ret tt, w)
         | None =>
             (env ← Environment_ctor;
              set_pool (mkPool env ∅)) w
         end);
  getConnection alias connection_string.

(** *** Vocabulary for the statements

    [final_read] is the reading part of [get_string_data], up to and
    including the resize-and-retry: it yields the return code, the buffer
    and the indicator that the final checks of [get_string_data] look at;
    [conclude] is those final checks. *)

Definition final_read (hstmt column_index : Z) : M (Z * list ascii * Z) :=
  let buffer := vector_of_size 1024 in
  let indicator := 0 in
  out ← SQLGetData hstmt column_index SQL_C_CHAR (Z.of_nat (length buffer));
  let ret := data_ret out in
  let buffer := store_bytes buffer (data_target out) in
  let indicator := store_SQLLEN indicator (data_indicator out) in
  if (ret =? SQL_SUCCESS_WITH_INFO)
     && (indicator >? Z.of_nat (length buffer) - 1)
  then
    match vector_resize (Z.to_nat (to_size_t indicator + 1)) buffer with
    | None => throw std_length_error
    | Some buffer =>
        out ← SQLGetData hstmt column_index SQL_C_CHAR
                (Z.of_nat (length buffer));
        mret (data_ret out,
              store_bytes buffer (data_target out),
              store_SQLLEN indicator (data_indicator out))
    end
  else mret (ret, buffer, indicator).

Definition conclude (hstmt : Z) (read : Z * list ascii * Z)
    : M (expected (option string) OdbcError) :=
  let '(ret, buffer, indicator) := read in
  if negb (SQL_SUCCEEDED ret) then
    if indicator =? SQL_NULL_DATA then mret (Expected None)
    else
      unexpected_from hstmt SQL_HANDLE_STMT
        (mkOdbcError "HY000" 0 "Unknown GetData<string> error")
  else if indicator =? SQL_NULL_DATA then mret (Expected None)
  else if indicator >? 0 then
    match bytes_at buffer (to_size_t indicator) with
    | Some str_value => mret (Expected (Some str_value))
    | None => undefined
    end
  else mret (Expected (Some EmptyString)).

(** [w'] is [w] with the native calls [added] made, and nothing else
    touched but the driver. *)
Definition only_calls (w w' : World D) (added : list Call) : Prop :=
  calls w' = calls w ++ added /\ objects w' = objects w
  /\ pool w' = pool w /\ cerr w' = cerr w.

(** The return code and the indicator that [final_read] ends with. *)
Definition final_code_and_indicator (hstmt column_index : Z) (w : World D)
    : option (Z * Z) :=
  match (final_read hstmt column_index w).1 with
  | Ret (ret, _, indicator) => Some (ret, indicator)
  | _ => None
  end.

(** The three handle classes, by name. *)
Inductive HandleClass : Type := Environment | Connection | Statement.

#[global] Instance HandleClass_eq_dec : EqDecision HandleClass.
Proof. solve_decision. Defined.

Definition handle_type (k : HandleClass) : Z :=
  match k with
  | Environment => SQL_HANDLE_ENV
  | Connection => SQL_HANDLE_DBC
  | Statement => SQL_HANDLE_STMT
  end.

(** The constructor that allocates: [Environment()] takes no argument,
    [Connection(env)] and [Statement(conn)] take the parent object. *)
Definition construct (k : HandleClass) (parent : nat) : M nat :=
  match k with
  | Environment => Environment_ctor
  | Connection => Connection_ctor parent
  | Statement => Statement_ctor parent
  end.

Definition destroy (k : HandleClass) (this : nat) : M unit :=
  match k with
  | Environment => Environment_dtor this
  | Connection => Connection_dtor this
  | Statement => Statement_dtor this
  end.

Definition move_construct (k : HandleClass) (other : nat) : M nat :=
  match k with
  | Environment => Environment_move_ctor other
  | Connection => Connection_move_ctor other
  | Statement => Statement_move_ctor other
  end.

Definition move_assign (k : HandleClass) (this other : nat) : M nat :=
  match k with
  | Environment => Environment_move_assign this other
  | Connection => Connection_move_assign this other
  | Statement => Statement_move_assign this other
  end.

(** The constructors and assignment operators that the class bodies of
    [Environment], [Connection] and [Statement] mention or that a caller
    could ask for: [T()], [explicit T(const Parent&)], [T(const T&)],
    [T& operator=(const T&)], [T(T&&)] and [T& operator=(T&&)]. *)
Inductive SpecialMember : Type :=
  | default_constructor
  | constructor_from_parent
  | copy_constructor
  | copy_assignment
  | move_constructor
  | move_assignment.

(** What the class [k] provides for a member: [None] when a call of it does
    not compile (the copy operations are [= delete]; [Environment] declares
    no constructor from a parent; [Connection] and [Statement] declare
    constructors, so that they have no default constructor), otherwise its
    body, given the object it is called on (unused by a constructor) and
    its argument object (unused by [Environment()]). *)
Definition declared (k : HandleClass) (m : SpecialMember)
    : option (nat -> nat -> M nat) :=
  match m, k with
  | default_constructor, Environment => Some (fun _ _ => Environment_ctor)
  | default_constructor, (Connection | Statement) => None
  | constructor_from_parent, Environment => None
  | constructor_from_parent, Connection =>
      Some (fun _ env => Connection_ctor env)
  | constructor_from_parent, Statement =>
      Some (fun _ conn => Statement_ctor conn)
  | copy_constructor, _ => None
  | copy_assignment, _ => None
  | move_constructor, Environment =>
      Some (fun _ other => Environment_move_ctor other)
  | move_constructor, Connection =>
      Some (fun _ other => Connection_move_ctor other)
  | move_constructor, Statement =>
      Some (fun _ other => Statement_move_ctor other)
  | move_assignment, Environment =>
      Some (fun this other => Environment_move_assign this other)
  | move_assignment, Connection =>
      Some (fun this other => Connection_move_assign this other)
  | move_assignment, Statement =>
      Some (fun this other => Statement_move_assign this other)
  end.

(** The fallible operations, by name. *)
Inductive Operation : Type :=
  | OpConnect (connection_string : string)
  | OpDisconnect
  | OpExecute (query : string)
  | OpFetch
  | OpRowCount
  | OpGetData (T : ColumnType) (column_index : Z).

(** The C data type tag and the size [get_data<T>] passes to [SQLGetData]. *)
Definition target_type (T : ColumnType) : Z :=
  match T with
  | T_string => SQL_C_CHAR
  | T_long => SQL_C_SLONG
  | T_double => SQL_C_DOUBLE
  end.

Definition target_size (T : ColumnType) : nat :=
  match T with
  | T_string => 1024
  | T_long => sizeof_long
  | T_double => sizeof_double
  end.

(** The generic record each operation substitutes when the driver has no
    diagnostic record for its failure. *)
Definition generic_error (op : Operation) : OdbcError :=
  mkOdbcError "HY000" 0
    match op with
    | OpConnect _ => "Unknown connection error via DriverConnect"
    | OpDisconnect => "Unknown disconnection error"
    | OpExecute _ => "Unknown execution error"
    | OpFetch => "Unknown fetch error"
    | OpRowCount => "Unknown error getting row count"
    | OpGetData T_string _ => "Unknown GetData<string> error"
    | OpGetData T_long _ => "Unknown GetData<long> error"
    | OpGetData T_double _ => "Unknown GetData<double> error"
    end.

(** The kind of handle whose diagnostics the operation asks for. *)
Definition handle_type_of (op : Operation) : Z :=
  match op with
  | OpConnect _ | OpDisconnect => SQL_HANDLE_DBC
  | _ => SQL_HANDLE_STMT
  end.

Definition forget {T : Type} (r : expected T OdbcError)
    : expected unit OdbcError :=
  match r with
  | Expected _ => Expected tt
  | Unexpected e => Unexpected e
  end.

(** The operation [op] on the object [this], its success value dropped. *)
Definition perform (op : Operation) (this : nat)
    : M (expected unit OdbcError) :=
  match op with
  | OpConnect connection_string =>
      r ← driver_connect this connection_string; mret (forget r)
  | OpDisconnect => r ← disconnect this; mret (forget r)
  | OpExecute query => r ← execute_direct this query; mret (forget r)
  | OpFetch => r ← fetch this; mret (forget r)
  | OpRowCount => r ← row_count this; mret (forget r)
  | OpGetData T column_index =>
      r ← get_data T this column_index; mret (forget r)
  end.

(** The native call (for text, the one or two calls) that [op] makes on the
    handle [h], and whether the operation treats what the driver reported as
    its failure: any code that is not a success code, except no-more-data
    for [fetch] and except a NULL indicator for text. *)
Definition attempt (op : Operation) (h : Z) : M bool :=
  match op with
  | OpConnect connection_string =>
      ret ← SQLDriverConnect h
              (list_ascii_of_string connection_string ++ [NUL]) SQL_NTS
              SQL_DRIVER_NOPROMPT;
      mret (negb (SQL_SUCCEEDED ret))
  | OpDisconnect =>
      _ ← log LogExplicitDisconnect;
      ret ← SQLDisconnect h;
      mret (negb (SQL_SUCCEEDED ret))
  | OpExecute query =>
      ret ← SQLExecDirect h (list_ascii_of_string query)
              (Z.of_nat (length (list_ascii_of_string query)));
      mret (negb (SQL_SUCCEEDED ret))
  | OpFetch =>
      ret ← SQLFetch h;
      mret (negb (SQL_SUCCEEDED ret) && negb (ret =? SQL_NO_DATA))
  | OpRowCount =>
      r ← SQLRowCount h;
      mret (negb (SQL_SUCCEEDED r.1))
  | OpGetData T_string column_index =>
      '(ret, _, indicator) ← final_read h column_index;
      mret (negb (SQL_SUCCEEDED ret) && negb (indicator =? SQL_NULL_DATA))
  | OpGetData T column_index =>
      out ← SQLGetData h column_index (target_type T)
              (Z.of_nat (target_size T));
      mret (negb (SQL_SUCCEEDED (data_ret out)))
  end.

End Wrapper.

(** The message of the setup failure raised when allocation fails. *)
Definition allocation_failure (k : HandleClass) : Exn :=
  OdbcSetupError
    match k with
    | Environment => "ODBC: Failed to allocate environment handle."
    | Connection => "ODBC: Failed to allocate connection handle."
    | Statement => "ODBC: Failed to allocate statement handle."
    end.

(** The native calls that release the resource [h] of an object of class
    [k]; none for the empty handle. *)
Definition release_calls (k : HandleClass) (h : Z) : list Call :=
  if h =? nullptr then []
  else
    match k with
    | Connection => [CallDisconnect h; CallFreeHandle SQL_HANDLE_DBC h]
    | _ => [CallFreeHandle (handle_type k) h]
    end.

(** The lines a destructor writes when it releases [h]. *)
Definition release_log (k : HandleClass) (h : Z) : list LogLine :=
  if h =? nullptr then []
  else
    match k with
    | Connection => [LogClosingViaDestructor]
    | _ => []
    end.

(** How many times the trace frees the native handle [h]. *)
Definition frees (h : Z) (trace : list Call) : nat :=
  length
    (List.filter
       (fun c => match c with
                 | CallFreeHandle _ h' => h' =? h
                 | _ => false
                 end)
       trace).

(** The number of [SQLGetData] calls in a trace. *)
Definition is_get_data (c : Call) : bool :=
  match c with
  | CallGetData _ _ _ _ => true
  | _ => false
  end.

Definition get_data_calls (trace : list Call) : nat :=
  length (List.filter is_get_data trace).

(** How many environment handles the trace asks the driver for. *)
Definition environment_allocations (trace : list Call) : nat :=
  length
    (List.filter
       (fun c => match c with
                 | CallAllocHandle ty _ => ty =? SQL_HANDLE_ENV
                 | _ => false
                 end)
       trace).

(** The pool of a thread is sound when every cached alias denotes a live
    [Connection] object and no two aliases denote the same object. *)
Definition pool_sound {D : Type} (w : World D) : Prop :=
  forall p, pool w = Some p ->
    (forall a c, connections_ p !! a = Some c -> is_Some (objects w !! c))
    /\ (forall a b c,
          connections_ p !! a = Some c -> connections_ p !! b = Some c ->
          a = b).

(** The bytes of a value read by [get_data<T>]. *)
Definition object_bytes (T : ColumnType) : carrier T -> list ascii :=
  match T with
  | T_string => list_ascii_of_string
  | T_long => fun v => v
  | T_double => fun v => v
  end.

(** ** The test program ([main.cpp])

    [handle_execute_result] and [setup_database_schema] run on one thread,
    write to [std::cout] and throw [std::runtime_error]: a [Console] is a
    world together with the lines written to [std::cout], and a computation
    of the test program returns, throws an exception of the wrapper or a
    [std::runtime_error], or leaves defined behaviour. *)

Inductive ProgramExn : Type :=
  | wrapper_exception (e : Exn)
  | std_runtime_error (what : string).

Inductive Outcome (A : Type) : Type :=
  | Returns (a : A)
  | Throws (e : ProgramExn)
  | Undefined.
Arguments Returns {A} a.
Arguments Throws {A} e.
Arguments Undefined {A}.

Record Console (D : Type) : Type := mkConsole {
  world : World D;
  cout : list string
}.
Arguments mkConsole {D}.
Arguments world {D}.
Arguments cout {D}.

Definition P (D A : Type) : Type := Console D -> Outcome A * Console D.

Definition ret_P {D A} (a : A) : P D A := fun c => (Returns a, c).

Definition bind_P {D A B} (m : P D A) (k : A -> P D B) : P D B :=
  fun c =>
    match m c with
    | (Returns a, c') => k a c'
    | (Throws e, c') => (Throws e, c')
    | (Undefined, c') => (Undefined, c')
    end.

#[global] Instance P_ret D : MRet (P D) := fun A => @ret_P D A.
#[global] Instance P_bind D : MBind (P D) := fun A B k m => @bind_P D A B m k.

(** A computation of the wrapper, run by the test program. *)
Definition run {D A} (m : M D A) : P D A :=
  fun c =>
    match m (world c) with
    | (Ret a, w) => (Returns a, mkConsole w (cout c))
    | (Throw e, w) => (Throws (wrapper_exception e), mkConsole w (cout c))
    | (Undef, w) => (Undefined, mkConsole w (cout c))
    end.

(** [std::cout << line << std::endl] *)
Definition print {D} (line : string) : P D unit :=
  fun c => (Returns tt, mkConsole (world c) (cout c ++ [line])).

(** [throw std::runtime_error(what)] *)
Definition throw_runtime_error {D A} (what : string) : P D A :=
  fun c => (Throws (std_runtime_error what), c).

(** Scope exit in the test program: the destructors of the locals run
    whether the body returns or throws. *)
Definition scope {D A} (body : P D A) (cleanup : M D unit) : P D A :=
  fun c =>
    match body c with
    | (Returns a, c1) =>
        match run cleanup c1 with
        | (Returns _, c2) => (Returns a, c2)
        | (Throws e, c2) => (Throws e, c2)
        | (Undefined, c2) => (Undefined, c2)
        end
    | (Throws e, c1) =>
        match run cleanup c1 with
        | (Returns _, c2) => (Throws e, c2)
        | (_, c2) => (Undefined, c2)
        end
    | (Undefined, c1) => (Undefined, c1)
    end.

Section TestProgram.

Context {D : Type} `{!Driver D}.

(** The connection string; [main.cpp] picks one of two literals by the
    platform it is compiled for. *)
Variable CONNECTION_STRING : string.

(** [handle_execute_result] *)
Definition handle_execute_result (stmt : nat)
    (result : expected unit OdbcError) (command : string) : P D bool :=
  match result with
  | Expected _ => mret true
  | Unexpected error =>
      count_res ← run (row_count stmt);
      if match count_res with
         | Expected count => count =? -1
         | Unexpected _ => false
         end
      then
        _ ← print ("[ INFO     ] Command '" +:+ command
                   +:+ "' returned a non-success code, but row count is -1. Assuming success for this driver.");
        mret true
      else
        throw_runtime_error
          ("Setup failed on command '" +:+ command +:+ "': "
           +:+ to_string error)
  end.

(** [setup_database_schema] *)
Definition setup_database_schema : P D unit :=
  _ ← print "--- Test Setup ---";
  env ← run Environment_ctor;
  scope
    (conn ← run (Connection_ctor env);
     scope
       (connect_res ← run (driver_connect conn CONNECTION_STRING);
        match connect_res with
        | Unexpected error =>
            throw_runtime_error
              ("Setup failed to connect: " +:+ to_string error)
        | Expected _ =>
            stmt ← run (Statement_ctor conn);
            scope
              (result ← run (execute_direct stmt
                               "DROP TABLE IF EXISTS test_table");
               _ ← handle_execute_result stmt result "DROP TABLE";
               result ← run (execute_direct stmt
                               "CREATE TABLE test_table (id INT, name VARCHAR(100), value REAL)");
               _ ← handle_execute_result stmt result "CREATE TABLE";
               result ← run (execute_direct stmt
                               "INSERT INTO test_table VALUES (1, 'First', 10.5), (2, NULL, 20.25)");
               _ ← handle_execute_result stmt result "INSERT";
               print "--- Setup Complete ---")
              (Statement_dtor stmt)
        end)
       (Connection_dtor conn))
    (Environment_dtor env).

End TestProgram.

(** The calls [setup_database_schema] makes on the statement [hstmt]
    between its construction and its destruction. *)
Definition on_statement (hstmt : Z) (c : Call) : Prop :=
  match c with
  | CallExecDirect h _ _ => h = hstmt
  | CallRowCount h => h = hstmt
  | CallGetDiagRec ty h _ _ => ty = SQL_HANDLE_STMT /\ h = hstmt
  | _ => False
  end.

(** What the commands of [setup_database_schema] may do between two
    consoles: native calls on the statement and lines on [std::cout], and
    nothing else. *)
Definition statement_work {D : Type} (hstmt : Z) (c c' : Console D) : Prop :=
  objects (world c') = objects (world c)
  /\ pool (world c') = pool (world c)
  /\ cerr (world c') = cerr (world c)
  /\ exists added lines,
       calls (world c') = calls (world c) ++ added
       /\ Forall (on_statement hstmt) added
       /\ cout c' = cout c ++ lines.

(** ** A scripted driver

    A concrete driver for running the wrapper: its state is the list of
    answers it has yet to give, one per native call, whichever function is
    called; when the script is used up every call reports [SQL_ERROR] and
    writes nothing. *)

Module Scripted.

Record Answer : Type := mkAnswer {
  ans_ret : Z;
  ans_out : option Z;
  ans_bytes : list ascii;
  ans_state : list ascii;
  ans_native : option Z
}.

Definition code (ret : Z) : Answer := mkAnswer ret None [] [] None.
Definition code_out (ret out : Z) : Answer :=
  mkAnswer ret (Some out) [] [] None.
Definition data (ret : Z) (bytes : string) (indicator : Z) : Answer :=
  mkAnswer ret (Some indicator) (list_ascii_of_string bytes) [] None.
Definition diag (ret : Z) (state : string) (native : Z) (text : string)
    : Answer :=
  mkAnswer ret (Some (Z.of_nat (String.length text)))
           (list_ascii_of_string text)
           (list_ascii_of_string state ++ [NUL]) (Some native).

Definition next (script : list Answer) : Answer * list Answer :=
  match script with
  | [] => (code SQL_ERROR, [])
  | a :: rest => (a, rest)
  end.

Definition answer {R : Type} (f : Answer -> R) (script : list Answer)
    : R * list Answer :=
  let '(a, rest) := next script in (f a, rest).

#[global] Instance scripted : Driver (list Answer) := {|
  drv_AllocHandle _ _ := answer (fun a => (ans_ret a, ans_out a));
  drv_SetEnvAttr _ _ _ _ := answer ans_ret;
  drv_FreeHandle _ _ := answer ans_ret;
  drv_DriverConnect _ _ _ _ := answer ans_ret;
  drv_Disconnect _ := answer ans_ret;
  drv_ExecDirect _ _ _ := answer ans_ret;
  drv_Fetch _ := answer ans_ret;
  drv_RowCount _ := answer (fun a => (ans_ret a, ans_out a));
  drv_GetDiagRec _ _ _ _ :=
    answer (fun a => mkDiagOut (ans_ret a) (ans_state a) (ans_native a)
                               (ans_bytes a) (ans_out a));
  drv_GetData _ _ _ _ :=
    answer (fun a => mkDataOut (ans_ret a) (ans_bytes a) (ans_out a))
|}.

(** A thread that has made no call yet and runs against [script]. *)
Definition fresh (script : list Answer) : World (list Answer) :=
  mkWorld script [] [] ∅ None.

(** A thread holding live handle objects at the addresses [0], [1], ...,
    with the given values of [m_handle]. *)
Definition holding (handles : list Z) (script : list Answer)
    : World (list Answer) :=
  mkWorld script [] [] (map_seq 0 handles) None.

(** A thread whose pool exists and is empty; its [Environment] is the object
    at address [0], with handle [henv]. *)
Definition pooled (henv : Z) (script : list Answer) : World (list Answer) :=
  mkWorld script [] [] (map_seq 0 [henv]) (Some (mkPool 0 ∅)).

End Scripted.


(** * Properties *)

Lemma SQL_SUCCEEDED_spec (rc : Z) :
  SQL_SUCCEEDED rc = true <-> rc = SQL_SUCCESS \/ rc = SQL_SUCCESS_WITH_INFO.
Proof.
  unfold SQL_SUCCEEDED, SQL_SUCCESS, SQL_SUCCESS_WITH_INFO.
  rewrite Z.eqb_eq, <- Z.ldiff_land.
  change 1 with (Z.ones 1) at 1.
  rewrite Z.ldiff_ones_r, Z.shiftr_div_pow2, Z.shiftl_mul_pow2 by lia.
  change (2 ^ 1) with 2.
  split.
  - intros H. assert (Hq : rc / 2 = 0) by lia.
    apply Z.div_small_iff in Hq; lia.
  - intros [-> | ->]; reflexivity.
Qed.

Section Properties.

Context {D : Type} `{!Driver D}.

Implicit Types (w : World D) (this other : nat) (h : Z).

(** *** Running computations *)

Lemma native_eq {R} (c : Call) (f : D -> R * D) w :
  native c f w
  = (Ret (f (driver w)).1,
     mkWorld (f (driver w)).2 (calls w ++ [c]) (cerr w) (objects w) (pool w)).
Proof. unfold native. by destruct (f (driver w)). Qed.

Lemma bind_eq {A B} (m : M D A) (k : A -> M D B) w :
  (m ≫= k) w
  = match m w with
    | (Ret a, w') => k a w'
    | (Throw e, w') => (Throw e, w')
    | (Undef, w') => (Undef, w')
    end.
Proof. reflexivity. Qed.

Lemma bind_Ret {A B} (m : M D A) (k : A -> M D B) w a w' :
  m w = (Ret a, w') -> (m ≫= k) w = k a w'.
Proof. intros E. by rewrite bind_eq, E. Qed.

Lemma get_handle_live this h w :
  objects w !! this = Some h -> get_handle this w = (Ret h, w).
Proof. intros E. unfold get_handle. by rewrite E. Qed.

Lemma get_string_data_split hstmt column_index w :
  get_string_data hstmt column_index w
  = (final_read hstmt column_index ≫= conclude hstmt) w.
Proof.
  unfold get_string_data, final_read, conclude.
  rewrite !bind_eq.
  by destruct (SQLGetData _ _ _ _ w) as [[out| |] w1].
Qed.

(** The error branch never yields a success value. *)
Lemma unexpected_from_not_expected {T} h ty fallback w (v : T) :
  (unexpected_from (T := T) h ty fallback w).1 <> Ret (Expected v).
Proof.
  unfold unexpected_from. rewrite bind_eq.
  by destruct (get_diagnostic_record h ty w) as [[r| |] w1].
Qed.

Lemma native_only_calls {R} (c : Call) (f : D -> R * D) w r w1 :
  native c f w = (r, w1) -> only_calls w w1 [c].
Proof. rewrite native_eq. by intros [= <- <-]. Qed.

Lemma get_diagnostic_record_only_calls h ty w r w1 :
  get_diagnostic_record h ty w = (r, w1) ->
  only_calls w w1 [CallGetDiagRec ty h 1 SQL_MAX_MESSAGE_LENGTH].
Proof.
  unfold get_diagnostic_record. rewrite bind_eq.
  destruct (SQLGetDiagRec _ _ _ _ w) as [[out| |] w0] eqn:E;
    unfold SQLGetDiagRec in E; rewrite native_eq in E; simplify_eq.
  repeat case_match; intros [= <- <-]; done.
Qed.

Lemma unexpected_from_only_calls {T} h ty fallback w r w1 :
  unexpected_from (T := T) h ty fallback w = (r, w1) ->
  only_calls w w1 [CallGetDiagRec ty h 1 SQL_MAX_MESSAGE_LENGTH].
Proof.
  unfold unexpected_from. rewrite bind_eq.
  destruct (get_diagnostic_record h ty w) as [[rec| |] w0] eqn:E;
    apply get_diagnostic_record_only_calls in E.
  all: by intros [= <- <-].
Qed.

(** No record: the generic one is returned. *)
Lemma unexpected_from_no_record {T} h ty fallback w out w1 :
  SQLGetDiagRec ty h 1 SQL_MAX_MESSAGE_LENGTH w = (Ret out, w1) ->
  SQL_SUCCEEDED (diag_ret out) = false ->
  unexpected_from (T := T) h ty fallback w = (Ret (Unexpected fallback), w1).
Proof.
  intros Hcall Hfail. unfold unexpected_from, get_diagnostic_record.
  rewrite !bind_eq. change (Z.of_nat _) with SQL_MAX_MESSAGE_LENGTH.
  by rewrite Hcall, Hfail.
Qed.

(** *** [Statement::fetch] *)

Lemma native_objects {R} (c : Call) (f : D -> R * D) w r w1 :
  native c f w = (r, w1) ->
  objects w1 = objects w /\ pool w1 = pool w /\ cerr w1 = cerr w
  /\ calls w1 = calls w ++ [c].
Proof. rewrite native_eq. by intros [= <- <-]. Qed.

Lemma fetch_run this h w ret w1 :
  objects w !! this = Some h ->
  SQLFetch h w = (Ret ret, w1) ->
  fetch this w
  = if SQL_SUCCEEDED ret then (Ret (Expected true), w1)
    else if ret =? SQL_NO_DATA then (Ret (Expected false), w1)
    else unexpected_from h SQL_HANDLE_STMT
           (mkOdbcError "HY000" 0 "Unknown fetch error") w1.
Proof.
  intros Hlive Hcall. unfold fetch.
  rewrite (bind_Ret _ _ _ _ _ (get_handle_live _ _ _ Hlive)).
  rewrite (bind_Ret _ _ _ _ _ Hcall).
  by repeat case_match.
Qed.

(** C5 (as amended): [fetch] returns [true] exactly when the driver's
    [SQLFetch] reports success or success-with-info, [false] exactly when it
    reports no-more-data, and otherwise takes the error branch (never a
    success value); it makes that one native call and keeps no state of
    its own, so after a [false] the next [fetch] asks the driver again and
    returns [false] exactly when the driver again reports no-more-data. *)
Theorem fetch_follows_driver this h w ret w1 :
  objects w !! this = Some h ->
  SQLFetch h w = (Ret ret, w1) ->
  ((fetch this w).1 = Ret (Expected true)
     <-> ret = SQL_SUCCESS \/ ret = SQL_SUCCESS_WITH_INFO)
  /\ ((fetch this w).1 = Ret (Expected false) <-> ret = SQL_NO_DATA)
  /\ (ret = SQL_SUCCESS \/ ret = SQL_SUCCESS_WITH_INFO \/ ret = SQL_NO_DATA ->
      (fetch this w).2 = w1)
  /\ (ret <> SQL_SUCCESS -> ret <> SQL_SUCCESS_WITH_INFO ->
      ret <> SQL_NO_DATA ->
      fetch this w
      = unexpected_from h SQL_HANDLE_STMT
          (mkOdbcError "HY000" 0 "Unknown fetch error") w1
      /\ forall b, (fetch this w).1 <> Ret (Expected b))
  /\ (forall w', fetch this w = (Ret (Expected false), w') ->
      w' = w1
      /\ objects w' !! this = Some h
      /\ forall ret' w2, SQLFetch h w' = (Ret ret', w2) ->
         ((fetch this w').1 = Ret (Expected false) <-> ret' = SQL_NO_DATA)).
Proof.
  intros Hlive Hcall.
  assert (Hfalse : forall w0 r0 w0',
            objects w0 !! this = Some h -> SQLFetch h w0 = (Ret r0, w0') ->
            ((fetch this w0).1 = Ret (Expected false) <-> r0 = SQL_NO_DATA)).
  { intros w0 r0 w0' Hl Hc. rewrite (fetch_run _ _ _ _ _ Hl Hc).
    destruct (SQL_SUCCEEDED r0) eqn:Hs.
    - apply SQL_SUCCEEDED_spec in Hs. simpl. split; [done|].
      unfold SQL_NO_DATA, SQL_SUCCESS, SQL_SUCCESS_WITH_INFO in *. lia.
    - destruct (r0 =? SQL_NO_DATA) eqn:Hn.
      + apply Z.eqb_eq in Hn. by split.
      + apply Z.eqb_neq in Hn. split; [|done].
        intros E. by apply unexpected_from_not_expected in E. }
  pose proof (fetch_run _ _ _ _ _ Hlive Hcall) as Hrun.
  pose proof (SQL_SUCCEEDED_spec ret) as Hspec.
  destruct (native_objects _ _ _ _ _ Hcall) as (Hobj & _).
  split; [|split; [|split; [|split]]].
  - rewrite Hrun. destruct (SQL_SUCCEEDED ret) eqn:Hs.
    + simpl. split; [intros _; by apply Hspec | done].
    + split.
      * destruct (ret =? SQL_NO_DATA); simpl; [done|].
        intros E. by apply unexpected_from_not_expected in E.
      * intros Hor. apply Hspec in Hor. done.
  - by apply (Hfalse w ret w1).
  - intros Hor. rewrite Hrun.
    destruct (SQL_SUCCEEDED ret) eqn:Hs; [done|].
    destruct Hor as [Hr | [Hr | Hr]].
    + assert (false = true) by (apply Hspec; tauto). done.
    + assert (false = true) by (apply Hspec; tauto). done.
    + subst ret. done.
  - intros H0 H1 Hn. rewrite Hrun.
    destruct (SQL_SUCCEEDED ret) eqn:Hs.
    { destruct Hspec as [Hspec _]. destruct (Hspec eq_refl); done. }
    apply Z.eqb_neq in Hn. rewrite Hn.
    split; [done|]. intros b. apply unexpected_from_not_expected.
  - intros w' Hf.
    assert (Hnd : ret = SQL_NO_DATA).
    { apply (Hfalse w ret w1); [done..|]. by rewrite Hf. }
    assert (w' = w1) as ->.
    { rewrite Hrun in Hf. subst ret. simpl in Hf. congruence. }
    split; [done|]. split; [by rewrite Hobj|].
    intros ret' w2 Hc2. apply (Hfalse w1 ret' w2); [by rewrite Hobj | done].
Qed.

(** *** Diagnostics fallback *)

Lemma error_branch {T} (m : M D (expected T OdbcError)) h ty fallback w w1 :
  m w = unexpected_from h ty fallback w1 ->
  (forall v, ((r ← m; mret (forget r)) w).1 <> Ret (Expected v))
  /\ (forall out w2,
        SQLGetDiagRec ty h 1 SQL_MAX_MESSAGE_LENGTH w1 = (Ret out, w2) ->
        SQL_SUCCEEDED (diag_ret out) = false ->
        (r ← m; mret (forget r)) w = (Ret (Unexpected fallback), w2)).
Proof.
  intros Hm. split.
  - intros v. rewrite bind_eq, Hm.
    destruct (unexpected_from h ty fallback w1) as [[[t|e]| |] w2] eqn:E;
      try done.
    exfalso. eapply (unexpected_from_not_expected (T := T)).
    by rewrite E.
  - intros out w2 Hcall Hfail. rewrite bind_eq, Hm.
    by rewrite (unexpected_from_no_record _ _ _ _ _ _ Hcall Hfail).
Qed.

(** C6: for each fallible operation (connect, disconnect, execute, fetch,
    row count, column read as text, long or double), when the driver reports
    what the operation treats as its failure the result is never a success
    value, and when moreover [SQLGetDiagRec] yields no record the result is
    the generic record: state [HY000], native code [0] and the message that
    names the operation. *)
Theorem failure_without_record_is_generic op this h w w1 :
  objects w !! this = Some h ->
  attempt op h w = (Ret true, w1) ->
  (forall v, (perform op this w).1 <> Ret (Expected v))
  /\ (forall out w2,
        SQLGetDiagRec (handle_type_of op) h 1 SQL_MAX_MESSAGE_LENGTH w1
        = (Ret out, w2) ->
        SQL_SUCCEEDED (diag_ret out) = false ->
        perform op this w = (Ret (Unexpected (generic_error op)), w2)
        /\ sql_state (generic_error op) = "HY000"
        /\ native_error (generic_error op) = 0).
Proof.
  intros Hlive Hatt.
  assert (Hgen : sql_state (generic_error op) = "HY000"
                 /\ native_error (generic_error op) = 0) by done.
  enough (Hrun : exists T (m : M D (expected T OdbcError)),
             perform op this = (r ← m; mret (forget r))
             /\ m w = unexpected_from h (handle_type_of op)
                        (generic_error op) w1).
  { destruct Hrun as (T & m & -> & Hm).
    destruct (error_branch m _ _ _ _ _ Hm) as [Hne Hrec].
    split; [done|]. intros out w2 Hc Hf. split; [by eapply Hrec | done]. }
  clear Hgen.
  destruct op as [cs| |q| | |[| |] col];
    cbv beta iota delta [perform attempt handle_type_of] in Hatt |- *.
  - exists unit, (driver_connect this cs). split; [done|].
    unfold driver_connect.
    rewrite (bind_Ret _ _ _ _ _ (get_handle_live _ _ _ Hlive)).
    rewrite bind_eq in Hatt. rewrite bind_eq.
    destruct (SQLDriverConnect _ _ _ _ w) as [[ret| |] w0]; simplify_eq.
    injection Hatt as Hret ->. by rewrite Hret.
  - exists unit, (disconnect this). split; [done|].
    unfold disconnect.
    rewrite (bind_Ret _ _ _ _ _ (get_handle_live _ _ _ Hlive)).
    rewrite bind_eq in Hatt. rewrite bind_eq.
    destruct (log _ w) as [[[]| |] w0]; simplify_eq.
    rewrite bind_eq in Hatt. rewrite bind_eq.
    destruct (SQLDisconnect _ w0) as [[ret| |] w0']; simplify_eq.
    injection Hatt as Hret ->. by rewrite Hret.
  - exists unit, (execute_direct this q). split; [done|].
    unfold execute_direct.
    rewrite (bind_Ret _ _ _ _ _ (get_handle_live _ _ _ Hlive)).
    rewrite bind_eq in Hatt. rewrite bind_eq.
    destruct (SQLExecDirect _ _ _ w) as [[ret| |] w0]; simplify_eq.
    injection Hatt as Hret ->. by rewrite Hret.
  - exists bool, (fetch this). split; [done|].
    unfold fetch.
    rewrite (bind_Ret _ _ _ _ _ (get_handle_live _ _ _ Hlive)).
    rewrite bind_eq in Hatt. rewrite bind_eq.
    destruct (SQLFetch _ w) as [[ret| |] w0]; simplify_eq.
    injection Hatt as Hret ->.
    apply andb_true_iff in Hret as [Hs Hn].
    apply negb_true_iff in Hs, Hn. by rewrite Hs, Hn.
  - exists Z, (row_count this). split; [done|].
    unfold row_count.
    rewrite (bind_Ret _ _ _ _ _ (get_handle_live _ _ _ Hlive)).
    rewrite bind_eq in Hatt. rewrite bind_eq.
    destruct (SQLRowCount _ w) as [[[ret out]| |] w0]; simplify_eq.
    injection Hatt as Hret ->. simpl in Hret. by rewrite Hret.
  - exists (option string), (get_data T_string this col). split; [done|].
    unfold get_data.
    rewrite (bind_Ret _ _ _ _ _ (get_handle_live _ _ _ Hlive)).
    rewrite get_string_data_split.
    rewrite bind_eq in Hatt. rewrite bind_eq.
    destruct (final_read _ _ w) as [[[[ret buffer] ind]| |] w0]; simplify_eq.
    injection Hatt as Hret ->.
    apply andb_true_iff in Hret as [Hs Hn].
    apply negb_true_iff in Hn. unfold conclude. by rewrite Hs, Hn.
  - exists (option (list ascii)), (get_data T_long this col). split; [done|].
    unfold get_data.
    rewrite (bind_Ret _ _ _ _ _ (get_handle_live _ _ _ Hlive)).
    rewrite bind_eq in Hatt. rewrite bind_eq.
    destruct (SQLGetData _ _ _ _ w) as [[out| |] w0]; simplify_eq.
    injection Hatt as Hret ->. by rewrite Hret.
  - exists (option (list ascii)), (get_data T_double this col). split; [done|].
    unfold get_data.
    rewrite (bind_Ret _ _ _ _ _ (get_handle_live _ _ _ Hlive)).
    rewrite bind_eq in Hatt. rewrite bind_eq.
    destruct (SQLGetData _ _ _ _ w) as [[out| |] w0]; simplify_eq.
    injection Hatt as Hret ->. by rewrite Hret.
Qed.

(** *** Buffers and indicators *)

Lemma length_vector_of_size n : length (vector_of_size n) = n.
Proof. apply length_replicate. Qed.

Lemma length_store_bytes buffer written :
  length (store_bytes buffer written) = length buffer.
Proof.
  unfold store_bytes.
  rewrite length_take, length_app, length_drop. lia.
Qed.

Lemma length_resized n v : length (resized n v) = n.
Proof.
  unfold resized.
  rewrite length_app, length_take, length_replicate. lia.
Qed.

Lemma vector_resize_fits n v :
  Z.of_nat n <= vector_max_size -> vector_resize n v = Some (resized n v).
Proof.
  intros Hn. unfold vector_resize.
  by destruct (Z.of_nat n <=? vector_max_size) eqn:E; [|lia].
Qed.

Lemma vector_resize_beyond n v :
  vector_max_size < Z.of_nat n -> vector_resize n v = None.
Proof.
  intros Hn. unfold vector_resize.
  by destruct (Z.of_nat n <=? vector_max_size) eqn:E; [lia|].
Qed.

Lemma signed_range bits z :
  0 < bits -> - 2 ^ (bits - 1) <= signed bits z < 2 ^ (bits - 1).
Proof.
  intros Hb. unfold signed.
  assert (H2 : 2 ^ bits = 2 * 2 ^ (bits - 1)).
  { rewrite <- Z.pow_succ_r by lia. f_equal. lia. }
  assert (0 < 2 ^ (bits - 1)) by (apply Z.pow_pos_nonneg; lia).
  pose proof (Z.mod_pos_bound (z + 2 ^ (bits - 1)) (2 ^ bits)). lia.
Qed.

Lemma store_SQLLEN_range old written :
  - 2 ^ 63 <= old < 2 ^ 63 ->
  - 2 ^ 63 <= store_SQLLEN old written < 2 ^ 63.
Proof.
  intros Hold. unfold store_SQLLEN.
  destruct written as [z|]; simpl; [|done].
  apply (signed_range 64 z). lia.
Qed.

Lemma to_size_t_nonneg n : 0 <= n < 2 ^ 63 -> to_size_t n = n.
Proof. intros Hn. unfold to_size_t. apply Z.mod_small. lia. Qed.

Lemma length_string_of_list_ascii (l : list ascii) :
  String.length (string_of_list_ascii l) = length l.
Proof. induction l as [|c l IH]; simpl; [done | by rewrite IH]. Qed.

Lemma bytes_at_within buffer count :
  0 <= count <= Z.of_nat (length buffer) ->
  bytes_at buffer count
  = Some (string_of_list_ascii (take (Z.to_nat count) buffer))
  /\ Z.of_nat (String.length
                 (string_of_list_ascii (take (Z.to_nat count) buffer)))
     = count.
Proof.
  intros Hc. unfold bytes_at.
  destruct (count <=? Z.of_nat (length buffer)) eqn:E; [|lia].
  split; [done|]. rewrite length_string_of_list_ascii, length_take. lia.
Qed.

Lemma bytes_at_beyond buffer count :
  Z.of_nat (length buffer) < count -> bytes_at buffer count = None.
Proof.
  intros Hc. unfold bytes_at.
  destruct (count <=? Z.of_nat (length buffer)) eqn:E; [lia | done].
Qed.

(** *** The reads of [get_string_data] *)

(** What [final_read] does, given the driver's answer to the first read. *)
Lemma final_read_run h col w out1 w1 :
  SQLGetData h col SQL_C_CHAR 1024 w = (Ret out1, w1) ->
  let indicator1 := store_SQLLEN 0 (data_indicator out1) in
  let buffer1 := store_bytes (vector_of_size 1024) (data_target out1) in
  final_read h col w
  = if (data_ret out1 =? SQL_SUCCESS_WITH_INFO) && (indicator1 >? 1023)
    then
      if indicator1 + 1 <=? vector_max_size then
        let buffer2 := resized (Z.to_nat (indicator1 + 1)) buffer1 in
        (out2 ← SQLGetData h col SQL_C_CHAR (indicator1 + 1);
         mret (data_ret out2, store_bytes buffer2 (data_target out2),
               store_SQLLEN indicator1 (data_indicator out2))) w1
      else (Throw std_length_error, w1)
    else (Ret (data_ret out1, buffer1, indicator1), w1).
Proof.
  intros Hcall ind1 buf1. unfold final_read.
  rewrite length_vector_of_size. change (Z.of_nat 1024) with 1024.
  rewrite (bind_Ret _ _ _ _ _ Hcall).
  fold ind1 buf1. unfold buf1 at 1. 
  rewrite length_store_bytes, length_vector_of_size.
  change (Z.of_nat 1024 - 1) with 1023.
  destruct (_ && _) eqn:Hretry; [|done].
  apply andb_true_iff in Hretry as [_ Hgt].
  pose proof (store_SQLLEN_range 0 (data_indicator out1)) as Hr.
  fold ind1 in Hr.
  rewrite to_size_t_nonneg by lia.
  destruct (ind1 + 1 <=? vector_max_size) eqn:Hfits.
  - rewrite vector_resize_fits by lia.
    rewrite length_resized, Z2Nat.id by lia. done.
  - by rewrite vector_resize_beyond by lia.
Qed.

Lemma final_read_indicator_range h col w ret buffer indicator w1 :
  final_read h col w = (Ret (ret, buffer, indicator), w1) ->
  - 2 ^ 63 <= indicator < 2 ^ 63.
Proof.
  destruct (SQLGetData h col SQL_C_CHAR 1024 w) as [[out1| |] w0] eqn:Hcall;
    unfold SQLGetData in Hcall; rewrite native_eq in Hcall; simplify_eq.
  rewrite (final_read_run h col w _ _ (native_eq _ _ _)).
  pose proof (store_SQLLEN_range 0
                (data_indicator (drv_GetData h col SQL_C_CHAR 1024 (driver w)).1))
    as Hr1.
  destruct (_ && _).
  - destruct (_ <=? vector_max_size); [|done].
    cbv zeta. rewrite bind_eq. unfold SQLGetData. rewrite native_eq.
    intros [= _ _ <- _]. apply store_SQLLEN_range. lia.
  - intros [= _ _ <- _]. lia.
Qed.

Lemma get_data_string_run this h col w read w1 :
  objects w !! this = Some h ->
  final_read h col w = (Ret read, w1) ->
  get_data T_string this col w = conclude h read w1.
Proof.
  intros Hlive Hread. unfold get_data.
  rewrite (bind_Ret _ _ _ _ _ (get_handle_live _ _ _ Hlive)).
  rewrite get_string_data_split. by rewrite (bind_Ret _ _ _ _ _ Hread).
Qed.

Lemma conclude_null h ret buffer w1 :
  conclude h (ret, buffer, SQL_NULL_DATA) w1 = (Ret (Expected None), w1).
Proof. unfold conclude. by destruct (SQL_SUCCEEDED ret). Qed.

(** *** Text columns *)

(** C4: when the indicator left by the final (possibly retried) read of a
    text column is the NULL sentinel, the result is "value is NULL" whatever
    return code came with it, success or not. *)
Theorem text_null_whatever_the_code this h col w ret buffer w1 :
  objects w !! this = Some h ->
  final_read h col w = (Ret (ret, buffer, SQL_NULL_DATA), w1) ->
  get_data T_string this col w = (Ret (Expected None), w1).
Proof.
  intros Hlive Hread.
  rewrite (get_data_string_run _ _ _ _ _ _ Hlive Hread).
  apply conclude_null.
Qed.

(** C10 (as amended): after a successful final read whose indicator is not
    the NULL sentinel, a zero or negative indicator gives a present empty
    string, and a positive indicator that does not exceed the size of the
    buffer gives a present string of exactly that many bytes, the first
    bytes of the buffer. *)
Theorem text_value_present this h col w ret buffer indicator w1 :
  objects w !! this = Some h ->
  final_read h col w = (Ret (ret, buffer, indicator), w1) ->
  SQL_SUCCEEDED ret = true ->
  indicator <> SQL_NULL_DATA ->
  (indicator <= 0 ->
   get_data T_string this col w = (Ret (Expected (Some EmptyString)), w1))
  /\ (0 < indicator <= Z.of_nat (length buffer) ->
      get_data T_string this col w
      = (Ret (Expected
                (Some (string_of_list_ascii
                         (take (Z.to_nat indicator) buffer)))), w1)
      /\ Z.of_nat (String.length
                     (string_of_list_ascii
                        (take (Z.to_nat indicator) buffer)))
         = indicator).
Proof.
  intros Hlive Hread Hs Hnn.
  rewrite (get_data_string_run _ _ _ _ _ _ Hlive Hread).
  pose proof (final_read_indicator_range _ _ _ _ _ _ _ Hread) as Hr.
  apply Z.eqb_neq in Hnn. unfold conclude. rewrite Hs, Hnn. simpl.
  split.
  - intros Hle. destruct (indicator >? 0) eqn:E; [lia | done].
  - intros [Hpos Hfit]. destruct (indicator >? 0) eqn:E; [|lia].
    rewrite to_size_t_nonneg by lia.
    destruct (bytes_at_within buffer indicator) as [-> Hlen]; [lia|].
    done.
Qed.

(** A positive indicator above the size of the buffer, after a success code:
    the copy into the result runs past the end of the buffer. *)
Lemma text_count_beyond_buffer this h col w ret buffer indicator w1 :
  objects w !! this = Some h ->
  final_read h col w = (Ret (ret, buffer, indicator), w1) ->
  SQL_SUCCEEDED ret = true ->
  Z.of_nat (length buffer) < indicator ->
  get_data T_string this col w = (Undef, w1).
Proof.
  intros Hlive Hread Hs Hbeyond.
  rewrite (get_data_string_run _ _ _ _ _ _ Hlive Hread).
  pose proof (final_read_indicator_range _ _ _ _ _ _ _ Hread) as Hr.
  unfold conclude. rewrite Hs. simpl.
  assert ((indicator =? SQL_NULL_DATA) = false) as ->
    by (apply Z.eqb_neq; unfold SQL_NULL_DATA; lia).
  assert ((indicator >? 0) = true) as -> by lia.
  rewrite to_size_t_nonneg by lia.
  by rewrite bytes_at_beyond.
Qed.

(** *** Numeric columns *)

(** C9: for [get_data<long>] and [get_data<double>] a return code that is
    not a success code gives the error branch whatever the indicator says,
    the NULL sentinel included; the indicator decides between NULL and a
    value only after a success code.  The text path differs: there the same
    failure code with the NULL indicator gives "value is NULL". *)
Theorem numeric_error_before_null T this h col w out w1 :
  T <> T_string ->
  objects w !! this = Some h ->
  SQLGetData h col (target_type T) (Z.of_nat (target_size T)) w
  = (Ret out, w1) ->
  (SQL_SUCCEEDED (data_ret out) = false ->
   get_data T this col w
   = unexpected_from h SQL_HANDLE_STMT (generic_error (OpGetData T col)) w1
   /\ forall v, (get_data T this col w).1 <> Ret (Expected v))
  /\ (SQL_SUCCEEDED (data_ret out) = true ->
      (get_data T this col w).2 = w1
      /\ ((get_data T this col w).1 = Ret (Expected None)
          <-> store_SQLLEN 0 (data_indicator out) = SQL_NULL_DATA))
  /\ (forall out' w',
        SQLGetData h col SQL_C_CHAR 1024 w = (Ret out', w') ->
        SQL_SUCCEEDED (data_ret out') = false ->
        data_indicator out' = Some SQL_NULL_DATA ->
        get_data T_string this col w = (Ret (Expected None), w')).
Proof.
  intros HT Hlive Hcall.
  assert (Hrun : get_data T this col w
                 = (if negb (SQL_SUCCEEDED (data_ret out)) then
                      unexpected_from h SQL_HANDLE_STMT
                        (generic_error (OpGetData T col))
                    else if store_SQLLEN 0 (data_indicator out)
                            =? SQL_NULL_DATA
                         then mret (Expected None)
                         else
                           match T return
                                 M D (expected (option (carrier T)) OdbcError)
                           with
                           | T_string => mret (Expected (Some EmptyString))
                           | _ =>
                               mret (Expected
                                       (Some (store_bytes
                                                (vector_of_size 8)
                                                (data_target out))))
                           end) w1).
  { destruct T; [done| |]; unfold get_data;
      rewrite (bind_Ret _ _ _ _ _ (get_handle_live _ _ _ Hlive));
      by rewrite (bind_Ret _ _ _ _ _ Hcall). }
  split; [|split].
  - intros Hf. rewrite Hrun, Hf. simpl. split; [done|].
    intros v. apply unexpected_from_not_expected.
  - intros Hs. rewrite Hrun, Hs. simpl.
    destruct (_ =? SQL_NULL_DATA) eqn:E.
    + apply Z.eqb_eq in E. by split.
    + apply Z.eqb_neq in E. destruct T; done.
  - intros out' w' Hcall' Hf Hind.
    assert (Hread : final_read h col w
                    = (Ret (data_ret out',
                            store_bytes (vector_of_size 1024)
                              (data_target out'),
                            SQL_NULL_DATA), w')).
    { rewrite (final_read_run _ _ _ _ _ Hcall'). cbv zeta.
      assert ((data_ret out' =? SQL_SUCCESS_WITH_INFO) = false) as ->.
      { apply Z.eqb_neq. intros E. rewrite E in Hf. done. }
      simpl. rewrite Hind. done. }
    rewrite (get_data_string_run _ _ _ _ _ _ Hlive Hread).
    apply conclude_null.
Qed.

(** *** At most one retry *)

Lemma get_data_calls_app l1 l2 :
  get_data_calls (l1 ++ l2) = (get_data_calls l1 + get_data_calls l2)%nat.
Proof. unfold get_data_calls. by rewrite List.filter_app, length_app. Qed.

Lemma conclude_facts h ret buffer indicator w2 :
  get_data_calls (calls (conclude h (ret, buffer, indicator) w2).2)
  = get_data_calls (calls w2)
  /\ (SQL_SUCCEEDED ret = false -> indicator <> SQL_NULL_DATA ->
      conclude h (ret, buffer, indicator) w2
      = unexpected_from h SQL_HANDLE_STMT
          (mkOdbcError "HY000" 0 "Unknown GetData<string> error") w2)
  /\ (SQL_SUCCEEDED ret = true ->
      (conclude h (ret, buffer, indicator) w2).2 = w2
      /\ forall e,
           (conclude h (ret, buffer, indicator) w2).1 <> Ret (Unexpected e)).
Proof.
  unfold conclude. split; [|split].
  - destruct (SQL_SUCCEEDED ret); simpl.
    + repeat case_match; done.
    + destruct (indicator =? SQL_NULL_DATA); [done|].
      destruct (unexpected_from (T := option string) h SQL_HANDLE_STMT
                  (mkOdbcError "HY000" 0 "Unknown GetData<string> error") w2)
        as [r w3] eqn:E.
      apply unexpected_from_only_calls in E as (Hc & _).
      simpl. rewrite Hc, get_data_calls_app. unfold get_data_calls. simpl. lia.
  - intros Hf Hnn. apply Z.eqb_neq in Hnn. by rewrite Hf, Hnn.
  - intros Hs. rewrite Hs. simpl. repeat case_match; done.
Qed.

(** C2 (as amended): [get_string_data] reads once into a 1024-byte buffer;
    it reads a second time exactly when the first read reports
    success-with-info with an indicator above 1023 and the buffer can be
    resized to that indicator plus one byte, into a buffer of exactly that
    size, and never a third time.  The one indicator whose resize exceeds
    the vector's maximum size, the largest [SQLLEN], makes [resize] throw
    [std::length_error] after the first read: there is no second read.
    After the final read a code that is not a success code, without the
    NULL indicator, is the error branch; a success code, success-with-info
    from the retried read included, is accepted: no diagnostics are fetched
    and the result is not an error. *)
Theorem text_read_retries_once h col w out1 w1 :
  SQLGetData h col SQL_C_CHAR 1024 w = (Ret out1, w1) ->
  let indicator1 := store_SQLLEN 0 (data_indicator out1) in
  let retry :=
    (data_ret out1 =? SQL_SUCCESS_WITH_INFO) && (indicator1 >? 1023) in
  let beyond := retry && negb (indicator1 + 1 <=? vector_max_size) in
  (beyond = true ->
   indicator1 = 2 ^ 63 - 1
   /\ final_read h col w = (Throw std_length_error, w1)
   /\ get_string_data h col w = (Throw std_length_error, w1)
   /\ get_data_calls (calls w1) = (get_data_calls (calls w) + 1)%nat)
  /\ (beyond = false ->
      exists ret buffer indicator w2,
        final_read h col w = (Ret (ret, buffer, indicator), w2)
        /\ get_string_data h col w = conclude h (ret, buffer, indicator) w2
        /\ (retry = false ->
            w2 = w1 /\ ret = data_ret out1 /\ indicator = indicator1
            /\ length buffer = 1024%nat)
        /\ (retry = true ->
            Z.of_nat (length buffer) = indicator1 + 1
            /\ exists out2,
                 SQLGetData h col SQL_C_CHAR (indicator1 + 1) w1
                 = (Ret out2, w2)
                 /\ ret = data_ret out2
                 /\ indicator
                    = store_SQLLEN indicator1 (data_indicator out2))
        /\ get_data_calls (calls (get_string_data h col w).2)
           = (get_data_calls (calls w) + (if retry then 2 else 1))%nat
        /\ (SQL_SUCCEEDED ret = false -> indicator <> SQL_NULL_DATA ->
            get_string_data h col w
            = unexpected_from h SQL_HANDLE_STMT
                (generic_error (OpGetData T_string col)) w2)
        /\ (SQL_SUCCEEDED ret = true ->
            (get_string_data h col w).2 = w2
            /\ forall e,
                 (get_string_data h col w).1 <> Ret (Unexpected e))).
Proof.
  intros Hcall ind1 retry beyond.
  pose proof (final_read_run _ _ _ _ _ Hcall) as Hrun.
  cbv zeta in Hrun. fold ind1 in Hrun. fold retry in Hrun.
  destruct (native_only_calls _ _ _ _ _ Hcall) as (Hcalls1 & _).
  pose proof (store_SQLLEN_range 0 (data_indicator out1)) as Hrange.
  fold ind1 in Hrange.
  assert (Hsplit := get_string_data_split h col w).
  unfold beyond. split.
  - intros Hbeyond. apply andb_true_iff in Hbeyond as [Hretry Hfits].
    apply negb_true_iff in Hfits. rewrite Hretry, Hfits in Hrun.
    apply Z.leb_gt in Hfits. unfold vector_max_size in Hfits.
    split; [lia|]. split; [done|]. split.
    + rewrite Hsplit, bind_eq. by rewrite Hrun.
    + rewrite Hcalls1, get_data_calls_app. unfold get_data_calls. simpl. lia.
  - intros Hwithin. destruct retry eqn:Hretry.
    + simpl in Hwithin. apply negb_false_iff in Hwithin.
      rewrite Hwithin in Hrun. rewrite bind_eq in Hrun.
      destruct (SQLGetData h col SQL_C_CHAR (ind1 + 1) w1)
        as [r2 w2] eqn:Hcall2.
      pose proof Hcall2 as Hcall2'.
      unfold SQLGetData in Hcall2'. rewrite native_eq in Hcall2'.
      injection Hcall2' as Hr2 Hw2.
      destruct (native_only_calls _ _ _ _ _ Hcall2) as (Hcalls2 & _).
      clear Hw2. subst r2. cbv beta iota in Hrun.
      set (out2 := (drv_GetData h col SQL_C_CHAR (ind1 + 1) (driver w1)).1)
        in *.
      eexists _, _, _, w2. split; [exact Hrun|].
      destruct (conclude_facts h (data_ret out2)
                  (store_bytes
                     (resized (Z.to_nat (ind1 + 1))
                        (store_bytes (vector_of_size 1024)
                           (data_target out1)))
                     (data_target out2))
                  (store_SQLLEN ind1 (data_indicator out2)) w2)
        as (Hcount & Hfail & Hok).
      rewrite (bind_Ret _ _ _ _ _ Hrun) in Hsplit.
      split; [done|]. split; [done|]. split.
      { intros _. split.
        - rewrite length_store_bytes, length_resized.
          apply andb_true_iff in Hretry as [_ Hgt]. lia.
        - by exists out2. }
      split.
      { rewrite Hsplit, Hcount, Hcalls2, Hcalls1, !get_data_calls_app.
        unfold get_data_calls. simpl. lia. }
      split; [by rewrite Hsplit | by rewrite Hsplit].
    + eexists _, _, _, w1. split; [exact Hrun|].
      destruct (conclude_facts h (data_ret out1)
                  (store_bytes (vector_of_size 1024) (data_target out1))
                  ind1 w1)
        as (Hcount & Hfail & Hok).
      rewrite (bind_Ret _ _ _ _ _ Hrun) in Hsplit.
      split; [done|]. split.
      { intros _. by rewrite length_store_bytes, length_vector_of_size. }
      split; [done|]. split.
      { rewrite Hsplit, Hcount, Hcalls1, !get_data_calls_app.
        unfold get_data_calls. simpl. lia. }
      split; [by rewrite Hsplit | by rewrite Hsplit].
Qed.

(** *** Handle objects *)

Ltac unfold_handles :=
  cbv beta iota delta
    [construct destroy move_construct move_assign
     Environment_ctor Environment_dtor Environment_move_ctor
     Environment_move_assign Environment_get
     Connection_ctor Connection_dtor Connection_move_ctor
     Connection_move_assign Connection_get
     Statement_ctor Statement_dtor Statement_move_ctor
     Statement_move_assign Statement_get
     exchange_handle SQLAllocHandle SQLSetEnvAttr SQLFreeHandle SQLDisconnect
     mbind M_bind bind_M mret M_ret ret_M throw undefined
     get_handle set_handle new_object delete_object log fresh_address].

Ltac crunch :=
  repeat first
    [ progress simpl
    | rewrite native_eq
    | match goal with
      | H : objects _ !! _ = Some _ |- _ => rewrite H
      | H : (_ =? _) = _ |- _ => rewrite H
      | H : (_ =? _)%nat = _ |- _ => rewrite H
      | H : SQL_SUCCEEDED _ = _ |- _ => rewrite H
      end
    | rewrite lookup_insert_eq
    | rewrite lookup_insert_ne by (done || lia)
    | rewrite lookup_delete_eq
    | rewrite lookup_delete_ne by (done || lia) ].

Lemma move_construct_run k other h w :
  objects w !! other = Some h ->
  move_construct k other w
  = (Ret (fresh_address w),
     mkWorld (driver w) (calls w) (cerr w)
             (<[fresh_address w := h]> (<[other := nullptr]> (objects w)))
             (pool w)).
Proof.
  intros Hlive.
  assert (Hdom : dom (<[other := nullptr]> (objects w)) = dom (objects w))
    by (apply dom_insert_lookup_L; eauto).
  destruct k; unfold_handles; crunch; by rewrite Hdom.
Qed.

Lemma move_assign_self k this w : move_assign k this this w = (Ret this, w).
Proof.
  destruct k; unfold_handles; by rewrite Nat.eqb_refl.
Qed.

Lemma move_assign_run k this other ht ho w :
  this <> other ->
  objects w !! this = Some ht ->
  objects w !! other = Some ho ->
  exists d,
    move_assign k this other w
    = (Ret this,
       mkWorld d (calls w ++ release_calls k ht) (cerr w)
               (<[this := ho]> (<[other := nullptr]> (objects w))) (pool w)).
Proof.
  intros Hne Hthis Hother.
  assert (Hne' : other <> this) by done.
  assert (Heqb : (this =? other)%nat = false) by by apply Nat.eqb_neq.
  unfold release_calls.
  destruct (ht =? nullptr) eqn:Hnull;
    destruct k; unfold_handles; crunch;
    rewrite ?app_nil_r, <- ?app_assoc; eexists; reflexivity.
Qed.

Lemma destroy_run k this h w :
  objects w !! this = Some h ->
  exists d,
    destroy k this w
    = (Ret tt,
       mkWorld d (calls w ++ release_calls k h)
               (cerr w ++ release_log k h)
               (delete this (objects w)) (pool w))
    /\ (h = nullptr -> d = driver w).
Proof.
  intros Hthis. unfold release_calls, release_log.
  destruct (h =? nullptr) eqn:Hnull;
    destruct k; unfold_handles; crunch;
    rewrite ?app_nil_r, <- ?app_assoc; eexists; (split; [reflexivity|]);
    try done.
  all: intros ->; done.
Qed.

Lemma fresh_address_free w : objects w !! fresh_address w = None.
Proof. apply not_elem_of_dom, is_fresh. Qed.

Lemma live_not_fresh a h w : objects w !! a = Some h -> fresh_address w <> a.
Proof. intros Hlive E. by rewrite <- E, fresh_address_free in Hlive. Qed.

(** What the constructors of [Connection] and [Statement] do. *)
Lemma construct_child_run k parent ph w :
  k <> Environment ->
  objects w !! parent = Some ph ->
  let answer := drv_AllocHandle (handle_type k) ph (driver w) in
  let world objs :=
    mkWorld answer.2 (calls w ++ [CallAllocHandle (handle_type k) ph])
            (cerr w) objs (pool w) in
  construct k parent w
  = if SQL_SUCCEEDED answer.1.1
    then (Ret (fresh_address w),
          world (<[fresh_address w := store_out nullptr answer.1.2]>
                   (objects w)))
    else (Throw (allocation_failure k), world (objects w)).
Proof.
  intros Hk Hparent.
  pose proof (live_not_fresh _ _ _ Hparent) as Hne.
  pose proof (fresh_address_free w) as Hfree.
  destruct k; [done| |]; unfold_handles; crunch;
    destruct (drv_AllocHandle _ ph (driver w)) as [[ret out] d1]; crunch;
    (destruct (SQL_SUCCEEDED ret); crunch;
     [by rewrite insert_insert_eq
     | by rewrite insert_insert_eq, delete_insert_id]).
Qed.

(** What the constructor of [Environment] does. *)
Lemma Environment_ctor_run w :
  let answer := drv_AllocHandle SQL_HANDLE_ENV SQL_NULL_HANDLE (driver w) in
  let h := store_out nullptr answer.1.2 in
  let set := drv_SetEnvAttr h SQL_ATTR_ODBC_VERSION SQL_OV_ODBC3 0 answer.2 in
  let allocated := CallAllocHandle SQL_HANDLE_ENV SQL_NULL_HANDLE in
  let version := CallSetEnvAttr h SQL_ATTR_ODBC_VERSION SQL_OV_ODBC3 0 in
  Environment_ctor w
  = if SQL_SUCCEEDED answer.1.1 then
      if SQL_SUCCEEDED set.1
      then (Ret (fresh_address w),
            mkWorld set.2 (calls w ++ [allocated; version]) (cerr w)
                    (<[fresh_address w := h]> (objects w)) (pool w))
      else (Throw (OdbcSetupError
                     "ODBC: Failed to set environment attribute to ODBC 3.0."),
            mkWorld (drv_FreeHandle SQL_HANDLE_ENV h set.2).2
                    (calls w ++ [allocated; version;
                                 CallFreeHandle SQL_HANDLE_ENV h])
                    (cerr w) (objects w) (pool w))
    else (Throw (allocation_failure Environment),
          mkWorld answer.2 (calls w ++ [allocated]) (cerr w) (objects w)
                  (pool w)).
Proof.
  pose proof (fresh_address_free w) as Hfree.
  unfold_handles; crunch.
  destruct (drv_AllocHandle _ _ (driver w)) as [[ret out] d1]; crunch.
  destruct (SQL_SUCCEEDED ret); crunch;
    [|by rewrite insert_insert_eq, delete_insert_id].
  destruct (drv_SetEnvAttr _ _ _ _ d1) as [ret2 d2]; crunch.
  destruct (SQL_SUCCEEDED ret2); crunch; rewrite <- ?app_assoc; simpl.
  - by rewrite insert_insert_eq.
  - by rewrite !insert_insert_eq, delete_insert_id.
Qed.

Lemma frees_release_calls k h h' :
  frees h (release_calls k h')
  = if (h' =? nullptr) || negb (h' =? h) then 0%nat else 1%nat.
Proof.
  unfold frees, release_calls.
  destruct (h' =? nullptr); [done|].
  destruct k; simpl; by destruct (h' =? h).
Qed.

(** C8 (as amended): every handle class is move-only: its copy
    constructor and copy assignment are deleted, and it makes an object from
    another one only by moving, which empties the source.  No class
    default-constructs to the empty state: [Environment()] is the allocating
    constructor, and [Connection] and [Statement] have no default
    constructor but only the one from their parent.  That one constructor
    allocates a native handle: [Environment()] with no parent,
    [Connection(env)] and [Statement(conn)] from the handle of their parent.
    When the allocation fails it raises the setup failure and no object
    comes to exist; when it succeeds the object holds what the driver
    stored as the handle, which is the empty value exactly when the driver
    supplied no handle or a null one ([Environment()] also sets the ODBC
    version, and frees the handle and raises a setup failure when that
    fails). *)
Theorem constructors_allocate k parent ph w :
  (k <> Environment -> objects w !! parent = Some ph) ->
  let input := match k with Environment => SQL_NULL_HANDLE | _ => ph end in
  let allocated := CallAllocHandle (handle_type k) input in
  let answer := drv_AllocHandle (handle_type k) input (driver w) in
  let h := store_out nullptr answer.1.2 in
  (declared k copy_constructor = None
   /\ declared k copy_assignment = None
   /\ declared k move_constructor = Some (fun _ other => move_construct k other)
   /\ declared k move_assignment
      = Some (fun this other => move_assign k this other)
   /\ (k = Environment ->
       declared k default_constructor = Some (fun _ _ => construct k parent)
       /\ declared k constructor_from_parent = None)
   /\ (k <> Environment ->
       declared k default_constructor = None
       /\ declared k constructor_from_parent
          = Some (fun _ parent => construct k parent)))
  /\ (h = nullptr <-> answer.1.2 = None \/ answer.1.2 = Some nullptr)
  /\ (SQL_SUCCEEDED answer.1.1 = false ->
      exists w',
        construct k parent w = (Throw (allocation_failure k), w')
        /\ objects w' = objects w
        /\ calls w' = calls w ++ [allocated])
  /\ (k <> Environment -> SQL_SUCCEEDED answer.1.1 = true ->
      exists w',
        construct k parent w = (Ret (fresh_address w), w')
        /\ objects w' = <[fresh_address w := h]> (objects w)
        /\ calls w' = calls w ++ [allocated])
  /\ (k = Environment -> SQL_SUCCEEDED answer.1.1 = true ->
      let set :=
        drv_SetEnvAttr h SQL_ATTR_ODBC_VERSION SQL_OV_ODBC3 0 answer.2 in
      let version := CallSetEnvAttr h SQL_ATTR_ODBC_VERSION SQL_OV_ODBC3 0 in
      (SQL_SUCCEEDED set.1 = true ->
       exists w',
         construct k parent w = (Ret (fresh_address w), w')
         /\ objects w' = <[fresh_address w := h]> (objects w)
         /\ calls w' = calls w ++ [allocated; version])
      /\ (SQL_SUCCEEDED set.1 = false ->
          exists w',
            construct k parent w
            = (Throw (OdbcSetupError
                        "ODBC: Failed to set environment attribute to ODBC 3.0."),
               w')
            /\ objects w' = objects w
            /\ calls w' = calls w ++ [allocated; version;
                                      CallFreeHandle SQL_HANDLE_ENV h]))
  /\ (forall other ho,
        objects w !! other = Some ho ->
        exists w',
          move_construct k other w = (Ret (fresh_address w), w')
          /\ objects w' !! other = Some nullptr
          /\ objects w' !! fresh_address w = Some ho
          /\ calls w' = calls w).
Proof.
  intros Hparent. cbv zeta.
  assert (Hrun : k <> Environment ->
                 construct k parent w = _)
    by (intros Hk; exact (construct_child_run k parent ph w Hk (Hparent Hk))).
  cbv zeta in Hrun.
  split; [|split; [|split; [|split; [|split]]]].
  - by destruct k.
  - clear Hrun. unfold store_out.
    destruct (drv_AllocHandle _ _ _) as [[ret [supplied|]] d]; simpl.
    + split; [intros ->; by right | by intros [[=] | [= ->]]].
    + split; [by left | done].
  - intros Hfail. destruct k.
    + simpl. rewrite Environment_ctor_run. cbv zeta. simpl in Hfail.
      rewrite Hfail. by eexists.
    + rewrite Hrun, Hfail by done. by eexists.
    + rewrite Hrun, Hfail by done. by eexists.
  - intros Hk Hok. destruct k; [done| |];
      rewrite Hrun, Hok by done; by eexists.
  - intros -> Hok. simpl. rewrite Environment_ctor_run. cbv zeta.
    simpl in Hok. rewrite Hok.
    split; intros Hset; rewrite Hset; by eexists.
  - intros other ho Hother.
    rewrite (move_construct_run k other ho w Hother).
    eexists. split; [done|]. simpl.
    pose proof (live_not_fresh _ _ _ Hother) as Hne.
    split; [|split; [|done]].
    + by rewrite lookup_insert_ne, lookup_insert_eq.
    + by rewrite lookup_insert_eq.
Qed.

(** C7: for each handle class, moving transfers the native handle and
    leaves the source empty, without any native call; move assignment first
    releases what the target held (nothing when it was empty) and then takes
    the source's handle, and is a no-op on self-assignment; destroying an
    empty object makes no native call.  So after a move followed by the
    destruction of both objects every native handle involved has been freed
    exactly once. *)
Theorem move_transfers_ownership k this other ht ho w :
  this <> other ->
  objects w !! this = Some ht ->
  objects w !! other = Some ho ->
  (exists w',
     move_construct k other w = (Ret (fresh_address w), w')
     /\ objects w'
        = <[fresh_address w := ho]> (<[other := nullptr]> (objects w))
     /\ calls w' = calls w /\ cerr w' = cerr w /\ driver w' = driver w)
  /\ (exists w',
        move_assign k this other w = (Ret this, w')
        /\ objects w' = <[this := ho]> (<[other := nullptr]> (objects w))
        /\ calls w' = calls w ++ release_calls k ht /\ cerr w' = cerr w)
  /\ move_assign k this this w = (Ret this, w)
  /\ (ho = nullptr ->
      destroy k other w
      = (Ret tt,
         mkWorld (driver w) (calls w) (cerr w) (delete other (objects w))
                 (pool w)))
  /\ (exists w',
        (_ ← move_assign k this other; _ ← destroy k other; destroy k this) w
        = (Ret tt, w')
        /\ calls w' = calls w ++ release_calls k ht ++ release_calls k ho
        /\ objects w' = delete this (delete other (objects w)))
  /\ (exists w',
        (new ← move_construct k other; _ ← destroy k other; destroy k new) w
        = (Ret tt, w')
        /\ calls w' = calls w ++ release_calls k ho
        /\ objects w' = delete other (objects w))
  /\ (ht <> nullptr -> ho <> nullptr -> ht <> ho ->
      frees ht (release_calls k ht ++ release_calls k ho) = 1%nat
      /\ frees ho (release_calls k ht ++ release_calls k ho) = 1%nat)
  /\ (ho <> nullptr -> frees ho (release_calls k ho) = 1%nat).
Proof.
  intros Hne Hthis Hother.
  assert (Hne' : other <> this) by done.
  pose proof (live_not_fresh _ _ _ Hother) as Hfresh.
  pose proof (fresh_address_free w) as Hfree.
  destruct (move_assign_run k this other ht ho w Hne Hthis Hother)
    as [d1 Hassign].
  split; [|split; [|split; [|split; [|split; [|split; [|split]]]]]].
  - rewrite (move_construct_run k other ho w Hother). by eexists.
  - rewrite Hassign. by eexists.
  - apply move_assign_self.
  - intros ->. destruct (destroy_run k other nullptr w Hother)
      as (d & -> & Hd). rewrite (Hd eq_refl).
    unfold release_calls, release_log. simpl. by rewrite !app_nil_r.
  - rewrite (bind_Ret _ _ _ _ _ Hassign).
    edestruct (destroy_run k other nullptr) as (d2 & Hd2 & _);
      [|rewrite (bind_Ret _ _ _ _ _ Hd2)].
    { simpl. by rewrite lookup_insert_ne, lookup_insert_eq. }
    edestruct (destroy_run k this ho) as (d3 & Hd3 & _);
      [|rewrite Hd3].
    { simpl. by rewrite lookup_delete_ne, lookup_insert_eq. }
    eexists. split; [done|]. simpl. split.
    + unfold release_calls at 2. simpl. by rewrite app_nil_r, app_assoc.
    + by rewrite delete_insert_ne, delete_insert_eq, delete_insert_eq.
  - rewrite (bind_Ret _ _ _ _ _ (move_construct_run k other ho w Hother)).
    edestruct (destroy_run k other nullptr) as (d2 & Hd2 & _);
      [|rewrite (bind_Ret _ _ _ _ _ Hd2)].
    { simpl. by rewrite lookup_insert_ne, lookup_insert_eq. }
    edestruct (destroy_run k (fresh_address w) ho) as (d3 & Hd3 & _);
      [|rewrite Hd3].
    { simpl. by rewrite lookup_delete_ne, lookup_insert_eq. }
    eexists. split; [done|]. simpl. split.
    + unfold release_calls at 1. simpl. by rewrite app_nil_r.
    + rewrite delete_insert_ne, delete_insert_eq, delete_insert_eq by done.
      apply delete_id. by rewrite lookup_delete_ne.
  - intros Ht Ho Hd. unfold frees.
    rewrite !List.filter_app, !length_app.
    fold (frees ht (release_calls k ht)) (frees ht (release_calls k ho))
         (frees ho (release_calls k ht)) (frees ho (release_calls k ho)).
    rewrite !frees_release_calls.
    apply Z.eqb_neq in Ht, Ho. rewrite Ht, Ho, !Z.eqb_refl. simpl.
    assert (Hd' : ho <> ht) by done.
    apply Z.eqb_neq in Hd, Hd'. by rewrite Hd, Hd'.
  - intros Ho. rewrite frees_release_calls.
    apply Z.eqb_neq in Ho. by rewrite Ho, Z.eqb_refl.
Qed.

(** *** The pool *)

Lemma this_pool_run w p : pool w = Some p -> this_pool w = (Ret p, w).
Proof. intros E. unfold this_pool. by rewrite E. Qed.

Lemma log_run l w :
  log l w
  = (Ret tt, mkWorld (driver w) (calls w) (cerr w ++ [l]) (objects w)
                     (pool w)).
Proof. done. Qed.

Lemma Connection_ctor_returns env w new_conn w1 :
  Connection_ctor env w = (Ret new_conn, w1) ->
  pool w1 = pool w /\ exists h, objects w1 !! new_conn = Some h.
Proof.
  destruct (objects w !! env) as [eh|] eqn:Henv.
  - change (Connection_ctor env w) with (construct Connection env w).
    rewrite (construct_child_run Connection env eh w); [|done..].
    cbv zeta. destruct (SQL_SUCCEEDED _); [|done].
    intros [= <- <-]. split; [done|]. simpl.
    rewrite lookup_insert_eq. by eexists.
  - unfold_handles. by rewrite Henv.
Qed.

Lemma driver_connect_frame this connection_string w r w1 :
  driver_connect this connection_string w = (r, w1) ->
  pool w1 = pool w /\ objects w1 = objects w.
Proof.
  unfold driver_connect. rewrite bind_eq.
  destruct (get_handle this w) as [[h| |] w0] eqn:Hget;
    unfold get_handle in Hget; destruct (objects w !! this); simplify_eq;
    try by intros [= <- <-].
  rewrite bind_eq. unfold SQLDriverConnect. rewrite native_eq.
  destruct (SQL_SUCCEEDED _); simpl.
  - by intros [= <- <-].
  - intros E. by apply unexpected_from_only_calls in E as (_ & ? & ? & _).
Qed.

(** The miss branch of [getConnection], once the new connection object
    exists and [driver_connect] has answered. *)
Lemma getConnection_miss alias connection_string w p new_conn w1 r w2 :
  pool w = Some p ->
  connections_ p !! alias = None ->
  Connection_ctor (env_ p) (log (LogCreatingNew alias) w).2
  = (Ret new_conn, w1) ->
  driver_connect new_conn connection_string w1 = (Ret r, w2) ->
  exists h d,
    objects w2 !! new_conn = Some h
    /\ getConnection alias connection_string w
       = match r with
         | Unexpected e =>
             (Throw (ConnectionPoolError (pool_error_message alias e)),
              mkWorld d (calls w2 ++ release_calls Connection h)
                      (cerr w2 ++ release_log Connection h)
                      (delete new_conn (objects w2)) (Some p))
         | Expected _ =>
             (Ret (fresh_address w2),
              mkWorld (driver w2) (calls w2) (cerr w2)
                      (delete new_conn
                         (<[fresh_address w2 := h]>
                            (<[new_conn := nullptr]> (objects w2))))
                      (Some (mkPool (env_ p)
                               (<[alias := fresh_address w2]>
                                  (connections_ p)))))
         end.
Proof.
  intros Hpool Hmiss Hctor Hconnect.
  destruct (Connection_ctor_returns _ _ _ _ Hctor) as (Hpool1 & h & Hlive1).
  destruct (driver_connect_frame _ _ _ _ _ Hconnect) as (Hpool2 & Hobj2).
  assert (Hlive2 : objects w2 !! new_conn = Some h) by by rewrite Hobj2.
  assert (Hp2 : pool w2 = Some p) by by rewrite Hpool2, Hpool1.
  unfold getConnection.
  rewrite (bind_Ret _ _ _ _ _ (this_pool_run _ _ Hpool)), Hmiss.
  rewrite bind_eq, log_run. rewrite log_run in Hctor. simpl in Hctor.
  rewrite (bind_Ret _ _ _ _ _ Hctor).
  unfold finally. rewrite (bind_Ret _ _ _ _ _ Hconnect).
  destruct r as [[]|e].
  - unfold emplace.
    change (Connection_move_ctor new_conn)
      with (move_construct (D := D) Connection new_conn).
    rewrite !bind_eq, (move_construct_run _ _ _ _ Hlive2).
    rewrite bind_eq. unfold this_pool at 1. simpl. rewrite Hp2, Hmiss.
    cbv beta iota delta [mbind M_bind bind_M mret M_ret ret_M set_pool].
    simpl.
    change (Connection_dtor new_conn)
      with (destroy (D := D) Connection new_conn).
    edestruct (destroy_run Connection new_conn nullptr) as (d & -> & Hd).
    { simpl. pose proof (live_not_fresh _ _ _ Hlive2).
      by rewrite lookup_insert_ne, lookup_insert_eq. }
    rewrite (Hd eq_refl). exists h, (driver w2). split; [done|].
    unfold release_calls, release_log. simpl. by rewrite !app_nil_r.
  - change (Connection_dtor new_conn)
      with (destroy (D := D) Connection new_conn).
    unfold throw.
    edestruct (destroy_run Connection new_conn h w2 Hlive2) as (d & -> & Hd).
    exists h, d. split; [done|]. by rewrite Hp2.
Qed.

(** A setup failure of the new connection object leaves [getConnection] as
    it is: [OdbcSetupError], not the pool's error. *)
Lemma getConnection_setup_failure alias connection_string w p e w1 :
  pool w = Some p ->
  connections_ p !! alias = None ->
  Connection_ctor (env_ p) (log (LogCreatingNew alias) w).2 = (Throw e, w1) ->
  getConnection alias connection_string w = (Throw e, w1).
Proof.
  intros Hpool Hmiss Hctor. unfold getConnection.
  rewrite (bind_Ret _ _ _ _ _ (this_pool_run _ _ Hpool)), Hmiss.
  rewrite bind_eq, log_run. rewrite log_run in Hctor. simpl in Hctor.
  by rewrite bind_eq, Hctor.
Qed.

Lemma getConnection_hit alias connection_string w p c :
  pool w = Some p ->
  connections_ p !! alias = Some c ->
  getConnection alias connection_string w = (Ret c, w).
Proof.
  intros Hpool Hhit. unfold getConnection.
  by rewrite (bind_Ret _ _ _ _ _ (this_pool_run _ _ Hpool)), Hhit.
Qed.

(** Whenever [getConnection] returns, the alias is cached with the address
    it returned. *)
Lemma getConnection_returns_cached alias connection_string w c w1 :
  getConnection alias connection_string w = (Ret c, w1) ->
  exists p1, pool w1 = Some p1 /\ connections_ p1 !! alias = Some c.
Proof.
  destruct (pool w) as [p|] eqn:Hpool;
    [|unfold getConnection, this_pool; rewrite bind_eq, Hpool; done].
  destruct (connections_ p !! alias) as [it|] eqn:Hlookup.
  - rewrite (getConnection_hit _ _ _ _ _ Hpool Hlookup).
    intros [= <- <-]. by exists p.
  - destruct (Connection_ctor (env_ p) (log (LogCreatingNew alias) w).2)
      as [[new_conn| |] w0] eqn:Hctor.
    + destruct (driver_connect new_conn connection_string w0)
        as [[r| |] w2] eqn:Hconnect.
      * destruct (getConnection_miss _ _ _ _ _ _ _ _ Hpool Hlookup Hctor
                    Hconnect) as (h & d & _ & ->).
        destruct r as [[]|e]; [|done].
        intros [= <- <-]. eexists. split; [done|]. simpl.
        by rewrite lookup_insert_eq.
      * unfold getConnection.
        rewrite (bind_Ret _ _ _ _ _ (this_pool_run _ _ Hpool)), Hlookup.
        rewrite bind_eq, log_run. rewrite log_run in Hctor. simpl in Hctor.
        rewrite (bind_Ret _ _ _ _ _ Hctor).
        unfold finally. rewrite bind_eq, Hconnect.
        by repeat case_match.
      * unfold getConnection.
        rewrite (bind_Ret _ _ _ _ _ (this_pool_run _ _ Hpool)), Hlookup.
        rewrite bind_eq, log_run. rewrite log_run in Hctor. simpl in Hctor.
        rewrite (bind_Ret _ _ _ _ _ Hctor).
        unfold finally. by rewrite bind_eq, Hconnect.
    + unfold getConnection.
      rewrite (bind_Ret _ _ _ _ _ (this_pool_run _ _ Hpool)), Hlookup.
      rewrite bind_eq, log_run. rewrite log_run in Hctor. simpl in Hctor.
      by rewrite bind_eq, Hctor.
    + unfold getConnection.
      rewrite (bind_Ret _ _ _ _ _ (this_pool_run _ _ Hpool)), Hlookup.
      rewrite bind_eq, log_run. rewrite log_run in Hctor. simpl in Hctor.
      by rewrite bind_eq, Hctor.
Qed.

(** C1: on a thread whose pool has [alias] cached, [getConnection] returns
    the cached [Connection] whatever connection string it is given, and
    leaves the world as it was: no native call, no line logged, no change to
    the cache.  So when a first call for [alias] returns a connection, a
    second call with any other connection string returns the same object,
    and the same holds through [getThreadLocalConnection]. *)
Theorem same_connection_for_alias alias S1 S2 w c w1 :
  getConnection alias S1 w = (Ret c, w1) ->
  getConnection alias S2 w1 = (Ret c, w1)
  /\ (exists p1, pool w1 = Some p1 /\ connections_ p1 !! alias = Some c)
  /\ (forall w' p' c' S,
        pool w' = Some p' -> connections_ p' !! alias = Some c' ->
        getConnection alias S w' = (Ret c', w'))
  /\ (forall w0 c0 w0',
        getThreadLocalConnection alias S1 w0 = (Ret c0, w0') ->
        getThreadLocalConnection alias S2 w0' = (Ret c0, w0')).
Proof.
  intros Hfirst.
  destruct (getConnection_returns_cached _ _ _ _ _ Hfirst)
    as (p1 & Hpool1 & Hcached).
  split; [by apply (getConnection_hit _ _ _ p1) |].
  split; [by exists p1 |].
  split; [intros w' p' c' S; apply getConnection_hit |].
  intros w0 c0 w0'. unfold getThreadLocalConnection.
  rewrite bind_eq.
  destruct (match pool w0 with
            | Some _ => (Ret (), w0)
            | None => (Environment_ctor ≫= λ env, set_pool (mkPool env ∅)) w0
            end) as [[[]| |] w0''] eqn:Hinit; [|done..].
  intros Hget.
  destruct (getConnection_returns_cached _ _ _ _ _ Hget)
    as (p0 & Hpool0 & Hcached0).
  rewrite bind_eq, Hpool0.
  by apply (getConnection_hit _ _ _ p0).
Qed.

(** C3: when the alias is not cached, the new connection object can be
    allocated and [driver_connect] returns the error [e], [getConnection]
    throws [ConnectionPoolError] with the message built from the alias and
    [e]; the cache is what it was, with the alias absent, and the connection
    object is gone.  A later call for the same alias that can allocate and
    connect returns a connection and caches it under the alias. *)
Theorem failed_connection_is_not_cached alias S w p new_conn w1 e w2 :
  pool w = Some p ->
  connections_ p !! alias = None ->
  Connection_ctor (env_ p) (log (LogCreatingNew alias) w).2
  = (Ret new_conn, w1) ->
  driver_connect new_conn S w1 = (Ret (Unexpected e), w2) ->
  exists w3,
    getConnection alias S w
    = (Throw (ConnectionPoolError
                ("Failed to establish connection for alias '" +:+ alias
                 +:+ "': " +:+ to_string e)), w3)
    /\ pool w3 = Some p
    /\ objects w3 !! new_conn = None
    /\ forall S' new_conn' w4 w5,
         Connection_ctor (env_ p) (log (LogCreatingNew alias) w3).2
         = (Ret new_conn', w4) ->
         driver_connect new_conn' S' w4 = (Ret (Expected tt), w5) ->
         exists c w6,
           getConnection alias S' w3 = (Ret c, w6)
           /\ pool w6
              = Some (mkPool (env_ p) (<[alias := c]> (connections_ p)))
           /\ objects w6 !! c = objects w5 !! new_conn'.
Proof.
  intros Hpool Hmiss Hctor Hconnect.
  destruct (getConnection_miss _ _ _ _ _ _ _ _ Hpool Hmiss Hctor Hconnect)
    as (h & d & Hlive & ->).
  eexists. split; [done|]. simpl. split; [done|].
  split; [by rewrite lookup_delete_eq|].
  intros S' new_conn' w4 w5 Hctor' Hconnect'.
  edestruct (getConnection_miss alias S') as (h' & d' & Hlive' & ->);
    [| exact Hmiss | exact Hctor' | exact Hconnect' |]; [done|].
  eexists _, _. split; [done|]. simpl. split; [done|].
  pose proof (live_not_fresh _ _ _ Hlive') as Hne.
  by rewrite lookup_delete_ne, lookup_insert_eq.
Qed.

End Properties.

(** C5 (as stated) fails: the driver reports no-more-data and then, on the
    next call, an error with no diagnostic record; the first [fetch] returns
    [false] and the second one an error. *)
Lemma fetch_after_exhaustion_counterexample :
  let w := Scripted.holding [7] [Scripted.code SQL_NO_DATA;
                               Scripted.code SQL_ERROR] in
  (fetch 0 w).1 = Ret (Expected false)
  /\ (fetch 0 (fetch 0 w).2).1
     = Ret (Unexpected (mkOdbcError "HY000" 0 "Unknown fetch error")).
Proof. by vm_compute. Qed.

Lemma fetch_follows_driver_witness :
  let w := Scripted.holding [7] [Scripted.code SQL_NO_DATA;
                               Scripted.code SQL_NO_DATA] in
  (fetch 0 w).1 = Ret (Expected false)
  /\ (fetch 0 (fetch 0 w).2).1 = Ret (Expected false).
Proof.
  intros w.
  destruct (fetch_follows_driver 0%nat 7 w SQL_NO_DATA (SQLFetch 7 w).2)
    as (_ & Hfalse & _ & _ & Hnext); [reflexivity | reflexivity |].
  split; [apply Hfalse; reflexivity|].
  destruct (Hnext (fetch 0 w).2) as (_ & _ & Hagain); [reflexivity|].
  apply (Hagain SQL_NO_DATA (SQLFetch 7 (fetch 0 w).2).2); reflexivity.
Defined.

(** ** Concrete runs *)

Import Scripted.

Lemma same_connection_for_alias_witness :
  let w := pooled 11 [code_out SQL_SUCCESS 22; code SQL_SUCCESS] in
  let w1 := (getConnection "A" "DSN=one" w).2 in
  getConnection "A" "DSN=one" w = (Ret 2%nat, w1)
  /\ getConnection "A" "DSN=two" w1 = (Ret 2%nat, w1).
Proof.
  intros w w1.
  assert (H : getConnection "A" "DSN=one" w = (Ret 2%nat, w1))
    by (vm_compute; reflexivity).
  split; [exact H|].
  exact (proj1 (same_connection_for_alias "A" "DSN=one" "DSN=two" w 2%nat w1
                  H)).
Defined.

(** C2 (as stated) fails: the first read reports success-with-info and the
    length 2000, the retried read into the 2001-byte buffer again reports
    success-with-info and a length, 2001, that exceeds what the buffer can
    hold besides the terminator; the result is a present string of 2001
    bytes, not an error. *)
Lemma text_retry_still_too_small_counterexample :
  let w := holding [7] [data SQL_SUCCESS_WITH_INFO "x" 2000;
                        data SQL_SUCCESS_WITH_INFO "y" 2001] in
  calls (get_data T_string 0%nat 1 w).2
  = [CallGetData 7 1 SQL_C_CHAR 1024; CallGetData 7 1 SQL_C_CHAR 2001]
  /\ final_code_and_indicator 7 1 w = Some (SQL_SUCCESS_WITH_INFO, 2001)
  /\ (get_data T_string 0%nat 1 w).1
     = Ret (Expected
              (Some (string_of_list_ascii
                       ("y"%char :: replicate 2000 NUL)))).
Proof. by vm_compute. Qed.

Lemma text_read_retries_once_witness :
  let w := holding [7] [data SQL_SUCCESS_WITH_INFO "x" 2000;
                        data SQL_SUCCESS "y" 2000] in
  let w' := holding [7] [data SQL_SUCCESS_WITH_INFO "x" (2 ^ 63 - 1);
                         data SQL_SUCCESS "y" 1] in
  get_data_calls (calls (get_string_data 7 1 w).2) = 2%nat
  /\ get_string_data 7 1 w'
     = (Throw std_length_error, (SQLGetData 7 1 SQL_C_CHAR 1024 w').2).
Proof.
  intros w w'. split.
  - destruct (text_read_retries_once 7 1 w
                (drv_GetData 7 1 SQL_C_CHAR 1024 (driver w)).1
                (SQLGetData 7 1 SQL_C_CHAR 1024 w).2)
      as [_ Hwithin]; [reflexivity|].
    destruct Hwithin
      as (ret & buffer & ind & w2 & _ & _ & _ & _ & Hcount & _);
      [by vm_compute|].
    exact Hcount.
  - destruct (text_read_retries_once 7 1 w'
                (drv_GetData 7 1 SQL_C_CHAR 1024 (driver w')).1
                (SQLGetData 7 1 SQL_C_CHAR 1024 w').2)
      as [Hbeyond _]; [reflexivity|].
    destruct Hbeyond as (_ & _ & Hthrow & _); [by vm_compute|].
    exact Hthrow.
Defined.

Lemma failed_connection_is_not_cached_witness :
  let w := pooled 11 [code_out SQL_SUCCESS 22; code SQL_ERROR;
                      diag SQL_SUCCESS "08001" 5 "no";
                      code SQL_SUCCESS; code SQL_SUCCESS;
                      code_out SQL_SUCCESS 33; code SQL_SUCCESS] in
  exists w3,
    getConnection "A" "bad" w
    = (Throw (ConnectionPoolError
                "Failed to establish connection for alias 'A': ODBC Error: SQLSTATE=08001, NativeError=5, Message='no'"),
       w3)
    /\ pool w3 = Some (mkPool 0 ∅)
    /\ (getConnection "A" "DSN=good" w3).1 = Ret 2%nat.
Proof.
  intros w.
  destruct (failed_connection_is_not_cached "A" "bad" w (mkPool 0 ∅) 1%nat
              (Connection_ctor 0 (log (LogCreatingNew "A") w).2).2
              (mkOdbcError "08001" 5 "no")
              (driver_connect 1
                 "bad" (Connection_ctor 0 (log (LogCreatingNew "A") w).2).2).2)
    as (w3 & Hthrow & Hpool & _ & _);
    [reflexivity | reflexivity | by vm_compute | by vm_compute |].
  exists w3. split; [exact Hthrow|]. split; [exact Hpool|].
  injection Hthrow as <-. by vm_compute.
Defined.

Lemma text_null_whatever_the_code_witness :
  (get_data T_string 0%nat 1
     (holding [7] [data SQL_SUCCESS "" SQL_NULL_DATA])).1
  = Ret (Expected None)
  /\ (get_data T_string 0%nat 1
        (holding [7] [data SQL_ERROR "" SQL_NULL_DATA])).1
     = Ret (Expected None).
Proof.
  split.
  - rewrite (text_null_whatever_the_code 0%nat 7 1
               (holding [7] [data SQL_SUCCESS "" SQL_NULL_DATA])
               SQL_SUCCESS (vector_of_size 1024)
               (final_read 7 1
                  (holding [7] [data SQL_SUCCESS "" SQL_NULL_DATA])).2);
      [reflexivity | reflexivity | by vm_compute].
  - rewrite (text_null_whatever_the_code 0%nat 7 1
               (holding [7] [data SQL_ERROR "" SQL_NULL_DATA])
               SQL_ERROR (vector_of_size 1024)
               (final_read 7 1
                  (holding [7] [data SQL_ERROR "" SQL_NULL_DATA])).2);
      [reflexivity | reflexivity | by vm_compute].
Defined.

Lemma failure_without_record_is_generic_witness :
  (perform (OpConnect "DSN=x") 0%nat
     (holding [7] [code SQL_ERROR; code SQL_NO_DATA])).1
  = Ret (Unexpected
           (mkOdbcError "HY000" 0
              "Unknown connection error via DriverConnect"))
  /\ (perform (OpGetData T_string 1) 0%nat
        (holding [7] [data SQL_ERROR "" 0; code SQL_NO_DATA])).1
     = Ret (Unexpected
              (mkOdbcError "HY000" 0 "Unknown GetData<string> error")).
Proof.
  split.
  - set (w := holding [7] [code SQL_ERROR; code SQL_NO_DATA]).
    destruct (failure_without_record_is_generic (OpConnect "DSN=x") 0%nat 7
                w (attempt (OpConnect "DSN=x") 7 w).2)
      as [_ Hgeneric]; [reflexivity | reflexivity |].
    destruct (Hgeneric
                (drv_GetDiagRec SQL_HANDLE_DBC 7 1 SQL_MAX_MESSAGE_LENGTH
                   (driver (attempt (OpConnect "DSN=x") 7 w).2)).1
                (SQLGetDiagRec SQL_HANDLE_DBC 7 1 SQL_MAX_MESSAGE_LENGTH
                   (attempt (OpConnect "DSN=x") 7 w).2).2)
      as (-> & _); [reflexivity | reflexivity |].
    reflexivity.
  - set (w := holding [7] [data SQL_ERROR "" 0; code SQL_NO_DATA]).
    destruct (failure_without_record_is_generic (OpGetData T_string 1) 0%nat
                7 w (attempt (OpGetData T_string 1) 7 w).2)
      as [_ Hgeneric]; [reflexivity | by vm_compute |].
    destruct (Hgeneric
                (drv_GetDiagRec SQL_HANDLE_STMT 7 1 SQL_MAX_MESSAGE_LENGTH
                   (driver (attempt (OpGetData T_string 1) 7 w).2)).1
                (SQLGetDiagRec SQL_HANDLE_STMT 7 1 SQL_MAX_MESSAGE_LENGTH
                   (attempt (OpGetData T_string 1) 7 w).2).2)
      as (-> & _); [by vm_compute | by vm_compute |].
    reflexivity.
Defined.

Lemma move_transfers_ownership_witness :
  let w := holding [7; 9] [] in
  exists w',
    (_ ← move_assign Connection 0%nat 1%nat;
     _ ← destroy Connection 1%nat;
     destroy Connection 0%nat) w
    = (Ret tt, w')
    /\ calls w'
       = [CallDisconnect 7; CallFreeHandle SQL_HANDLE_DBC 7;
          CallDisconnect 9; CallFreeHandle SQL_HANDLE_DBC 9].
Proof.
  intros w.
  destruct (move_transfers_ownership Connection 0%nat 1%nat 7 9 w)
    as (_ & _ & _ & _ & (w' & Hrun & Hcalls & _) & _);
    [lia | reflexivity | reflexivity |].
  exists w'. split; [exact Hrun | exact Hcalls].
Defined.

(** C8 (as stated) fails: default construction of an [Environment] calls
    the driver and, when the driver succeeds, yields an object that holds
    the handle the driver supplied, not the empty state. *)
Lemma default_construction_counterexample :
  let w := fresh [code_out SQL_SUCCESS 11; code SQL_SUCCESS] in
  (Environment_ctor w).1 = Ret 0%nat
  /\ objects (Environment_ctor w).2 !! 0%nat = Some 11
  /\ 11 <> nullptr
  /\ calls (Environment_ctor w).2
     = [CallAllocHandle SQL_HANDLE_ENV SQL_NULL_HANDLE;
        CallSetEnvAttr 11 SQL_ATTR_ODBC_VERSION SQL_OV_ODBC3 0].
Proof. by vm_compute. Qed.

Lemma constructors_allocate_witness :
  let w := holding [11] [code_out SQL_SUCCESS 22] in
  let silent := holding [11] [code SQL_SUCCESS] in
  (exists w',
     construct Connection 0%nat w = (Ret (fresh_address w), w')
     /\ objects w' = <[fresh_address w := 22]> (objects w)
     /\ calls w' = calls w ++ [CallAllocHandle SQL_HANDLE_DBC 11])
  /\ (exists w',
        construct Connection 0%nat silent = (Ret (fresh_address silent), w')
        /\ objects w' = <[fresh_address silent := nullptr]> (objects silent)
        /\ calls w' = calls silent ++ [CallAllocHandle SQL_HANDLE_DBC 11]).
Proof.
  intros w silent. split.
  - destruct (constructors_allocate Connection 0%nat 11 w)
      as (_ & _ & _ & Hok & _); [intros _; reflexivity |].
    apply Hok; [discriminate | reflexivity].
  - destruct (constructors_allocate Connection 0%nat 11 silent)
      as (_ & _ & _ & Hok & _); [intros _; reflexivity |].
    apply Hok; [discriminate | reflexivity].
Defined.

Lemma numeric_error_before_null_witness :
  let w := holding [7] [data SQL_ERROR "" SQL_NULL_DATA; code SQL_NO_DATA] in
  (get_data T_long 0%nat 1 w).1
  = Ret (Unexpected (mkOdbcError "HY000" 0 "Unknown GetData<long> error"))
  /\ (get_data T_string 0%nat 1 w).1 = Ret (Expected None).
Proof.
  intros w.
  destruct (numeric_error_before_null T_long 0%nat 7 1 w
              (drv_GetData 7 1 SQL_C_SLONG 8 (driver w)).1
              (SQLGetData 7 1 SQL_C_SLONG 8 w).2)
    as (Hfail & _ & Htext); [discriminate | reflexivity | reflexivity |].
  split.
  - destruct (Hfail eq_refl) as [-> _]. by vm_compute.
  - rewrite (Htext (drv_GetData 7 1 SQL_C_CHAR 1024 (driver w)).1
               (SQLGetData 7 1 SQL_C_CHAR 1024 w).2);
      reflexivity.
Defined.

(** C10 (as stated) fails: the read reports success with the indicator
    2000, which is positive and not the NULL sentinel, but the buffer holds
    1024 bytes; the result is not a string of 2000 bytes from the buffer:
    the copy runs past its end. *)
Lemma text_value_overread_counterexample :
  let w := holding [7] [data SQL_SUCCESS "abc" 2000] in
  final_code_and_indicator 7 1 w = Some (SQL_SUCCESS, 2000)
  /\ calls (get_data T_string 0%nat 1 w).2 = [CallGetData 7 1 SQL_C_CHAR 1024]
  /\ (get_data T_string 0%nat 1 w).1 = Undef.
Proof. by vm_compute. Qed.

Lemma text_value_present_witness :
  (get_data T_string 0%nat 1 (holding [7] [data SQL_SUCCESS "First" 5])).1
  = Ret (Expected (Some "First"))
  /\ (get_data T_string 0%nat 1 (holding [7] [data SQL_SUCCESS "" 0])).1
     = Ret (Expected (Some EmptyString)).
Proof.
  split.
  - set (w := holding [7] [data SQL_SUCCESS "First" 5]).
    destruct (text_value_present 0%nat 7 1 w SQL_SUCCESS
                (store_bytes (vector_of_size 1024)
                   (list_ascii_of_string "First"))
                5 (final_read 7 1 w).2)
      as (_ & Hpositive);
      [reflexivity | by vm_compute | reflexivity | discriminate |].
    destruct Hpositive as [Hvalue _]; [by vm_compute |].
    rewrite Hvalue. reflexivity.
  - set (w := holding [7] [data SQL_SUCCESS "" 0]).
    destruct (text_value_present 0%nat 7 1 w SQL_SUCCESS
                (vector_of_size 1024) 0 (final_read 7 1 w).2)
      as (Hzero & _);
      [reflexivity | by vm_compute | reflexivity | discriminate |].
    rewrite Hzero; [reflexivity | lia].
Defined.

(** * Further properties of the wrapper *)

Section Diagnostics.

Context {D : Type} `{!Driver D}.

Implicit Types (w : World D) (this : nat) (h : Z).

Lemma c_str_terminated (s rest : list ascii) :
  Forall (fun c => c <> NUL) s -> c_str (s ++ NUL :: rest) = Some s.
Proof.
  induction 1 as [|c s Hc _ IH]; simpl; [done|].
  destruct (Ascii.eqb c NUL) eqn:E; [by apply Ascii.eqb_eq in E|].
  by rewrite IH.
Qed.

Lemma store_bytes_prefix (buffer written : list ascii) :
  (length written <= length buffer)%nat ->
  store_bytes buffer written = written ++ drop (length written) buffer.
Proof.
  intros Hfit. unfold store_bytes. apply take_ge.
  rewrite length_app, length_drop. lia.
Qed.

Lemma take_store_bytes (buffer written : list ascii) :
  (length written <= length buffer)%nat ->
  take (length written) (store_bytes buffer written) = written.
Proof.
  intros Hfit. rewrite store_bytes_prefix by done.
  by rewrite take_app_length.
Qed.

Lemma get_diagnostic_record_run h ty w out w1 :
  SQLGetDiagRec ty h 1 SQL_MAX_MESSAGE_LENGTH w = (Ret out, w1) ->
  get_diagnostic_record h ty w
  = if SQL_SUCCEEDED (diag_ret out) then
      match c_str (store_bytes (vector_of_size 6) (diag_sql_state out)),
            bytes_at (store_bytes (vector_of_size 512)
                        (diag_message_text out))
                     (to_size_t (store_SQLSMALLINT 0 (diag_text_length out)))
      with
      | Some state, Some text =>
          (Ret (Some (mkOdbcError (string_of_list_ascii state)
                        (store_out 0 (diag_native_error out)) text)), w1)
      | _, _ => (Undef, w1)
      end
    else (Ret None, w1).
Proof.
  intros Hcall. unfold get_diagnostic_record.
  rewrite bind_eq. change (Z.of_nat _) with SQL_MAX_MESSAGE_LENGTH.
  rewrite Hcall. change (Z.to_nat SQL_MAX_MESSAGE_LENGTH) with 512%nat.
  by repeat case_match.
Qed.

(** X1: when [SQLGetDiagRec] reports success and leaves a terminated state
    code of at most five characters, a message of at most 512 bytes and the
    length of that message, [get_diagnostic_record] returns exactly that
    state, native code and message, after this one native call. *)
Theorem diagnostic_record_round_trip h ty w out w1
    (state text : list ascii) (native : Z) :
  SQLGetDiagRec ty h 1 SQL_MAX_MESSAGE_LENGTH w = (Ret out, w1) ->
  SQL_SUCCEEDED (diag_ret out) = true ->
  diag_sql_state out = state ++ [NUL] ->
  Forall (fun c => c <> NUL) state ->
  (length state <= 5)%nat ->
  diag_native_error out = Some native ->
  diag_message_text out = text ->
  (length text <= 512)%nat ->
  diag_text_length out = Some (Z.of_nat (length text)) ->
  get_diagnostic_record h ty w
  = (Ret (Some (mkOdbcError (string_of_list_ascii state) native
                  (string_of_list_ascii text))), w1)
  /\ only_calls w w1 [CallGetDiagRec ty h 1 SQL_MAX_MESSAGE_LENGTH].
Proof.
  intros Hcall Hok Hstate Hnn Hlen Hnative Htext Htlen Hcount.
  split; [|by apply native_only_calls in Hcall].
  rewrite (get_diagnostic_record_run _ _ _ _ _ Hcall), Hok.
  rewrite Hstate, Hnative, Htext, Hcount.
  rewrite store_bytes_prefix
    by (rewrite length_app, length_vector_of_size; simpl; lia).
  rewrite <- app_assoc. simpl. rewrite c_str_terminated by done.
  unfold store_SQLSMALLINT. simpl.
  assert (Hs : signed 16 (Z.of_nat (length text)) = Z.of_nat (length text)).
  { unfold signed. change (2 ^ (16 - 1)) with 32768.
    change (2 ^ 16) with 65536. rewrite Z.mod_small; lia. }
  rewrite Hs. unfold to_size_t. rewrite Z.mod_small by lia.
  unfold bytes_at.
  rewrite length_store_bytes, length_vector_of_size.
  destruct (_ <=? _) eqn:E; [|apply Z.leb_gt in E; lia].
  by rewrite Nat2Z.id, take_store_bytes
    by (rewrite length_vector_of_size; lia).
Qed.

(** X2: when [SQLGetDiagRec] reports success with a text length that is
    negative or exceeds the 512 bytes of the message buffer (the length of a
    message that did not fit), [get_diagnostic_record] does not return a
    record: the copy of the message runs past the end of the buffer. *)
Theorem diagnostic_text_length_beyond_buffer h ty w out w1 (n : Z) :
  SQLGetDiagRec ty h 1 SQL_MAX_MESSAGE_LENGTH w = (Ret out, w1) ->
  SQL_SUCCEEDED (diag_ret out) = true ->
  diag_text_length out = Some n ->
  512 < n < 2 ^ 15 \/ - 2 ^ 15 <= n < 0 ->
  get_diagnostic_record h ty w = (Undef, w1).
Proof.
  intros Hcall Hok Hcount Hrange.
  rewrite (get_diagnostic_record_run _ _ _ _ _ Hcall), Hok, Hcount.
  unfold store_SQLSMALLINT. simpl.
  assert (Hs : signed 16 n = n).
  { unfold signed. change (2 ^ (16 - 1)) with 32768.
    change (2 ^ 16) with 65536. change (2 ^ 15) with 32768 in Hrange.
    rewrite Z.mod_small; lia. }
  rewrite Hs.
  assert (Hbeyond : bytes_at (store_bytes (vector_of_size 512)
                                (diag_message_text out)) (to_size_t n)
                    = None).
  { apply bytes_at_beyond.
    rewrite length_store_bytes, length_vector_of_size.
    unfold to_size_t. change (2 ^ 15) with 32768 in Hrange.
    destruct Hrange as [Hbig | Hneg].
    - rewrite Z.mod_small by lia. lia.
    - assert (n mod 2 ^ 64 = n + 2 ^ 64) as ->; [|lia].
      symmetry. apply (Z.mod_unique _ _ (-1)); lia. }
  rewrite Hbeyond. by destruct (c_str _).
Qed.

End Diagnostics.

Section Operations.

Context {D : Type} `{!Driver D}.

Implicit Types (w : World D) (this : nat) (h : Z).

Lemma unexpected_from_forget {T} h ty fallback w :
  (r ← unexpected_from (T := T) h ty fallback; mret (forget r)) w
  = match get_diagnostic_record h ty w with
    | (Ret record, w1) => (Ret (Unexpected (value_or record fallback)), w1)
    | (Throw e, w1) => (Throw e, w1)
    | (Undef, w1) => (Undef, w1)
    end.
Proof.
  unfold unexpected_from. rewrite !bind_eq.
  by destruct (get_diagnostic_record h ty w) as [[record| |] w1].
Qed.

Ltac enter_operation Hlive Hatt :=
  rewrite (bind_Ret _ _ _ _ _ (get_handle_live _ _ _ Hlive));
  rewrite bind_eq in Hatt; rewrite bind_eq.

(** A failed operation is its diagnostics, fetched right after the failing
    call. *)
Lemma perform_failed op this h w w1 :
  objects w !! this = Some h ->
  attempt op h w = (Ret true, w1) ->
  perform op this w
  = match get_diagnostic_record h (handle_type_of op) w1 with
    | (Ret record, w2) =>
        (Ret (Unexpected (value_or record (generic_error op))), w2)
    | (Throw e, w2) => (Throw e, w2)
    | (Undef, w2) => (Undef, w2)
    end.
Proof.
  intros Hlive Hatt.
  rewrite <- (unexpected_from_forget (T := unit)).
  destruct op as [cs| |q| | |[| |] col];
    cbv beta iota delta [perform attempt handle_type_of] in Hatt |- *.
  - rewrite !bind_eq. unfold driver_connect. enter_operation Hlive Hatt.
    destruct (SQLDriverConnect _ _ _ _ w) as [[ret| |] w0]; simplify_eq.
    injection Hatt as Hret ->. by rewrite Hret.
  - rewrite !bind_eq. unfold disconnect. enter_operation Hlive Hatt.
    destruct (log _ w) as [[[]| |] w0]; simplify_eq.
    rewrite bind_eq in Hatt. rewrite bind_eq.
    destruct (SQLDisconnect _ w0) as [[ret| |] w0']; simplify_eq.
    injection Hatt as Hret ->. by rewrite Hret.
  - rewrite !bind_eq. unfold execute_direct. enter_operation Hlive Hatt.
    destruct (SQLExecDirect _ _ _ w) as [[ret| |] w0]; simplify_eq.
    injection Hatt as Hret ->. by rewrite Hret.
  - rewrite (unexpected_from_forget (T := unit)),
      <- (unexpected_from_forget (T := bool)).
    rewrite !bind_eq. unfold fetch. enter_operation Hlive Hatt.
    destruct (SQLFetch _ w) as [[ret| |] w0]; simplify_eq.
    injection Hatt as Hret ->.
    apply andb_true_iff in Hret as [Hs Hn].
    apply negb_true_iff in Hs, Hn. by rewrite Hs, Hn.
  - rewrite (unexpected_from_forget (T := unit)),
      <- (unexpected_from_forget (T := Z)).
    rewrite !bind_eq. unfold row_count. enter_operation Hlive Hatt.
    destruct (SQLRowCount _ w) as [[[ret out]| |] w0]; simplify_eq.
    injection Hatt as Hret ->. simpl in Hret. by rewrite Hret.
  - rewrite (unexpected_from_forget (T := unit)),
      <- (unexpected_from_forget (T := option string)).
    rewrite !bind_eq. unfold get_data.
    rewrite (bind_Ret _ _ _ _ _ (get_handle_live _ _ _ Hlive)).
    rewrite get_string_data_split.
    rewrite bind_eq in Hatt. rewrite bind_eq.
    destruct (final_read _ _ w) as [[[[ret buffer] ind]| |] w0]; simplify_eq.
    injection Hatt as Hret ->.
    apply andb_true_iff in Hret as [Hs Hn].
    apply negb_true_iff in Hn. unfold conclude. by rewrite Hs, Hn.
  - rewrite (unexpected_from_forget (T := unit)),
      <- (unexpected_from_forget (T := option (list ascii))).
    rewrite !bind_eq. unfold get_data. enter_operation Hlive Hatt.
    destruct (SQLGetData _ _ _ _ w) as [[out| |] w0]; simplify_eq.
    injection Hatt as Hret ->. by rewrite Hret.
  - rewrite (unexpected_from_forget (T := unit)),
      <- (unexpected_from_forget (T := option (list ascii))).
    rewrite !bind_eq. unfold get_data. enter_operation Hlive Hatt.
    destruct (SQLGetData _ _ _ _ w) as [[out| |] w0]; simplify_eq.
    injection Hatt as Hret ->. by rewrite Hret.
Qed.

(** X3: for each fallible operation, when the driver reports what the
    operation treats as its failure and [get_diagnostic_record] then yields
    a record, the operation returns exactly that record as its error; the
    only native call after the failing one is the one that fetches the
    diagnostics. *)
Theorem failure_carries_the_record op this h w w1 record w2 :
  objects w !! this = Some h ->
  attempt op h w = (Ret true, w1) ->
  get_diagnostic_record h (handle_type_of op) w1 = (Ret (Some record), w2) ->
  perform op this w = (Ret (Unexpected record), w2)
  /\ only_calls w1 w2
       [CallGetDiagRec (handle_type_of op) h 1 SQL_MAX_MESSAGE_LENGTH].
Proof.
  intros Hlive Hatt Hdiag.
  rewrite (perform_failed _ _ _ _ _ Hlive Hatt), Hdiag.
  split; [done|]. by apply get_diagnostic_record_only_calls in Hdiag.
Qed.

(** X4: for each fallible operation, when the driver reports a code the
    operation does not treat as failure (success, success-with-info, for
    [fetch] also no-more-data, for text also any code with the NULL
    indicator), no diagnostics are fetched and the result is not an error;
    for every operation but the text read the result is a success value. *)
Theorem passed_operation_is_not_an_error op this h w w1 :
  objects w !! this = Some h ->
  attempt op h w = (Ret false, w1) ->
  calls (perform op this w).2 = calls w1
  /\ (forall e, (perform op this w).1 <> Ret (Unexpected e))
  /\ ((forall col, op <> OpGetData T_string col) ->
      (perform op this w).1 = Ret (Expected tt)).
Proof.
  intros Hlive Hatt.
  destruct op as [cs| |q| | |[| |] col];
    cbv beta iota delta [perform attempt handle_type_of] in Hatt |- *.
  - rewrite !bind_eq. unfold driver_connect. enter_operation Hlive Hatt.
    destruct (SQLDriverConnect _ _ _ _ w) as [[ret| |] w0]; simplify_eq.
    injection Hatt as Hret ->. by rewrite Hret.
  - rewrite !bind_eq. unfold disconnect. enter_operation Hlive Hatt.
    destruct (log _ w) as [[[]| |] w0]; simplify_eq.
    rewrite bind_eq in Hatt. rewrite bind_eq.
    destruct (SQLDisconnect _ w0) as [[ret| |] w0']; simplify_eq.
    injection Hatt as Hret ->. by rewrite Hret.
  - rewrite !bind_eq. unfold execute_direct. enter_operation Hlive Hatt.
    destruct (SQLExecDirect _ _ _ w) as [[ret| |] w0]; simplify_eq.
    injection Hatt as Hret ->. by rewrite Hret.
  - rewrite !bind_eq. unfold fetch. enter_operation Hlive Hatt.
    destruct (SQLFetch _ w) as [[ret| |] w0]; simplify_eq.
    injection Hatt as Hret ->.
    apply andb_false_iff in Hret as [Hs | Hn].
    + apply negb_false_iff in Hs. by rewrite Hs.
    + apply negb_false_iff in Hn. rewrite Hn.
      by destruct (SQL_SUCCEEDED ret).
  - rewrite !bind_eq. unfold row_count. enter_operation Hlive Hatt.
    destruct (SQLRowCount _ w) as [[[ret out]| |] w0]; simplify_eq.
    injection Hatt as Hret ->. simpl in Hret. by rewrite Hret.
  - rewrite !bind_eq. unfold get_data.
    rewrite (bind_Ret _ _ _ _ _ (get_handle_live _ _ _ Hlive)).
    rewrite get_string_data_split.
    rewrite bind_eq in Hatt. rewrite bind_eq.
    destruct (final_read _ _ w) as [[[[ret buffer] ind]| |] w0]; simplify_eq.
    injection Hatt as Hret ->.
    split; [|split; [|intros Hop; by destruct (Hop col)]].
    + unfold conclude.
      apply andb_false_iff in Hret as [Hs | Hn].
      * apply negb_false_iff in Hs. rewrite Hs. simpl.
        destruct (ind =? SQL_NULL_DATA); [done|].
        destruct (ind >? 0); [|done].
        by destruct (bytes_at _ _).
      * apply negb_false_iff in Hn. rewrite Hn.
        by destruct (SQL_SUCCEEDED ret).
    + intros e. unfold conclude.
      apply andb_false_iff in Hret as [Hs | Hn].
      * apply negb_false_iff in Hs. rewrite Hs. simpl.
        destruct (ind =? SQL_NULL_DATA); [done|].
        destruct (ind >? 0); [|done].
        by destruct (bytes_at _ _).
      * apply negb_false_iff in Hn. rewrite Hn.
        by destruct (SQL_SUCCEEDED ret).
  - rewrite !bind_eq. unfold get_data. enter_operation Hlive Hatt.
    destruct (SQLGetData _ _ _ _ w) as [[out| |] w0]; simplify_eq.
    injection Hatt as Hret ->. rewrite Hret.
    by destruct (store_SQLLEN _ _ =? SQL_NULL_DATA).
  - rewrite !bind_eq. unfold get_data. enter_operation Hlive Hatt.
    destruct (SQLGetData _ _ _ _ w) as [[out| |] w0]; simplify_eq.
    injection Hatt as Hret ->. rewrite Hret.
    by destruct (store_SQLLEN _ _ =? SQL_NULL_DATA).
Qed.

(** X5: [disconnect] leaves the connection object as it is: whatever its
    outcome, the object still holds its handle, so the destructor that runs
    later disconnects that handle again and frees it, once. *)
Theorem disconnect_keeps_the_handle this h w r w1 :
  objects w !! this = Some h ->
  h <> nullptr ->
  disconnect this w = (r, w1) ->
  objects w1 = objects w
  /\ pool w1 = pool w
  /\ (exists diagnostics,
        calls w1 = calls w ++ CallDisconnect h :: diagnostics
        /\ frees h diagnostics = 0%nat)
  /\ exists w2,
       Connection_dtor this w1 = (Ret tt, w2)
       /\ calls w2
          = calls w1 ++ [CallDisconnect h; CallFreeHandle SQL_HANDLE_DBC h]
       /\ objects w2 = delete this (objects w).
Proof.
  intros Hlive Hnn Hrun.
  assert (Hframe : objects w1 = objects w /\ pool w1 = pool w
                   /\ exists diagnostics,
                        calls w1 = calls w ++ CallDisconnect h :: diagnostics
                        /\ frees h diagnostics = 0%nat).
  { revert Hrun. unfold disconnect.
    rewrite (bind_Ret _ _ _ _ _ (get_handle_live _ _ _ Hlive)).
    rewrite bind_eq, log_run, bind_eq. unfold SQLDisconnect.
    rewrite native_eq. simpl.
    destruct (SQL_SUCCEEDED _); simpl.
    - intros [= <- <-]. simpl. split; [done|]. split; [done|].
      by exists [].
    - intros E. apply unexpected_from_only_calls in E
        as (Hc & Ho & Hp & _). simpl in *.
      split; [done|]. split; [done|].
      eexists. split; [by rewrite Hc, <- app_assoc|]. done. }
  destruct Hframe as (Hobj & Hpool & Hcalls).
  split; [done|]. split; [done|]. split; [done|].
  change (Connection_dtor this w1) with (destroy (D := D) Connection this w1).
  destruct (destroy_run Connection this h w1) as (d & -> & _);
    [by rewrite Hobj|].
  eexists. split; [done|]. simpl. unfold release_calls.
  apply Z.eqb_neq in Hnn. rewrite Hnn. by rewrite Hobj.
Qed.

(** X6: after a success code without the NULL indicator, [get_data<long>]
    and [get_data<double>] return the object the driver filled in: the bytes
    it stored, followed by the zero bytes of the value-initialised object
    where it stored fewer than eight. *)
Theorem numeric_value_is_what_the_driver_stored T this h col w out w1 :
  T <> T_string ->
  objects w !! this = Some h ->
  SQLGetData h col (target_type T) (Z.of_nat (target_size T)) w
  = (Ret out, w1) ->
  SQL_SUCCEEDED (data_ret out) = true ->
  store_SQLLEN 0 (data_indicator out) <> SQL_NULL_DATA ->
  (length (data_target out) <= 8)%nat ->
  exists value,
    get_data T this col w = (Ret (Expected (Some value)), w1)
    /\ object_bytes T value
       = data_target out ++ replicate (8 - length (data_target out)) NUL.
Proof.
  intros HT Hlive Hcall Hok Hnn Hfit. apply Z.eqb_neq in Hnn.
  assert (Hbytes : store_bytes (vector_of_size 8) (data_target out)
                   = data_target out
                     ++ replicate (8 - length (data_target out)) NUL).
  { rewrite store_bytes_prefix by by rewrite length_vector_of_size.
    unfold vector_of_size. by rewrite drop_replicate. }
  destruct T; [done| |];
    (eexists; split; [|exact Hbytes]);
    unfold get_data;
    rewrite (bind_Ret _ _ _ _ _ (get_handle_live _ _ _ Hlive));
    rewrite (bind_Ret _ _ _ _ _ Hcall); by rewrite Hok, Hnn.
Qed.

Lemma take_store_bytes_app (buffer value rest : list ascii) :
  (length value <= length buffer)%nat ->
  take (length value) (store_bytes buffer (value ++ rest)) = value.
Proof.
  intros Hfit. unfold store_bytes.
  rewrite take_take, Nat.min_l by done.
  by rewrite <- app_assoc, take_app_length.
Qed.

Lemma store_SQLLEN_length old (value : list ascii) :
  Z.of_nat (length value) < 2 ^ 63 ->
  store_SQLLEN old (Some (Z.of_nat (length value)))
  = Z.of_nat (length value).
Proof.
  intros Hsmall. unfold store_SQLLEN, signed. simpl.
  change (2 ^ (64 - 1)) with (2 ^ 63). change (2 ^ 64) with (2 * 2 ^ 63).
  rewrite Z.mod_small; lia.
Qed.

Lemma conclude_value h ret buffer (value : list ascii) w :
  SQL_SUCCEEDED ret = true ->
  Z.of_nat (length value) < 2 ^ 63 ->
  take (length value) buffer = value ->
  (length value <= length buffer)%nat ->
  conclude h (ret, buffer, Z.of_nat (length value)) w
  = (Ret (Expected (Some (string_of_list_ascii value))), w).
Proof.
  intros Hok Hsmall Htake Hfit. unfold conclude. rewrite Hok. simpl.
  assert ((Z.of_nat (length value) =? SQL_NULL_DATA) = false) as ->
    by (apply Z.eqb_neq; unfold SQL_NULL_DATA; lia).
  destruct (Z.of_nat (length value) >? 0) eqn:Hpos.
  - rewrite to_size_t_nonneg by lia.
    destruct (bytes_at_within buffer (Z.of_nat (length value))) as [-> _];
      [lia|].
    by rewrite Nat2Z.id, Htake.
  - assert (length value = 0%nat) as Hzero by lia.
    by apply nil_length_inv in Hzero as ->.
Qed.

(** X7: a text value of at most 1023 bytes that the driver stores in the
    first read, with a success code and its length as the indicator, is
    returned byte for byte (zero bytes inside it included) after that single
    read. *)
Theorem text_value_round_trip this h col w out w1 (value rest : list ascii) :
  objects w !! this = Some h ->
  SQLGetData h col SQL_C_CHAR 1024 w = (Ret out, w1) ->
  SQL_SUCCEEDED (data_ret out) = true ->
  data_target out = value ++ rest ->
  data_indicator out = Some (Z.of_nat (length value)) ->
  (length value <= 1023)%nat ->
  get_data T_string this col w
  = (Ret (Expected (Some (string_of_list_ascii value))), w1).
Proof.
  intros Hlive Hcall Hok Htarget Hind Hfit.
  assert (Hread : final_read h col w
                  = (Ret (data_ret out,
                          store_bytes (vector_of_size 1024) (value ++ rest),
                          Z.of_nat (length value)), w1)).
  { rewrite (final_read_run _ _ _ _ _ Hcall). cbv zeta.
    rewrite Hind, Htarget, store_SQLLEN_length by lia.
    assert ((Z.of_nat (length value) >? 1023) = false) as -> by lia.
    by rewrite andb_false_r. }
  rewrite (get_data_string_run _ _ _ _ _ _ Hlive Hread).
  apply conclude_value; [done | lia | |].
  - apply take_store_bytes_app. rewrite length_vector_of_size. lia.
  - rewrite length_store_bytes, length_vector_of_size. lia.
Qed.

(** X8: after a resize-and-retry the result is what the second read stored:
    when the first indicator is one the buffer can be resized for (the
    indicator plus one does not exceed the vector's maximum size) and the
    second read reports a success code, a value no longer than the first
    indicator and its length as the indicator, that value is returned, and
    nothing of what the first read stored is part of it. *)
Theorem text_value_after_retry this h col w out1 w1 out2 w2
    (value rest : list ascii) :
  objects w !! this = Some h ->
  SQLGetData h col SQL_C_CHAR 1024 w = (Ret out1, w1) ->
  data_ret out1 = SQL_SUCCESS_WITH_INFO ->
  1023 < store_SQLLEN 0 (data_indicator out1) ->
  store_SQLLEN 0 (data_indicator out1) + 1 <= vector_max_size ->
  SQLGetData h col SQL_C_CHAR (store_SQLLEN 0 (data_indicator out1) + 1) w1
  = (Ret out2, w2) ->
  SQL_SUCCEEDED (data_ret out2) = true ->
  data_target out2 = value ++ rest ->
  data_indicator out2 = Some (Z.of_nat (length value)) ->
  Z.of_nat (length value) <= store_SQLLEN 0 (data_indicator out1) ->
  get_data T_string this col w
  = (Ret (Expected (Some (string_of_list_ascii value))), w2).
Proof.
  intros Hlive Hcall1 Hinfo Hbig Hmax Hcall2 Hok Htarget Hind Hfit.
  assert (Hrange : - 2 ^ 63 <= store_SQLLEN 0 (data_indicator out1) < 2 ^ 63)
    by (apply store_SQLLEN_range; lia).
  set (indicator1 := store_SQLLEN 0 (data_indicator out1)) in *.
  assert (Hread : final_read h col w
                  = (Ret (data_ret out2,
                          store_bytes
                            (resized (Z.to_nat (indicator1 + 1))
                               (store_bytes (vector_of_size 1024)
                                  (data_target out1)))
                            (value ++ rest),
                          Z.of_nat (length value)), w2)).
  { rewrite (final_read_run _ _ _ _ _ Hcall1). cbv zeta.
    fold indicator1. rewrite Hinfo.
    assert ((indicator1 >? 1023) = true) as -> by lia. simpl.
    assert ((indicator1 + 1 <=? vector_max_size) = true) as -> by lia.
    rewrite (bind_Ret _ _ _ _ _ Hcall2).
    by rewrite Hind, Htarget, store_SQLLEN_length by lia. }
  rewrite (get_data_string_run _ _ _ _ _ _ Hlive Hread).
  apply conclude_value; [done | lia | |].
  - apply take_store_bytes_app. rewrite length_resized. lia.
  - rewrite length_store_bytes, length_resized. lia.
Qed.

End Operations.

Section PoolBehaviour.

Context {D : Type} `{!Driver D}.

Implicit Types (w : World D) (this : nat) (h : Z).

Lemma driver_connect_run this h connection_string w :
  objects w !! this = Some h ->
  let text := list_ascii_of_string connection_string ++ [NUL] in
  let answer := drv_DriverConnect h text SQL_NTS SQL_DRIVER_NOPROMPT
                  (driver w) in
  let connecting := CallDriverConnect h text SQL_NTS SQL_DRIVER_NOPROMPT in
  driver_connect this connection_string w
  = if SQL_SUCCEEDED answer.1
    then (Ret (Expected tt),
          mkWorld answer.2 (calls w ++ [connecting])
                  (cerr w ++ [LogEstablished]) (objects w) (pool w))
    else unexpected_from h SQL_HANDLE_DBC
           (generic_error (OpConnect connection_string))
           (mkWorld answer.2 (calls w ++ [connecting]) (cerr w) (objects w)
                    (pool w)).
Proof.
  intros Hlive. cbv zeta. unfold driver_connect.
  rewrite (bind_Ret _ _ _ _ _ (get_handle_live _ _ _ Hlive)).
  rewrite bind_eq. unfold SQLDriverConnect. rewrite native_eq.
  by destruct (SQL_SUCCEEDED _).
Qed.

Lemma get_diagnostic_record_never_throws h ty w e w1 :
  get_diagnostic_record h ty w = (Throw e, w1) -> False.
Proof.
  unfold get_diagnostic_record. rewrite bind_eq.
  unfold SQLGetDiagRec. rewrite native_eq.
  by repeat case_match.
Qed.

Lemma driver_connect_never_throws this connection_string w e w1 :
  driver_connect this connection_string w = (Throw e, w1) -> False.
Proof.
  unfold driver_connect. rewrite bind_eq.
  destruct (get_handle this w) as [[h| |] w0] eqn:Hget;
    unfold get_handle in Hget; destruct (objects w !! this); simplify_eq;
    try done.
  rewrite bind_eq. unfold SQLDriverConnect. rewrite native_eq.
  destruct (SQL_SUCCEEDED _); simpl; [done|].
  unfold unexpected_from. rewrite bind_eq.
  destruct (get_diagnostic_record _ _ _) as [[record| |] w2] eqn:Hdiag;
    try done.
  by apply get_diagnostic_record_never_throws in Hdiag.
Qed.

(** The ways [getConnection] ends when it does not leave defined
    behaviour. *)
Lemma getConnection_cases alias connection_string w p r w' :
  pool w = Some p ->
  getConnection alias connection_string w = (r, w') ->
  r <> Undef ->
  (exists c, connections_ p !! alias = Some c /\ r = Ret c /\ w' = w)
  \/ (connections_ p !! alias = None
      /\ exists e,
           r = Throw e
           /\ Connection_ctor (env_ p) (log (LogCreatingNew alias) w).2
              = (Throw e, w'))
  \/ (connections_ p !! alias = None
      /\ exists new_conn w1 res w2,
           Connection_ctor (env_ p) (log (LogCreatingNew alias) w).2
           = (Ret new_conn, w1)
           /\ driver_connect new_conn connection_string w1 = (Ret res, w2)).
Proof.
  intros Hpool Hrun Hdefined.
  destruct (connections_ p !! alias) as [it|] eqn:Hlookup.
  { left. rewrite (getConnection_hit _ _ _ _ _ Hpool Hlookup) in Hrun.
    injection Hrun as <- <-. by exists it. }
  right.
  destruct (Connection_ctor (env_ p) (log (LogCreatingNew alias) w).2)
    as [[new_conn| |] w0] eqn:Hctor.
  - right. split; [done|].
    destruct (driver_connect new_conn connection_string w0)
      as [[res| |] w2] eqn:Hconnect.
    + by exists new_conn, w0, res, w2.
    + exfalso. by apply driver_connect_never_throws in Hconnect.
    + exfalso. revert Hrun. unfold getConnection.
      rewrite (bind_Ret _ _ _ _ _ (this_pool_run _ _ Hpool)), Hlookup.
      rewrite bind_eq, log_run. rewrite log_run in Hctor. simpl in Hctor.
      rewrite (bind_Ret _ _ _ _ _ Hctor).
      unfold finally. rewrite bind_eq, Hconnect.
      by intros [= <- _].
  - left. split; [done|]. exists e.
    rewrite (getConnection_setup_failure _ _ _ _ _ _ Hpool Hlookup Hctor)
      in Hrun.
    by injection Hrun as <- <-.
  - exfalso. revert Hrun. unfold getConnection.
    rewrite (bind_Ret _ _ _ _ _ (this_pool_run _ _ Hpool)), Hlookup.
    rewrite bind_eq, log_run. rewrite log_run in Hctor. simpl in Hctor.
    rewrite bind_eq, Hctor. by intros [= <- _].
Qed.

Lemma Connection_ctor_inv env w r w1 :
  Connection_ctor env w = (r, w1) ->
  r <> Undef ->
  exists eh,
    objects w !! env = Some eh
    /\ calls w1 = calls w ++ [CallAllocHandle SQL_HANDLE_DBC eh]
    /\ cerr w1 = cerr w /\ pool w1 = pool w
    /\ driver w1 = (drv_AllocHandle SQL_HANDLE_DBC eh (driver w)).2
    /\ let answer := (drv_AllocHandle SQL_HANDLE_DBC eh (driver w)).1 in
       if SQL_SUCCEEDED answer.1
       then r = Ret (fresh_address w)
            /\ objects w1
               = <[fresh_address w := store_out nullptr answer.2]> (objects w)
       else r = Throw (allocation_failure Connection)
            /\ objects w1 = objects w.
Proof.
  destruct (objects w !! env) as [eh|] eqn:Henv.
  - change (Connection_ctor env w) with (construct Connection env w).
    rewrite (construct_child_run Connection env eh w); [|done..].
    cbv zeta. intros Hrun _. exists eh. split; [done|].
    destruct (SQL_SUCCEEDED _); injection Hrun as <- <-; done.
  - unfold Connection_ctor. rewrite bind_eq.
    unfold Environment_get, get_handle. rewrite Henv. by intros [= <- _].
Qed.

(** What [getConnection] does to the cache and to the live objects. *)
Lemma getConnection_effect alias connection_string w p r w' :
  pool w = Some p ->
  getConnection alias connection_string w = (r, w') ->
  r <> Undef ->
  (objects w' = objects w /\ pool w' = Some p
   /\ forall c, r = Ret c -> connections_ p !! alias = Some c)
  \/ (exists c h,
        r = Ret c /\ connections_ p !! alias = None
        /\ objects w !! c = None
        /\ objects w' = <[c := h]> (objects w)
        /\ pool w' = Some (mkPool (env_ p)
                             (<[alias := c]> (connections_ p)))).
Proof.
  intros Hpool Hrun Hdefined.
  destruct (getConnection_cases _ _ _ _ _ _ Hpool Hrun Hdefined)
    as [(c & Hhit & -> & ->)
       | [(Hmiss & e & -> & Hctor)
         | (Hmiss & new_conn & w1 & res & w2 & Hctor & Hconnect)]].
  - left. split; [done|]. split; [done|]. by intros ? [= <-].
  - left. destruct (Connection_ctor_inv _ _ _ _ Hctor) as (eh & _ & _ & _
      & Hp & _ & Hcase); [done|].
    cbv zeta in Hcase. destruct (SQL_SUCCEEDED _);
      destruct Hcase as [? Hobj]; [done|].
    split; [done|]. split; [by rewrite Hp|]. done.
  - destruct (Connection_ctor_inv _ _ _ _ Hctor) as (eh & _ & _ & _
      & Hp & _ & Hcase); [done|].
    cbv zeta in Hcase. destruct (SQL_SUCCEEDED _);
      destruct Hcase as [[= Hnew] Hobj1]; simpl in Hnew, Hobj1.
    change (fresh_address (log (LogCreatingNew alias) w).2)
      with (fresh_address w) in *.
    pose proof (fresh_address_free w) as Hfree.
    destruct (driver_connect_frame _ _ _ _ _ Hconnect) as (_ & Hobj2).
    destruct (getConnection_miss _ _ _ _ _ _ _ _ Hpool Hmiss Hctor Hconnect)
      as (h & d & Hlive2 & Heq).
    rewrite Heq in Hrun. subst new_conn.
    destruct res as [[]|e]; injection Hrun as <- <-.
    + right. exists (fresh_address w2), h.
      pose proof (live_not_fresh _ _ _ Hlive2) as Hne.
      pose proof (fresh_address_free w2) as Hfree2.
      rewrite Hobj2, Hobj1 in Hfree2.
      rewrite lookup_insert_ne in Hfree2 by done.
      split; [done|]. split; [done|]. split; [done|]. split; [|done].
      simpl. rewrite Hobj2, Hobj1.
      rewrite delete_insert_ne, insert_insert_eq, delete_insert_eq by done.
      by rewrite delete_id.
    + left. simpl. split; [|done].
      rewrite Hobj2, Hobj1. by rewrite delete_insert_id.
Qed.

(** The cache after a call of [getConnection]. *)
Lemma getConnection_cache alias connection_string w p r w' :
  pool w = Some p ->
  getConnection alias connection_string w = (r, w') ->
  r <> Undef ->
  exists p',
    pool w' = Some p'
    /\ env_ p' = env_ p
    /\ (forall a c, connections_ p !! a = Some c ->
        connections_ p' !! a = Some c)
    /\ (forall a, a <> alias -> connections_ p' !! a = connections_ p !! a)
    /\ (forall c, r = Ret c -> connections_ p' !! alias = Some c)
    /\ ((forall c, r <> Ret c) -> p' = p).
Proof.
  intros Hpool Hrun Hdefined.
  destruct (getConnection_effect _ _ _ _ _ _ Hpool Hrun Hdefined)
    as [(_ & Hp & Hret) | (c & h & -> & Hmiss & _ & _ & Hp)].
  - exists p. by repeat split.
  - eexists. split; [exact Hp|]. simpl. split; [done|].
    split; [|split; [|split]].
    + intros a c' Ha. destruct (decide (a = alias)) as [-> | Hne].
      * by rewrite Hmiss in Ha.
      * by rewrite lookup_insert_ne.
    + intros a Hne. by rewrite lookup_insert_ne.
    + intros c' [= <-]. by rewrite lookup_insert_eq.
    + intros Hnone. by destruct (Hnone c).
Qed.

(** X9: a call of [getConnection] that returns or throws never removes an
    alias from the cache and never rebinds one; it touches no alias but the
    one requested, leaves the pool's [Environment] in place, and changes the
    cache only when it returns a connection for an alias that was absent. *)
Theorem cache_only_grows alias connection_string w p r w' :
  pool w = Some p ->
  getConnection alias connection_string w = (r, w') ->
  r <> Undef ->
  exists p',
    pool w' = Some p'
    /\ env_ p' = env_ p
    /\ (forall a c, connections_ p !! a = Some c ->
        connections_ p' !! a = Some c)
    /\ (forall a, a <> alias -> connections_ p' !! a = connections_ p !! a)
    /\ (forall c, r = Ret c -> connections_ p' !! alias = Some c)
    /\ ((forall c, r <> Ret c) -> p' = p).
Proof. apply getConnection_cache. Qed.

(** Soundness of the pool and the live objects after a call of
    [getConnection]. *)
Lemma getConnection_sound alias connection_string w r w' :
  pool_sound w ->
  getConnection alias connection_string w = (r, w') ->
  r <> Undef ->
  pool_sound w'
  /\ (forall a h, objects w !! a = Some h -> objects w' !! a = Some h).
Proof.
  intros Hsound Hrun Hdefined.
  destruct (pool w) as [p|] eqn:Hpool;
    [|revert Hrun; unfold getConnection, this_pool;
      rewrite bind_eq, Hpool; by intros [= <- _]].
  destruct (Hsound p Hpool) as [Hlive Hinj].
  destruct (getConnection_effect _ _ _ _ _ _ Hpool Hrun Hdefined)
    as [(Hobj & Hp & _) | (c & h & -> & Hmiss & Hfree & Hobj & Hp)].
  - split; [|intros a h; by rewrite Hobj].
    intros p' Hp'. rewrite Hp in Hp'. injection Hp' as <-.
    split; [|done]. intros a c Ha. rewrite Hobj. by eapply Hlive.
  - assert (Hkept : forall a h', objects w !! a = Some h' ->
                                 objects w' !! a = Some h').
    { intros a h' Ha. rewrite Hobj, lookup_insert_ne; [done|].
      intros <-. by rewrite Hfree in Ha. }
    split; [|done].
    intros p' Hp'. rewrite Hp in Hp'. injection Hp' as <-. simpl.
    split.
    + intros a c' Ha. rewrite Hobj.
      destruct (decide (a = alias)) as [-> | Hne].
      * rewrite lookup_insert_eq in Ha. injection Ha as <-.
        rewrite lookup_insert_eq. by eexists.
      * rewrite lookup_insert_ne in Ha by done.
        destruct (Hlive _ _ Ha) as [h' Hc'].
        exists h'. rewrite lookup_insert_ne; [done|].
        intros <-. by rewrite Hfree in Hc'.
    + assert (Hold : forall a, connections_ p !! a = Some c -> False).
      { intros a Ha. destruct (Hlive _ _ Ha) as [h' Hc'].
        by rewrite Hfree in Hc'. }
      intros a b c' Ha Hb.
      destruct (decide (a = alias)) as [-> | Hna];
        destruct (decide (b = alias)) as [-> | Hnb]; [done| | |].
      * rewrite lookup_insert_eq in Ha. injection Ha as <-.
        rewrite lookup_insert_ne in Hb by done. by destruct (Hold b).
      * rewrite lookup_insert_eq in Hb. injection Hb as <-.
        rewrite lookup_insert_ne in Ha by done. by destruct (Hold a).
      * rewrite lookup_insert_ne in Ha, Hb by done. by eapply Hinj.
Qed.

(** X10: a call of [getConnection] that returns or throws keeps the pool
    sound (every cached alias denotes a live object, distinct aliases
    denote distinct objects) and leaves every object that was alive before
    the call alive with the handle it held: no cached connection is closed,
    moved or replaced. *)
Theorem getConnection_keeps_the_pool_sound alias connection_string w r w' :
  pool_sound w ->
  getConnection alias connection_string w = (r, w') ->
  r <> Undef ->
  pool_sound w'
  /\ (forall a h, objects w !! a = Some h -> objects w' !! a = Some h).
Proof. apply getConnection_sound. Qed.

(** X11: on a thread whose pool is sound, two calls of [getConnection] for
    different aliases return different [Connection] objects. *)
Theorem different_aliases_different_connections
    alias1 alias2 S1 S2 w c1 w1 c2 w2 :
  pool_sound w ->
  alias1 <> alias2 ->
  getConnection alias1 S1 w = (Ret c1, w1) ->
  getConnection alias2 S2 w1 = (Ret c2, w2) ->
  c1 <> c2.
Proof.
  intros Hsound Hne Hfirst Hsecond.
  destruct (getConnection_sound _ _ _ _ _ Hsound Hfirst)
    as [Hsound1 _]; [done|].
  destruct (getConnection_sound _ _ _ _ _ Hsound1 Hsecond)
    as [Hsound2 _]; [done|].
  destruct (getConnection_returns_cached _ _ _ _ _ Hfirst)
    as (p1 & Hp1 & Hc1).
  destruct (getConnection_cache _ _ _ _ _ _ Hp1 Hsecond)
    as (p2 & Hp2 & _ & Hkept & _ & Hret & _); [done|].
  destruct (Hsound2 p2 Hp2) as [_ Hinj].
  intros <-. apply Hne. apply (Hinj alias1 alias2 c1); [by apply Hkept|].
  by apply Hret.
Qed.

(** The miss branch up to the answer of [driver_connect], when the new
    connection object can be allocated. *)
Lemma getConnection_allocates alias w p eh :
  pool w = Some p ->
  objects w !! env_ p = Some eh ->
  let allocation := drv_AllocHandle SQL_HANDLE_DBC eh (driver w) in
  SQL_SUCCEEDED allocation.1.1 = true ->
  Connection_ctor (env_ p) (log (LogCreatingNew alias) w).2
  = (Ret (fresh_address w),
     mkWorld allocation.2 (calls w ++ [CallAllocHandle SQL_HANDLE_DBC eh])
             (cerr w ++ [LogCreatingNew alias])
             (<[fresh_address w := store_out nullptr allocation.1.2]>
                (objects w))
             (pool w)).
Proof.
  intros Hpool Henv allocation Hok.
  change (Connection_ctor (env_ p) (log (LogCreatingNew alias) w).2)
    with (construct Connection (env_ p) (log (LogCreatingNew alias) w).2).
  rewrite (construct_child_run Connection (env_ p) eh); [|done..].
  cbv zeta. simpl. fold allocation. by rewrite Hok.
Qed.

(** X12: a miss whose connection attempt the driver refuses makes exactly
    these native calls: the allocation of the connection handle, the
    connect, the fetch of the diagnostics and then the release of the handle
    just allocated (disconnect and free, once); it throws the pool's error
    and leaves the live objects and the cache as they were. *)
Theorem failed_attempt_releases_its_handle alias S w p eh r w' :
  pool w = Some p ->
  connections_ p !! alias = None ->
  objects w !! env_ p = Some eh ->
  let allocation := drv_AllocHandle SQL_HANDLE_DBC eh (driver w) in
  let h := store_out nullptr allocation.1.2 in
  let text := list_ascii_of_string S ++ [NUL] in
  let connection :=
    drv_DriverConnect h text SQL_NTS SQL_DRIVER_NOPROMPT allocation.2 in
  SQL_SUCCEEDED allocation.1.1 = true ->
  SQL_SUCCEEDED connection.1 = false ->
  getConnection alias S w = (r, w') ->
  r <> Undef ->
  (exists e, r = Throw (ConnectionPoolError (pool_error_message alias e)))
  /\ objects w' = objects w
  /\ pool w' = Some p
  /\ calls w'
     = calls w
       ++ [CallAllocHandle SQL_HANDLE_DBC eh;
           CallDriverConnect h text SQL_NTS SQL_DRIVER_NOPROMPT;
           CallGetDiagRec SQL_HANDLE_DBC h 1 SQL_MAX_MESSAGE_LENGTH]
       ++ release_calls Connection h
  /\ cerr w' = cerr w ++ LogCreatingNew alias :: release_log Connection h.
Proof.
  intros Hpool Hmiss Henv allocation h text connection Halloc Hrefused
    Hrun Hdefined.
  pose proof (getConnection_allocates alias w p eh Hpool Henv Halloc)
    as Hctor.
  fold allocation in Hctor. fold h in Hctor.
  set (w1 := mkWorld allocation.2
               (calls w ++ [CallAllocHandle SQL_HANDLE_DBC eh])
               (cerr w ++ [LogCreatingNew alias])
               (<[fresh_address w := h]> (objects w)) (pool w)) in *.
  assert (Hlive1 : objects w1 !! fresh_address w = Some h)
    by apply lookup_insert_eq.
  pose proof (driver_connect_run _ _ S _ Hlive1) as Hconnect.
  cbv zeta in Hconnect. simpl in Hconnect.
  fold text in Hconnect. fold connection in Hconnect.
  rewrite Hrefused in Hconnect.
  destruct (getConnection_cases _ _ _ _ _ _ Hpool Hrun Hdefined)
    as [(c & Hhit & _)
       | [(_ & e & _ & Hthrow)
         | (_ & new_conn & w1' & res & w2 & Hctor' & Hconnect')]].
  - by rewrite Hmiss in Hhit.
  - by rewrite Hctor in Hthrow.
  - rewrite Hctor in Hctor'. injection Hctor' as <- <-.
    rewrite Hconnect in Hconnect'.
    pose proof (unexpected_from_only_calls _ _ _ _ _ _ Hconnect')
      as (Hcalls2 & Hobj2 & Hpool2 & Hcerr2).
    assert (exists e, res = Unexpected e) as [e ->].
    { destruct res as [[]|e]; [|by exists e].
      exfalso. eapply (unexpected_from_not_expected (T := unit)).
      by rewrite Hconnect'. }
    rewrite <- Hconnect in Hconnect'.
    destruct (getConnection_miss _ _ _ _ _ _ _ _ Hpool Hmiss Hctor Hconnect')
      as (h' & d & Hlive2 & Heq).
    rewrite Heq in Hrun. injection Hrun as <- <-.
    assert (h' = h) as ->.
    { rewrite Hobj2 in Hlive2. simpl in Hlive2.
      rewrite lookup_insert_eq in Hlive2. by injection Hlive2. }
    pose proof (fresh_address_free w) as Hfree.
    split; [by exists e|]. simpl.
    split; [by rewrite Hobj2; simpl; rewrite delete_insert_id|].
    split; [done|]. split.
    + rewrite Hcalls2. simpl. by rewrite <- !app_assoc.
    + rewrite Hcerr2. simpl. by rewrite <- app_assoc.
Qed.

(** X13: a miss whose allocation and connection the driver grants makes
    exactly two native calls, the allocation of the connection handle and
    the connect, and releases nothing; the connection returned is a new
    object that holds the handle the driver supplied, cached under the
    alias, and no other object or alias has changed. *)
Theorem granted_attempt_caches_the_handle alias S w p eh :
  pool w = Some p ->
  connections_ p !! alias = None ->
  objects w !! env_ p = Some eh ->
  let allocation := drv_AllocHandle SQL_HANDLE_DBC eh (driver w) in
  let h := store_out nullptr allocation.1.2 in
  let text := list_ascii_of_string S ++ [NUL] in
  let connection :=
    drv_DriverConnect h text SQL_NTS SQL_DRIVER_NOPROMPT allocation.2 in
  SQL_SUCCEEDED allocation.1.1 = true ->
  SQL_SUCCEEDED connection.1 = true ->
  exists c w',
    getConnection alias S w = (Ret c, w')
    /\ objects w !! c = None
    /\ objects w' = <[c := h]> (objects w)
    /\ pool w' = Some (mkPool (env_ p) (<[alias := c]> (connections_ p)))
    /\ calls w'
       = calls w
         ++ [CallAllocHandle SQL_HANDLE_DBC eh;
             CallDriverConnect h text SQL_NTS SQL_DRIVER_NOPROMPT]
    /\ cerr w' = cerr w ++ [LogCreatingNew alias; LogEstablished]
    /\ driver w' = connection.2.
Proof.
  intros Hpool Hmiss Henv allocation h text connection Halloc Hgranted.
  pose proof (getConnection_allocates alias w p eh Hpool Henv Halloc)
    as Hctor.
  fold allocation in Hctor. fold h in Hctor.
  set (w1 := mkWorld allocation.2
               (calls w ++ [CallAllocHandle SQL_HANDLE_DBC eh])
               (cerr w ++ [LogCreatingNew alias])
               (<[fresh_address w := h]> (objects w)) (pool w)) in *.
  assert (Hlive1 : objects w1 !! fresh_address w = Some h)
    by apply lookup_insert_eq.
  pose proof (driver_connect_run _ _ S _ Hlive1) as Hconnect.
  cbv zeta in Hconnect. simpl in Hconnect.
  fold text in Hconnect. fold connection in Hconnect.
  rewrite Hgranted in Hconnect.
  destruct (getConnection_miss _ _ _ _ _ _ _ _ Hpool Hmiss Hctor Hconnect)
    as (h' & d & Hlive2 & Heq).
  simpl in Hlive2. rewrite lookup_insert_eq in Hlive2.
  injection Hlive2 as <-.
  rewrite Heq. simpl.
  set (w2 := mkWorld connection.2
               (calls w
                ++ [CallAllocHandle SQL_HANDLE_DBC eh]
                ++ [CallDriverConnect h text SQL_NTS SQL_DRIVER_NOPROMPT])
               (cerr w ++ [LogCreatingNew alias] ++ [LogEstablished])
               (<[fresh_address w := h]> (objects w)) (pool w)).
  pose proof (fresh_address_free w) as Hfree.
  pose proof (fresh_address_free w2) as Hfree2.
  assert (Hne : fresh_address w2 <> fresh_address w).
  { apply (live_not_fresh _ h). apply lookup_insert_eq. }
  simpl in Hfree2. rewrite lookup_insert_ne in Hfree2 by done.
  rewrite <- !app_assoc.
  exists (fresh_address w2). eexists. split; [reflexivity|]. simpl.
  split; [done|]. split; [|done].
  rewrite delete_insert_ne, insert_insert_eq, delete_insert_eq by done.
  by rewrite delete_id.
Qed.

Lemma environment_allocations_app l1 l2 :
  environment_allocations (l1 ++ l2)
  = (environment_allocations l1 + environment_allocations l2)%nat.
Proof.
  unfold environment_allocations. by rewrite List.filter_app, length_app.
Qed.

Lemma environment_allocations_release k h :
  environment_allocations (release_calls k h) = 0%nat.
Proof. unfold release_calls. by destruct (h =? nullptr), k. Qed.

(** [getConnection] never asks the driver for an environment. *)
Lemma getConnection_allocates_no_environment alias S w p r w' :
  pool w = Some p ->
  getConnection alias S w = (r, w') ->
  r <> Undef ->
  environment_allocations (calls w') = environment_allocations (calls w).
Proof.
  intros Hpool Hrun Hdefined.
  destruct (getConnection_cases _ _ _ _ _ _ Hpool Hrun Hdefined)
    as [(c & _ & _ & ->)
       | [(Hmiss & e & -> & Hctor)
         | (Hmiss & new_conn & w1 & res & w2 & Hctor & Hconnect)]];
    [done| |].
  - destruct (Connection_ctor_inv _ _ _ _ Hctor) as (eh & _ & Hcalls & _);
      [done|].
    rewrite Hcalls, environment_allocations_app. simpl.
    unfold environment_allocations. simpl. lia.
  - destruct (Connection_ctor_inv _ _ _ _ Hctor)
      as (eh & _ & Hcalls1 & _); [done|].
    destruct (Connection_ctor_returns _ _ _ _ Hctor) as (_ & h1 & Hlive1).
    assert (Hcalls2 : environment_allocations (calls w2)
                      = environment_allocations (calls w1)).
    { pose proof (driver_connect_run _ _ S _ Hlive1) as Heq.
      cbv zeta in Heq. rewrite Heq in Hconnect.
      destruct (SQL_SUCCEEDED _).
      - injection Hconnect as _ <-. simpl.
        rewrite environment_allocations_app.
        unfold environment_allocations at 2. simpl. lia.
      - apply unexpected_from_only_calls in Hconnect as (-> & _). simpl.
        rewrite !environment_allocations_app.
        unfold environment_allocations at 2 3. simpl. lia. }
    destruct (getConnection_miss _ _ _ _ _ _ _ _ Hpool Hmiss Hctor Hconnect)
      as (h & d & _ & Heq).
    rewrite Heq in Hrun.
    destruct res as [[]|e]; injection Hrun as <- <-; simpl.
    + rewrite Hcalls2, Hcalls1, environment_allocations_app. simpl.
      unfold environment_allocations at 2. simpl. lia.
    + rewrite environment_allocations_app, environment_allocations_release.
      rewrite Hcalls2, Hcalls1, environment_allocations_app. simpl.
      unfold environment_allocations at 2. simpl. lia.
Qed.

(** X14: [getThreadLocalConnection] builds the pool of a thread once.  On
    a thread that has its pool it is [getConnection] on that pool: the
    pool's [Environment] stays the same object and the driver is asked for
    no environment handle.  On a thread without a pool it asks for exactly
    one environment handle; when the [Environment] cannot be constructed it
    throws the setup failure, the thread is left without a pool and without
    any new object, and when it can, the thread has a pool whose
    [Environment] is alive when the call returns or throws. *)
Theorem thread_local_pool_is_built_once alias connection_string w r w' :
  getThreadLocalConnection alias connection_string w = (r, w') ->
  r <> Undef ->
  match pool w with
  | Some p =>
      getThreadLocalConnection alias connection_string w = getConnection alias connection_string w
      /\ (exists p', pool w' = Some p' /\ env_ p' = env_ p)
      /\ environment_allocations (calls w')
         = environment_allocations (calls w)
  | None =>
      environment_allocations (calls w')
      = (environment_allocations (calls w) + 1)%nat
      /\ ((pool w' = None /\ objects w' = objects w
           /\ exists message, r = Throw (OdbcSetupError message))
          \/ (exists p', pool w' = Some p'
                        /\ env_ p' = fresh_address w
                        /\ is_Some (objects w' !! env_ p')))
  end.
Proof.
  intros Hrun Hdefined.
  unfold getThreadLocalConnection in Hrun |- *.
  rewrite bind_eq in Hrun. rewrite bind_eq.
  destruct (pool w) as [p|] eqn:Hpool.
  - split; [done|].
    destruct (getConnection_cache _ _ _ _ _ _ Hpool Hrun Hdefined)
      as (p' & Hp' & Henv & _).
    split; [by exists p'|].
    by eapply getConnection_allocates_no_environment.
  - rewrite bind_eq, Environment_ctor_run in Hrun. cbv zeta in Hrun.
    destruct (SQL_SUCCEEDED _).
    + destruct (SQL_SUCCEEDED _).
      * cbv beta iota delta [set_pool] in Hrun.
        match type of Hrun with
        | getConnection _ _ ?w0 = _ => set (w1 := w0) in *
        end.
        assert (Hpool1 : pool w1 = Some (mkPool (fresh_address w) ∅))
          by done.
        assert (Hsound1 : pool_sound w1).
        { intros p1 Hp1. rewrite Hpool1 in Hp1. injection Hp1 as <-.
          split; intros ?; intros; simpl in *; by simplify_map_eq. }
        destruct (getConnection_cache _ _ _ _ _ _ Hpool1 Hrun Hdefined)
          as (p' & Hp' & Henv & _).
        destruct (getConnection_sound _ _ _ _ _ Hsound1 Hrun
                    Hdefined) as [_ Hkept].
        split.
        { rewrite (getConnection_allocates_no_environment _ _ _ _ _ _ Hpool1
                     Hrun Hdefined).
          simpl. rewrite environment_allocations_app.
          unfold environment_allocations at 2. simpl. lia. }
        right. exists p'. split; [done|]. split; [done|].
        rewrite Henv. simpl. eexists. apply Hkept. simpl.
        apply lookup_insert_eq.
      * injection Hrun as <- <-. simpl. split.
        { rewrite environment_allocations_app.
          unfold environment_allocations at 2. simpl. lia. }
        left. split; [done|]. split; [done|]. by eexists.
    + injection Hrun as <- <-. simpl. split.
      { rewrite environment_allocations_app.
        unfold environment_allocations at 2. simpl. lia. }
      left. split; [done|]. split; [done|]. by eexists.
Qed.

(** [disconnect] changes neither the objects nor the pool. *)
Lemma disconnect_frame this w r w1 :
  disconnect this w = (r, w1) ->
  objects w1 = objects w /\ pool w1 = pool w.
Proof.
  unfold disconnect. rewrite bind_eq. unfold get_handle.
  destruct (objects w !! this) as [h|]; [|by intros [= _ <-]].
  rewrite bind_eq, log_run, bind_eq. unfold SQLDisconnect.
  rewrite native_eq. simpl.
  destruct (SQL_SUCCEEDED _); simpl.
  - by intros [= _ <-].
  - intros E. by apply unexpected_from_only_calls in E as (_ & Ho & Hp & _).
Qed.

(** X17: the pool does not notice an explicit [disconnect]: after a cached
    connection has been disconnected, whatever the driver answered,
    [getConnection] for its alias still returns the same object, with the
    handle it held, without any native call: it neither reconnects nor
    replaces the closed connection. *)
Theorem disconnected_connection_stays_cached
    alias S1 S2 w c w1 r w2 :
  getConnection alias S1 w = (Ret c, w1) ->
  disconnect c w1 = (r, w2) ->
  getConnection alias S2 w2 = (Ret c, w2)
  /\ objects w2 !! c = objects w1 !! c
  /\ pool w2 = pool w1.
Proof.
  intros Hfirst Hdisconnect.
  destruct (getConnection_returns_cached _ _ _ _ _ Hfirst)
    as (p1 & Hp1 & Hc1).
  destruct (disconnect_frame _ _ _ _ Hdisconnect) as [Hobjects Hpool].
  split; [|split; [by rewrite Hobjects | done]].
  apply getConnection_hit with (p := p1); [by rewrite Hpool | done].
Qed.

(** X18: a miss whose connection handle the driver refuses ends with the
    wrapper's [OdbcSetupError], not with the pool's error: the allocation is
    the only native call, no connection is attempted, and the live objects
    and the cache are as they were. *)
Theorem refused_handle_is_a_setup_error alias S w p eh :
  pool w = Some p ->
  connections_ p !! alias = None ->
  objects w !! env_ p = Some eh ->
  SQL_SUCCEEDED (drv_AllocHandle SQL_HANDLE_DBC eh (driver w)).1.1 = false ->
  exists w',
    getConnection alias S w
    = (Throw (OdbcSetupError "ODBC: Failed to allocate connection handle."),
       w')
    /\ objects w' = objects w
    /\ pool w' = Some p
    /\ calls w' = calls w ++ [CallAllocHandle SQL_HANDLE_DBC eh]
    /\ cerr w' = cerr w ++ [LogCreatingNew alias].
Proof.
  intros Hpool Hmiss Henv Hrefused.
  eexists. split.
  - eapply getConnection_setup_failure; [done..|].
    change (Connection_ctor (env_ p) (log (LogCreatingNew alias) w).2)
      with (construct Connection (env_ p) (log (LogCreatingNew alias) w).2).
    rewrite (construct_child_run Connection (env_ p) eh); [|done..].
    cbv zeta. simpl. rewrite Hrefused. reflexivity.
  - by simpl.
Qed.

End PoolBehaviour.

Section TestProgramProperties.

Context {D : Type} `{!Driver D}.

Implicit Types (w : World D) (c : Console D) (h : Z).

Lemma bind_P_eq {A B} (m : P D A) (k : A -> P D B) c :
  (m ≫= k) c
  = match m c with
    | (Returns a, c') => k a c'
    | (Throws e, c') => (Throws e, c')
    | (Undefined, c') => (Undefined, c')
    end.
Proof. reflexivity. Qed.

Lemma run_eq {A} (m : M D A) c :
  run m c
  = match m (world c) with
    | (Ret a, w) => (Returns a, mkConsole w (cout c))
    | (Throw e, w) => (Throws (wrapper_exception e), mkConsole w (cout c))
    | (Undef, w) => (Undefined, mkConsole w (cout c))
    end.
Proof. reflexivity. Qed.

Lemma row_count_run stmt h w ret out w1 :
  objects w !! stmt = Some h ->
  SQLRowCount h w = (Ret (ret, out), w1) ->
  row_count stmt w
  = if SQL_SUCCEEDED ret then (Ret (Expected (store_out 0 out)), w1)
    else unexpected_from h SQL_HANDLE_STMT (generic_error OpRowCount) w1.
Proof.
  intros Hlive Hcall. unfold row_count.
  rewrite (bind_Ret _ _ _ _ _ (get_handle_live _ _ _ Hlive)).
  rewrite (bind_Ret _ _ _ _ _ Hcall). by destruct (SQL_SUCCEEDED ret).
Qed.

Lemma unexpected_from_never_throws {T} h ty fallback w e w1 :
  unexpected_from (T := T) h ty fallback w = (Throw e, w1) -> False.
Proof.
  unfold unexpected_from. rewrite bind_eq.
  destruct (get_diagnostic_record h ty w) as [[record| |] w2] eqn:E;
    try done.
  by apply get_diagnostic_record_never_throws in E.
Qed.

(** X15: [handle_execute_result] accepts a command that succeeded without
    any native call; for a command that failed it asks for the row count
    and accepts the command exactly when that succeeds with the count -1,
    writing one line to [std::cout]; otherwise it throws
    [std::runtime_error] whose message names the command and carries the
    error of the command itself, not that of the row count. *)
Theorem failed_command_is_accepted_on_no_row_count
    stmt h error command c ret out w1 :
  objects (world c) !! stmt = Some h ->
  SQLRowCount h (world c) = (Ret (ret, out), w1) ->
  let refusal :=
    std_runtime_error
      ("Setup failed on command '" +:+ command +:+ "': "
       +:+ to_string error) in
  handle_execute_result stmt (Expected tt) command c = (Returns true, c)
  /\ (SQL_SUCCEEDED ret = true -> store_out 0 out = -1 ->
      exists line,
        handle_execute_result stmt (Unexpected error) command c
        = (Returns true, mkConsole w1 (cout c ++ [line])))
  /\ (SQL_SUCCEEDED ret = true -> store_out 0 out <> -1 ->
      handle_execute_result stmt (Unexpected error) command c
      = (Throws refusal, mkConsole w1 (cout c)))
  /\ (SQL_SUCCEEDED ret = false ->
      forall r c',
        handle_execute_result stmt (Unexpected error) command c = (r, c') ->
        r <> Undefined ->
        r = Throws refusal /\ cout c' = cout c
        /\ only_calls w1 (world c')
             [CallGetDiagRec SQL_HANDLE_STMT h 1 SQL_MAX_MESSAGE_LENGTH]).
Proof.
  intros Hlive Hcall refusal.
  pose proof (row_count_run _ _ _ _ _ _ Hlive Hcall) as Hcount.
  split; [done|].
  unfold handle_execute_result. rewrite bind_P_eq, run_eq, Hcount.
  split; [|split].
  - intros -> Hminus. rewrite Hminus. simpl. by eexists.
  - intros -> Hother. apply Z.eqb_neq in Hother. by rewrite Hother.
  - intros -> r c'.
    destruct (unexpected_from (T := Z) h SQL_HANDLE_STMT
                (generic_error OpRowCount) w1) as [[[count|e]| |] w2] eqn:E.
    + exfalso. eapply (unexpected_from_not_expected (T := Z)).
      by rewrite E.
    + apply unexpected_from_only_calls in E.
      by intros [= <- <-].
    + by apply unexpected_from_never_throws in E.
    + by intros [= <- <-].
Qed.

Lemma statement_work_refl hs c : statement_work hs c c.
Proof.
  repeat split. exists [], []. by rewrite !app_nil_r.
Qed.

Lemma statement_work_trans hs c1 c2 c3 :
  statement_work hs c1 c2 -> statement_work hs c2 c3 ->
  statement_work hs c1 c3.
Proof.
  intros (Ho1 & Hp1 & He1 & a1 & l1 & Hc1 & Hf1 & Hl1)
         (Ho2 & Hp2 & He2 & a2 & l2 & Hc2 & Hf2 & Hl2).
  split; [congruence|]. split; [congruence|]. split; [congruence|].
  exists (a1 ++ a2), (l1 ++ l2).
  split; [by rewrite Hc2, Hc1, app_assoc|].
  split; [by apply Forall_app|]. by rewrite Hl2, Hl1, app_assoc.
Qed.

Lemma statement_work_calls hs w w1 lines0 (added : list Call) :
  only_calls w w1 added ->
  Forall (on_statement hs) added ->
  statement_work hs (mkConsole w lines0) (mkConsole w1 lines0).
Proof.
  intros (Hc & Ho & Hp & He) Hall.
  split; [done|]. split; [done|]. split; [done|].
  exists added, []. by rewrite app_nil_r.
Qed.

Lemma execute_direct_work stmt hs query c r c' :
  objects (world c) !! stmt = Some hs ->
  run (execute_direct stmt query) c = (r, c') ->
  r <> Undefined ->
  statement_work hs c c' /\ exists result, r = Returns result.
Proof.
  intros Hlive Hrun Hdefined. destruct c as [w lines0]. simpl in Hlive.
  revert Hrun. rewrite run_eq. simpl. unfold execute_direct.
  rewrite (bind_Ret _ _ _ _ _ (get_handle_live _ _ _ Hlive)).
  rewrite bind_eq.
  destruct (SQLExecDirect _ _ _ w) as [r0 w1] eqn:Hcall.
  pose proof Hcall as Hcall'. unfold SQLExecDirect in Hcall'.
  rewrite native_eq in Hcall'. injection Hcall' as <- _.
  apply native_only_calls in Hcall.
  assert (Hwork1 : statement_work hs (mkConsole w lines0)
                     (mkConsole w1 lines0)).
  { eapply statement_work_calls; [done|]. by repeat constructor. }
  destruct (SQL_SUCCEEDED _); simpl.
  - intros [= <- <-]. split; [done|]. by eexists.
  - destruct (unexpected_from (T := unit) hs SQL_HANDLE_STMT
                (mkOdbcError "HY000" 0 "Unknown execution error") w1)
      as [[result| |] w2] eqn:E.
    + intros [= <- <-]. split; [|by eexists].
      eapply statement_work_trans; [done|].
      eapply statement_work_calls;
        [by eapply unexpected_from_only_calls|].
      by repeat constructor.
    + by apply unexpected_from_never_throws in E.
    + by intros [= <- <-].
Qed.

Lemma handle_execute_result_work stmt hs result command c r c' :
  objects (world c) !! stmt = Some hs ->
  handle_execute_result stmt result command c = (r, c') ->
  r <> Undefined ->
  statement_work hs c c'
  /\ (r = Returns true \/ exists what, r = Throws (std_runtime_error what)).
Proof.
  intros Hlive Hrun Hdefined. destruct c as [w lines0]. simpl in Hlive.
  destruct result as [[]|error].
  { injection Hrun as <- <-. split; [apply statement_work_refl | by left]. }
  revert Hrun. unfold handle_execute_result.
  rewrite bind_P_eq, run_eq. simpl.
  destruct (SQLRowCount hs w) as [r0 w1] eqn:Hcall.
  pose proof Hcall as Hcall'. unfold SQLRowCount in Hcall'.
  rewrite native_eq in Hcall'. injection Hcall' as <- _.
  destruct (drv_RowCount hs (driver w)) as [[ret out] d1] eqn:Hanswer.
  simpl in Hcall.
  rewrite (row_count_run _ _ _ _ _ _ Hlive Hcall).
  apply native_only_calls in Hcall.
  assert (Hwork1 : statement_work hs (mkConsole w lines0)
                     (mkConsole w1 lines0)).
  { eapply statement_work_calls; [done|]. by repeat constructor. }
  destruct (SQL_SUCCEEDED ret).
  - destruct (store_out 0 out =? -1).
    + intros [= <- <-]. split; [|by left].
      eapply statement_work_trans; [done|].
      repeat split. eexists [], [_]. by rewrite app_nil_r.
    + intros [= <- <-]. split; [done|]. right. by eexists.
  - destruct (unexpected_from (T := Z) hs SQL_HANDLE_STMT
                (generic_error OpRowCount) w1)
      as [[[count|e]| |] w2] eqn:E.
    + exfalso. eapply (unexpected_from_not_expected (T := Z)).
      by rewrite E.
    + intros [= <- <-]. split; [|right; by eexists].
      eapply statement_work_trans; [done|].
      eapply statement_work_calls;
        [by eapply unexpected_from_only_calls|].
      by repeat constructor.
    + by apply unexpected_from_never_throws in E.
    + by intros [= <- <-].
Qed.

(** One command of [setup_database_schema]: the statement is executed and
    its result handed to [handle_execute_result]; the program goes on with
    [rest] unless the result is refused. *)
Lemma command_step {A} stmt hs query command (rest : P D A) c r c' :
  objects (world c) !! stmt = Some hs ->
  (result ← run (execute_direct stmt query);
   _ ← handle_execute_result stmt result command;
   rest) c = (r, c') ->
  r <> Undefined ->
  exists c1,
    statement_work hs c c1
    /\ ((exists what, r = Throws (std_runtime_error what)) /\ c' = c1
        \/ rest c1 = (r, c')).
Proof.
  intros Hlive Hrun Hdefined. rewrite bind_P_eq in Hrun.
  destruct (run (execute_direct stmt query) c) as [r1 c1] eqn:Hexec.
  assert (Hd1 : r1 <> Undefined).
  { intros ->. injection Hrun as <- _. done. }
  destruct (execute_direct_work _ _ _ _ _ _ Hlive Hexec Hd1)
    as (Hwork1 & result & ->).
  assert (Hlive1 : objects (world c1) !! stmt = Some hs).
  { destruct Hwork1 as (-> & _). done. }
  rewrite bind_P_eq in Hrun.
  destruct (handle_execute_result stmt result command c1) as [r2 c2] eqn:Hh.
  assert (Hd2 : r2 <> Undefined).
  { intros ->. injection Hrun as <- _. done. }
  destruct (handle_execute_result_work _ _ _ _ _ _ _ Hlive1 Hh Hd2)
    as (Hwork2 & [-> | [what ->]]).
  - exists c2. split; [by eapply statement_work_trans | by right].
  - injection Hrun as <- <-. exists c2.
    split; [by eapply statement_work_trans |]. left. split; [by eexists|done].
Qed.

Lemma destroy_dead k this w :
  objects w !! this = None -> destroy k this w = (Undef, w).
Proof.
  intros Hdead.
  destruct k; unfold destroy, Environment_dtor, Connection_dtor,
    Statement_dtor; rewrite bind_eq; unfold get_handle; by rewrite Hdead.
Qed.

(** Leaving a scope whose local is the object [this]: the body's outcome is
    the scope's, and the destructor has released the handle the object held
    when the body ended. *)
Lemma scope_destroy {A} k this (body : P D A) c r c' :
  scope body (destroy k this) c = (r, c') ->
  r <> Undefined ->
  exists c1 h d,
    body c = (r, c1)
    /\ objects (world c1) !! this = Some h
    /\ c' = mkConsole
              (mkWorld d (calls (world c1) ++ release_calls k h)
                       (cerr (world c1) ++ release_log k h)
                       (delete this (objects (world c1)))
                       (pool (world c1)))
              (cout c1).
Proof.
  unfold scope. intros Hrun Hdefined.
  destruct (body c) as [[a|e|] c1]; [| |by injection Hrun as <- _];
    rewrite run_eq in Hrun.
  all: destruct (objects (world c1) !! this) as [h|] eqn:Hlive;
    [destruct (destroy_run k _ _ _ Hlive) as (d & Hd & _); rewrite Hd in Hrun
    |rewrite (destroy_dead _ _ _ Hlive) in Hrun; by injection Hrun as <- _].
  all: injection Hrun as <- <-; by exists c1, h, d.
Qed.

(** X16: however [setup_database_schema] ends, short of undefined
    behaviour, no wrapper object it created is left and the pool is as it
    was: the destructors of the statement, the connection and the
    environment have run on every path.  An exception that leaves it is a
    [std::runtime_error] or the wrapper's [OdbcSetupError].  When it
    returns, the native calls are the three allocations with the
    environment attribute and the connection request, then calls on the
    statement only, then the releases in the reverse order of construction;
    [std::cout] starts with the setup banner and ends with the completion
    banner. *)
Theorem setup_releases_what_it_allocates connection_string c r c' :
  setup_database_schema connection_string c = (r, c') ->
  r <> Undefined ->
  objects (world c') = objects (world c)
  /\ pool (world c') = pool (world c)
  /\ match r with
     | Returns _ =>
         exists he hc hs commands lines,
           calls (world c')
           = calls (world c)
             ++ [CallAllocHandle SQL_HANDLE_ENV SQL_NULL_HANDLE;
                 CallSetEnvAttr he SQL_ATTR_ODBC_VERSION SQL_OV_ODBC3 0;
                 CallAllocHandle SQL_HANDLE_DBC he;
                 CallDriverConnect hc
                   (list_ascii_of_string connection_string ++ [NUL])
                   SQL_NTS SQL_DRIVER_NOPROMPT;
                 CallAllocHandle SQL_HANDLE_STMT hc]
             ++ commands
             ++ release_calls Statement hs
             ++ release_calls Connection hc
             ++ release_calls Environment he
           /\ Forall (on_statement hs) commands
           /\ cout c'
              = cout c ++ ["--- Test Setup ---"] ++ lines
                ++ ["--- Setup Complete ---"]
     | Throws (wrapper_exception e) => exists msg, e = OdbcSetupError msg
     | Throws (std_runtime_error _) => True
     | Undefined => False
     end.
Proof.
  destruct c as [w lines0]. unfold setup_database_schema.
  rewrite bind_P_eq. unfold print at 1. cbv beta iota. simpl world. simpl cout.
  rewrite bind_P_eq, run_eq. simpl world. simpl cout.
  rewrite Environment_ctor_run. cbv zeta.
  destruct (drv_AllocHandle SQL_HANDLE_ENV SQL_NULL_HANDLE (driver w))
    as [[ret0 out0] d0]. simpl fst. simpl snd.
  destruct (SQL_SUCCEEDED ret0);
    [|intros [= <- <-] _; simpl; repeat split; by eexists].
  set (he := store_out nullptr out0).
  destruct (drv_SetEnvAttr he SQL_ATTR_ODBC_VERSION SQL_OV_ODBC3 0 d0)
    as [ret1 d1]. simpl fst. simpl snd.
  destruct (SQL_SUCCEEDED ret1);
    [|intros [= <- <-] _; simpl; repeat split; by eexists].
  pose proof (fresh_address_free w) as Hfree_env.
  set (env := fresh_address w) in *.
  intros Hrun Hdefined.
  apply scope_destroy with (k := Environment) in Hrun as
    (c1 & he' & d1' & Hbody & Hlive_env & ->); [|done].
  revert Hbody. rewrite bind_P_eq, run_eq. simpl world. simpl cout.
  change (Connection_ctor env) with (construct (D := D) Connection env).
  rewrite (construct_child_run Connection env he)
    by (done || apply lookup_insert_eq).
  cbv zeta. simpl handle_type. simpl driver. simpl calls. simpl cerr.
  simpl objects. simpl pool.
  destruct (drv_AllocHandle SQL_HANDLE_DBC he d1) as [[ret2 out2] d2].
  simpl fst. simpl snd.
  destruct (SQL_SUCCEEDED ret2).
  2:{ intros [= <- <-]. simpl in *.
      rewrite lookup_insert_eq in Hlive_env.
      rewrite delete_insert_id by done. repeat split. by eexists. }
  set (we := mkWorld d1 _ _ _ _).
  pose proof (fresh_address_free we) as Hfree_conn.
  set (conn := fresh_address we) in *.
  set (hc := store_out nullptr out2).
  intros Hbody.
  apply scope_destroy with (k := Connection) in Hbody as
    (c2 & hc' & d2' & Hbody & Hlive_conn & ->); [|done].
  revert Hbody. rewrite bind_P_eq, run_eq. simpl world. simpl cout.
  rewrite (driver_connect_run conn hc) by apply lookup_insert_eq.
  cbv zeta. simpl driver. simpl calls. simpl cerr. simpl objects. simpl pool.
  destruct (drv_DriverConnect hc _ SQL_NTS SQL_DRIVER_NOPROMPT d2)
    as [ret3 d3]. simpl fst. simpl snd.
  destruct (SQL_SUCCEEDED ret3).
  2:{ destruct (unexpected_from (T := unit) hc SQL_HANDLE_DBC _ _)
        as [[[[]|error]| |] w3] eqn:E.
      - exfalso. eapply (unexpected_from_not_expected (T := unit)).
        by rewrite E.
      - apply unexpected_from_only_calls in E as (_ & Ho & Hp & _).
        intros [= <- <-]. simpl in *. rewrite Ho in *. rewrite Hp.
        by rewrite !delete_insert_id by done.
      - by apply unexpected_from_never_throws in E.
      - by intros [= <- <-]. }
  set (wc := mkWorld d3 _ _ _ _).
  rewrite bind_P_eq, run_eq. simpl world. simpl cout.
  change (Statement_ctor conn) with (construct (D := D) Statement conn).
  rewrite (construct_child_run Statement conn hc)
    by (done || apply lookup_insert_eq).
  cbv zeta. simpl handle_type. simpl driver. simpl calls. simpl cerr.
  simpl objects. simpl pool.
  destruct (drv_AllocHandle SQL_HANDLE_STMT hc d3) as [[ret4 out4] d4].
  simpl fst. simpl snd.
  destruct (SQL_SUCCEEDED ret4).
  2:{ intros [= <- <-]. simpl in *.
      rewrite !delete_insert_id by done. repeat split. by eexists. }
  pose proof (fresh_address_free wc) as Hfree_stmt.
  set (stmt := fresh_address wc) in *.
  set (hs := store_out nullptr out4).
  intros Hbody.
  apply scope_destroy with (k := Statement) in Hbody as
    (c3 & hs' & d3' & Hbody & Hlive_stmt & ->); [|done].
  set (ws := mkWorld d4 _ _ _ _) in Hbody.
  set (c0 := mkConsole ws _) in Hbody.
  assert (Hlive0 : objects (world c0) !! stmt = Some hs)
    by apply lookup_insert_eq.
  assert (Hgoal : exists k,
    statement_work hs c0 k
    /\ ((exists what, r = Throws (std_runtime_error what)) /\ c3 = k
        \/ r = Returns tt
           /\ c3 = mkConsole (world k)
                             (cout k ++ ["--- Setup Complete ---"]))).
  { apply command_step with (hs := hs) in Hbody
      as (k1 & Hw1 & [Hthrow | Hbody]); [| |done..].
    { exists k1. split; [done | by left]. }
    assert (Hlive1 : objects (world k1) !! stmt = Some hs).
    { destruct Hw1 as (-> & _). done. }
    apply command_step with (hs := hs) in Hbody
      as (k2 & Hw2 & [Hthrow | Hbody]); [| |done..].
    { exists k2. split; [by eapply statement_work_trans | by left]. }
    assert (Hlive2 : objects (world k2) !! stmt = Some hs).
    { destruct Hw2 as (-> & _). done. }
    apply command_step with (hs := hs) in Hbody
      as (k3 & Hw3 & [Hthrow | Hbody]); [| |done..].
    { exists k3. split; [|by left].
      eapply statement_work_trans; [|done].
      by eapply statement_work_trans. }
    injection Hbody as <- <-. exists k3. split; [|by right].
    eapply statement_work_trans; [|done].
    by eapply statement_work_trans. }
  clear Hbody.
  destruct Hgoal as (k & (Ho & Hp & He & added & lines & Hc & Hall & Hl)
                       & Hcases).
  assert (Hobjects : objects (world c3) = objects ws
                     /\ pool (world c3) = pool w
                     /\ calls (world c3) = calls ws ++ added).
  { by destruct Hcases as [[_ ->] | [_ ->]]. }
  destruct Hobjects as (Ho3 & Hp3 & Hc3).
  simpl in Hlive_stmt, Hlive_conn, Hlive_env |- *.
  rewrite Ho3 in *. simpl in Hlive_stmt, Hlive_conn, Hlive_env |- *.
  rewrite lookup_insert_eq in Hlive_stmt. injection Hlive_stmt as <-.
  rewrite delete_insert_id in Hlive_conn, Hlive_env |- * by done.
  rewrite lookup_insert_eq in Hlive_conn. injection Hlive_conn as <-.
  rewrite delete_insert_id in Hlive_env |- * by done.
  rewrite lookup_insert_eq in Hlive_env. injection Hlive_env as <-.
  rewrite delete_insert_id by done.
  split; [done|]. split; [done|].
  destruct Hcases as [[[what ->] _] | [-> ->]]; [done|].
  exists he, hc, hs, added, lines.
  split; [|split; [done|]].
  - rewrite Hc3. simpl. by rewrite <- !app_assoc.
  - simpl. rewrite Hl. simpl. by rewrite <- !app_assoc.
Qed.

End TestProgramProperties.

(** ** Concrete runs of the further properties *)

Lemma diagnostic_record_round_trip_witness :
  (get_diagnostic_record 7 SQL_HANDLE_STMT
     (fresh [diag SQL_SUCCESS "42S02" 208 "Invalid object name"])).1
  = Ret (Some (mkOdbcError "42S02" 208 "Invalid object name")).
Proof.
  set (w := fresh [diag SQL_SUCCESS "42S02" 208 "Invalid object name"]).
  destruct (diagnostic_record_round_trip 7 SQL_HANDLE_STMT w
              (drv_GetDiagRec SQL_HANDLE_STMT 7 1 SQL_MAX_MESSAGE_LENGTH
                 (driver w)).1
              (SQLGetDiagRec SQL_HANDLE_STMT 7 1 SQL_MAX_MESSAGE_LENGTH w).2
              (list_ascii_of_string "42S02")
              (list_ascii_of_string "Invalid object name") 208)
    as [Hrecord _];
    [reflexivity | reflexivity | reflexivity | by repeat constructor
    | simpl; lia | reflexivity | reflexivity | simpl; lia | reflexivity |].
  rewrite Hrecord. reflexivity.
Defined.

Lemma diagnostic_text_length_beyond_buffer_witness :
  (get_diagnostic_record 7 SQL_HANDLE_STMT
     (fresh [mkAnswer SQL_SUCCESS_WITH_INFO (Some 600)
               (list_ascii_of_string "truncated")
               (list_ascii_of_string "01004" ++ [NUL]) (Some 0)])).1
  = Undef.
Proof.
  set (w := fresh [mkAnswer SQL_SUCCESS_WITH_INFO (Some 600)
                     (list_ascii_of_string "truncated")
                     (list_ascii_of_string "01004" ++ [NUL]) (Some 0)]).
  rewrite (diagnostic_text_length_beyond_buffer 7 SQL_HANDLE_STMT w
             (drv_GetDiagRec SQL_HANDLE_STMT 7 1 SQL_MAX_MESSAGE_LENGTH
                (driver w)).1
             (SQLGetDiagRec SQL_HANDLE_STMT 7 1 SQL_MAX_MESSAGE_LENGTH w).2
             600);
    [reflexivity | reflexivity | reflexivity | reflexivity | left; lia].
Defined.

Lemma failure_carries_the_record_witness :
  (perform (OpExecute "SELEC 1") 0%nat
     (holding [7] [code SQL_ERROR;
                   diag SQL_SUCCESS "42000" 102 "Syntax error"])).1
  = Ret (Unexpected (mkOdbcError "42000" 102 "Syntax error")).
Proof.
  set (w := holding [7] [code SQL_ERROR;
                         diag SQL_SUCCESS "42000" 102 "Syntax error"]).
  set (w1 := (attempt (OpExecute "SELEC 1") 7 w).2).
  destruct (failure_carries_the_record (OpExecute "SELEC 1") 0%nat 7 w w1
              (mkOdbcError "42000" 102 "Syntax error")
              (get_diagnostic_record 7 SQL_HANDLE_STMT w1).2)
    as [Hperform _]; [reflexivity | reflexivity | by vm_compute |].
  rewrite Hperform. reflexivity.
Defined.

Lemma passed_operation_is_not_an_error_witness :
  (perform OpFetch 0%nat (holding [7] [code SQL_NO_DATA])).1
  = Ret (Expected tt).
Proof.
  set (w := holding [7] [code SQL_NO_DATA]).
  destruct (passed_operation_is_not_an_error OpFetch 0%nat 7 w
              (attempt OpFetch 7 w).2)
    as (_ & _ & Hpassed); [reflexivity | reflexivity |].
  apply Hpassed. discriminate.
Defined.

Lemma disconnect_keeps_the_handle_witness :
  let w := holding [7] [code SQL_SUCCESS; code SQL_ERROR; code SQL_SUCCESS] in
  let w1 := (disconnect 0%nat w).2 in
  objects w1 = objects w
  /\ calls (Connection_dtor 0%nat w1).2
     = [CallDisconnect 7; CallDisconnect 7; CallFreeHandle SQL_HANDLE_DBC 7].
Proof.
  intros w w1.
  destruct (disconnect_keeps_the_handle 0%nat 7 w (disconnect 0%nat w).1 w1)
    as (Hobjects & _ & _ & w2 & Hdtor & Hcalls & _);
    [reflexivity | discriminate | reflexivity |].
  split; [exact Hobjects|]. rewrite Hdtor. simpl. rewrite Hcalls.
  reflexivity.
Defined.

Lemma numeric_value_is_what_the_driver_stored_witness :
  (get_data T_long 0%nat 1 (holding [7] [data SQL_SUCCESS "*" 8])).1
  = Ret (Expected (Some (list_ascii_of_string "*" ++ replicate 7 NUL))).
Proof.
  set (w := holding [7] [data SQL_SUCCESS "*" 8]).
  destruct (numeric_value_is_what_the_driver_stored T_long 0%nat 7 1 w
              (drv_GetData 7 1 SQL_C_SLONG 8 (driver w)).1
              (SQLGetData 7 1 SQL_C_SLONG 8 w).2)
    as (value & Hread & Hbytes);
    [discriminate | reflexivity | reflexivity | reflexivity | discriminate
    | simpl; lia |].
  rewrite Hread. simpl in Hbytes |- *. rewrite Hbytes. reflexivity.
Defined.

Lemma text_value_round_trip_witness :
  (get_data T_string 0%nat 2 (holding [7] [data SQL_SUCCESS "First" 5])).1
  = Ret (Expected (Some "First")).
Proof.
  set (w := holding [7] [data SQL_SUCCESS "First" 5]).
  rewrite (text_value_round_trip 0%nat 7 2 w
             (drv_GetData 7 2 SQL_C_CHAR 1024 (driver w)).1
             (SQLGetData 7 2 SQL_C_CHAR 1024 w).2
             (list_ascii_of_string "First") []);
    [reflexivity | reflexivity | reflexivity | reflexivity | reflexivity
    | reflexivity | simpl; lia].
Defined.

Lemma text_value_after_retry_witness :
  (get_data T_string 0%nat 1
     (holding [7] [data SQL_SUCCESS_WITH_INFO "x" 1500;
                   mkAnswer SQL_SUCCESS (Some 1500)
                            (replicate 1500 "x"%char) [] None])).1
  = Ret (Expected (Some (string_of_list_ascii (replicate 1500 "x"%char)))).
Proof.
  set (w := holding [7] [data SQL_SUCCESS_WITH_INFO "x" 1500;
                         mkAnswer SQL_SUCCESS (Some 1500)
                                  (replicate 1500 "x"%char) [] None]).
  set (w1 := (SQLGetData 7 1 SQL_C_CHAR 1024 w).2).
  rewrite (text_value_after_retry 0%nat 7 1 w
             (drv_GetData 7 1 SQL_C_CHAR 1024 (driver w)).1 w1
             (drv_GetData 7 1 SQL_C_CHAR 1501 (driver w1)).1
             (SQLGetData 7 1 SQL_C_CHAR 1501 w1).2
             (replicate 1500 "x"%char) []);
    [reflexivity | reflexivity | reflexivity | reflexivity | by vm_compute
    | by vm_compute | reflexivity | reflexivity | by vm_compute
    | by vm_compute | by vm_compute].
Defined.

Lemma pooled_sound henv script : pool_sound (pooled henv script).
Proof.
  intros p [= <-]. simpl. split; intros; by simplify_map_eq.
Qed.

Lemma cache_only_grows_witness :
  let w := pooled 11 [code_out SQL_SUCCESS 22; code SQL_SUCCESS] in
  exists p',
    pool (getConnection "A" "DSN=one" w).2 = Some p'
    /\ env_ p' = 0%nat
    /\ connections_ p' !! "A" = Some 2%nat.
Proof.
  intros w.
  destruct (cache_only_grows "A" "DSN=one" w (mkPool 0 ∅)
              (getConnection "A" "DSN=one" w).1
              (getConnection "A" "DSN=one" w).2)
    as (p' & Hpool & Henv & _ & _ & Hreturned & _);
    [reflexivity | by vm_compute | by vm_compute |].
  exists p'. split; [exact Hpool|]. split; [exact Henv|].
  apply Hreturned. by vm_compute.
Defined.

Lemma getConnection_keeps_the_pool_sound_witness :
  pool_sound
    (getConnection "A" "DSN=one"
       (pooled 11 [code_out SQL_SUCCESS 22; code SQL_SUCCESS])).2.
Proof.
  set (w := pooled 11 [code_out SQL_SUCCESS 22; code SQL_SUCCESS]).
  destruct (getConnection_keeps_the_pool_sound "A" "DSN=one" w
              (getConnection "A" "DSN=one" w).1
              (getConnection "A" "DSN=one" w).2)
    as [Hsound _];
    [apply pooled_sound | by vm_compute | by vm_compute |].
  exact Hsound.
Defined.

Lemma different_aliases_different_connections_witness :
  let w := pooled 11 [code_out SQL_SUCCESS 22; code SQL_SUCCESS;
                      code_out SQL_SUCCESS 23; code SQL_SUCCESS] in
  let first := getConnection "A" "DSN=one" w in
  let second := getConnection "B" "DSN=two" first.2 in
  first.1 = Ret 2%nat /\ second.1 = Ret 4%nat /\ 2%nat <> 4%nat.
Proof.
  intros w first second.
  split; [by vm_compute|]. split; [by vm_compute|].
  apply (different_aliases_different_connections "A" "B" "DSN=one" "DSN=two"
           w 2%nat first.2 4%nat second.2);
    [apply pooled_sound | discriminate | by vm_compute | by vm_compute].
Defined.

Lemma failed_attempt_releases_its_handle_witness :
  let w := pooled 11 [code_out SQL_SUCCESS 22; code SQL_ERROR;
                      diag SQL_SUCCESS "08001" 17 "Server not found";
                      code SQL_ERROR; code SQL_SUCCESS] in
  let w' := (getConnection "A" "DSN=one" w).2 in
  objects w' = objects w
  /\ calls w'
     = [CallAllocHandle SQL_HANDLE_DBC 11;
        CallDriverConnect 22 (list_ascii_of_string "DSN=one" ++ [NUL])
                          SQL_NTS SQL_DRIVER_NOPROMPT;
        CallGetDiagRec SQL_HANDLE_DBC 22 1 SQL_MAX_MESSAGE_LENGTH;
        CallDisconnect 22; CallFreeHandle SQL_HANDLE_DBC 22].
Proof.
  intros w w'.
  destruct (failed_attempt_releases_its_handle "A" "DSN=one" w (mkPool 0 ∅)
              11 (getConnection "A" "DSN=one" w).1 w')
    as (_ & Hobjects & _ & Hcalls & _);
    [reflexivity | reflexivity | reflexivity | reflexivity | reflexivity
    | by vm_compute | by vm_compute |].
  split; [exact Hobjects | exact Hcalls].
Defined.

Lemma granted_attempt_caches_the_handle_witness :
  let w := pooled 11 [code_out SQL_SUCCESS 22; code SQL_SUCCESS_WITH_INFO] in
  exists c w',
    getConnection "A" "DSN=one" w = (Ret c, w')
    /\ objects w !! c = None
    /\ objects w' = <[c := 22]> (objects w)
    /\ cerr w' = [LogCreatingNew "A"; LogEstablished].
Proof.
  intros w.
  destruct (granted_attempt_caches_the_handle "A" "DSN=one" w (mkPool 0 ∅)
              11)
    as (c & w' & Hrun & Hfree & Hobjects & _ & _ & Hlog & _);
    [reflexivity | reflexivity | reflexivity | reflexivity | reflexivity |].
  exists c, w'. split; [exact Hrun|]. split; [exact Hfree|].
  split; [exact Hobjects | exact Hlog].
Defined.

Lemma thread_local_pool_is_built_once_witness :
  let w := fresh [code_out SQL_SUCCESS 11; code SQL_SUCCESS;
                  code_out SQL_SUCCESS 22; code SQL_SUCCESS] in
  let w1 := (getThreadLocalConnection "A" "DSN=one" w).2 in
  let w2 := (getThreadLocalConnection "B" "DSN=two" w1).2 in
  environment_allocations (calls w1) = 1%nat
  /\ environment_allocations (calls w2) = environment_allocations (calls w1).
Proof.
  intros w w1 w2. split.
  - pose proof (thread_local_pool_is_built_once "A" "DSN=one" w
                  (getThreadLocalConnection "A" "DSN=one" w).1 w1) as Hfirst.
    change (pool w) with (@None ThreadLocalConnectionPool) in Hfirst.
    cbv beta iota in Hfirst.
    destruct Hfirst as [Hcount _]; [by vm_compute | by vm_compute |].
    exact Hcount.
  - pose proof (thread_local_pool_is_built_once "B" "DSN=two" w1
                  (getThreadLocalConnection "B" "DSN=two" w1).1 w2)
      as Hsecond.
    assert (Hpool : pool w1 = Some (mkPool 0 {["A" := 2%nat]}))
      by (by vm_compute).
    rewrite Hpool in Hsecond.
    destruct Hsecond as (_ & _ & Hcount); [by vm_compute | by vm_compute |].
    exact Hcount.
Defined.

Lemma failed_command_is_accepted_on_no_row_count_witness :
  let warning := mkOdbcError "01000" 0 "Table does not exist" in
  (handle_execute_result 0%nat (Unexpected warning) "DROP TABLE"
     (mkConsole (holding [33] [code_out SQL_SUCCESS (-1)]) [])).1
  = Returns true
  /\ (handle_execute_result 0%nat (Unexpected warning) "DROP TABLE"
        (mkConsole (holding [33] [code_out SQL_SUCCESS 0]) [])).1
     = Throws (std_runtime_error
                 "Setup failed on command 'DROP TABLE': ODBC Error: SQLSTATE=01000, NativeError=0, Message='Table does not exist'").
Proof.
  intros warning. split.
  - set (c := mkConsole (holding [33] [code_out SQL_SUCCESS (-1)]) []).
    destruct (failed_command_is_accepted_on_no_row_count 0%nat 33 warning
                "DROP TABLE" c SQL_SUCCESS (Some (-1))
                (SQLRowCount 33 (world c)).2)
      as (_ & Haccepted & _); [reflexivity | reflexivity |].
    destruct Haccepted as [line ->]; reflexivity.
  - set (c := mkConsole (holding [33] [code_out SQL_SUCCESS 0]) []).
    destruct (failed_command_is_accepted_on_no_row_count 0%nat 33 warning
                "DROP TABLE" c SQL_SUCCESS (Some 0)
                (SQLRowCount 33 (world c)).2)
      as (_ & _ & Hrefused & _); [reflexivity | reflexivity |].
    rewrite Hrefused; [by vm_compute | reflexivity | discriminate].
Defined.

Lemma setup_releases_what_it_allocates_witness :
  let script := [code_out SQL_SUCCESS 11; code SQL_SUCCESS;
                 code_out SQL_SUCCESS 22; code SQL_SUCCESS;
                 code_out SQL_SUCCESS 33;
                 code SQL_ERROR; diag SQL_SUCCESS "42000" 1 "refused";
                 code_out SQL_SUCCESS 0] in
  let c := mkConsole (fresh script) [] in
  let c' := (setup_database_schema "DSN=test" c).2 in
  objects (world c') = ∅
  /\ pool (world c') = None
  /\ calls (world c')
     = [CallAllocHandle SQL_HANDLE_ENV SQL_NULL_HANDLE;
        CallSetEnvAttr 11 SQL_ATTR_ODBC_VERSION SQL_OV_ODBC3 0;
        CallAllocHandle SQL_HANDLE_DBC 11;
        CallDriverConnect 22 (list_ascii_of_string "DSN=test" ++ [NUL])
                          SQL_NTS SQL_DRIVER_NOPROMPT;
        CallAllocHandle SQL_HANDLE_STMT 22;
        CallExecDirect 33
          (list_ascii_of_string "DROP TABLE IF EXISTS test_table") 31;
        CallGetDiagRec SQL_HANDLE_STMT 33 1 SQL_MAX_MESSAGE_LENGTH;
        CallRowCount 33;
        CallFreeHandle SQL_HANDLE_STMT 33;
        CallDisconnect 22; CallFreeHandle SQL_HANDLE_DBC 22;
        CallFreeHandle SQL_HANDLE_ENV 11].
Proof.
  intros script c c'.
  destruct (setup_releases_what_it_allocates "DSN=test" c
              (setup_database_schema "DSN=test" c).1 c')
    as (Hobjects & Hpool & _); [by vm_compute | by vm_compute |].
  split; [exact Hobjects|]. split; [exact Hpool|]. by vm_compute.
Defined.

Lemma disconnected_connection_stays_cached_witness :
  let w := pooled 11 [code_out SQL_SUCCESS 22; code SQL_SUCCESS;
                      code SQL_SUCCESS] in
  let w1 := (getConnection "A" "DSN=one" w).2 in
  let w2 := (disconnect 2%nat w1).2 in
  calls w2
  = [CallAllocHandle SQL_HANDLE_DBC 11;
     CallDriverConnect 22 (list_ascii_of_string "DSN=one" ++ [NUL])
                       SQL_NTS SQL_DRIVER_NOPROMPT;
     CallDisconnect 22]
  /\ getConnection "A" "DSN=one" w2 = (Ret 2%nat, w2).
Proof.
  intros w w1 w2. split; [by vm_compute|].
  apply (disconnected_connection_stays_cached "A" "DSN=one" "DSN=one" w
           2%nat w1 (disconnect 2%nat w1).1 w2);
    by vm_compute.
Defined.

Lemma refused_handle_is_a_setup_error_witness :
  let w := pooled 11 [code SQL_ERROR] in
  (getConnection "A" "DSN=one" w).1
  = Throw (OdbcSetupError "ODBC: Failed to allocate connection handle.")
  /\ calls (getConnection "A" "DSN=one" w).2
     = [CallAllocHandle SQL_HANDLE_DBC 11].
Proof.
  intros w.
  destruct (refused_handle_is_a_setup_error "A" "DSN=one" w (mkPool 0 ∅) 11)
    as (w' & Hrun & _ & _ & Hcalls & _);
    [reflexivity | reflexivity | reflexivity | reflexivity |].
  rewrite Hrun. split; [reflexivity | exact Hcalls].
Defined.
